(** * mcp-toolkit: the client core, embedded and verified

    A shallow embedding of [mcp_toolkit/client]: the schema normalizer and
    message helpers of [helper.py], the session registry of
    [client_manager.py], the synthetic chunks of [chunks.py] and the
    streaming chat loops of [chat.py].

    Python values are modelled as follows.
    - JSON-like data ([Dict[str, Any]], messages, request parameters) is the
      inductive [JSON]; a [dict] is an association list in insertion order,
      which is the order Python iterates it in.
    - A function that mutates its argument in place returns the mutated
      object next to its result, also when it raises.
    - Code that awaits the outside world (model provider, MCP sessions,
      transports) runs in the monad [M] over the processor state [St]; the
      outside world is an [Env] of capabilities that answer from the history
      of external calls made so far, which [St] records as a trace.
    - A raised exception is a [Raise] result; [try_] is [try/except]. *)

From Stdlib Require Import String Ascii List ZArith Bool Arith Lia.
From Stdlib Require Import DecimalString Decimal.
Import ListNotations.
Open Scope string_scope.
Open Scope list_scope.

Set Implicit Arguments.

(** ** Python values *)

#[warnings="-register-all"]
Inductive JSON : Type :=
| JNull : JSON
| JBool (b : bool)
| JNum (n : Z)
| JStr (s : string)
| JArr (xs : list JSON)
| JObj (kvs : list (string * JSON)).

(** A raised exception: its class and [str(e)]. *)
Record Exn : Type := mkExn { exn_class : string; exn_str : string }.

Inductive Result (A : Type) : Type :=
| Ok (a : A)
| Raise (e : Exn).
Arguments Ok {A} a.
Arguments Raise {A} e.

Definition AttributeError (msg : string) : Exn := mkExn "AttributeError" msg.
Definition TypeError (msg : string) : Exn := mkExn "TypeError" msg.
Definition IndexError (msg : string) : Exn := mkExn "IndexError" msg.

(** ** Insertion-ordered dictionaries *)

Section PyDict.
Variables K V : Type.
Variable keq : K -> K -> bool.

Fixpoint dict_get (d : list (K * V)) (k : K) : option V :=
  match d with
  | [] => None
  | (k', v) :: rest => if keq k' k then Some v else dict_get rest k
  end.

(** [k in d] *)
Definition dict_mem (d : list (K * V)) (k : K) : bool :=
  match dict_get d k with Some _ => true | None => false end.

(** [d[k] = v]: an existing key keeps its place, a new one goes last. *)
Fixpoint dict_set (d : list (K * V)) (k : K) (v : V) : list (K * V) :=
  match d with
  | [] => [(k, v)]
  | (k', v') :: rest =>
      if keq k' k then (k', v) :: rest else (k', v') :: dict_set rest k v
  end.

(** [del d[k]] *)
Definition dict_del (d : list (K * V)) (k : K) : list (K * V) :=
  filter (fun kv => negb (keq (fst kv) k)) d.

Definition dict_keys (d : list (K * V)) : list K := map fst d.
Definition dict_values (d : list (K * V)) : list V := map snd d.
End PyDict.

Definition dict : Type := list (string * JSON).

Definition sget (d : dict) (k : string) : option JSON := dict_get String.eqb d k.
Definition smem (d : dict) (k : string) : bool := dict_mem String.eqb d k.
Definition sset (d : dict) (k : string) (v : JSON) : dict := dict_set String.eqb d k v.
Definition sdel (d : dict) (k : string) : dict := dict_del String.eqb d k.

(** [x == s] for a Python string [s]. *)
Definition is_str (s : string) (x : JSON) : bool :=
  match x with
  | JStr t => String.eqb t s
  | _ => false
  end.

(** [s in xs] for a list [xs]. *)
Definition in_list_str (s : string) (xs : list JSON) : bool :=
  existsb (is_str s) xs.

(** [needle in hay] for two strings. *)
Fixpoint is_substring (needle hay : string) : bool :=
  if String.prefix needle hay then true
  else match hay with
       | EmptyString => false
       | String _ rest => is_substring needle rest
       end.

(** ** helper.py: [MCPHelper.filter_mcp_input_schema] *)

(** Lines 22-30: make every property key required.  A missing or non-list
    [required] is replaced by the key list; a list gets the missing keys
    appended, each tested against the list as it grows. *)
Definition ensure_required (s props : dict) : dict :=
  match sget s "required" with
  | Some (JArr req) =>
      sset s "required"
        (JArr (fold_left
                 (fun r k => if in_list_str k r then r else r ++ [JStr k])
                 (dict_keys props) req))
  | _ => sset s "required" (JArr (map JStr (dict_keys props)))
  end.

(** Lines 38-47: collapse a list-valued [type]. *)
Definition collapse_type (d : dict) : dict * option Exn :=
  match sget d "type" with
  | Some (JArr ts) =>
      if in_list_str "null" ts then
        match filter (fun t => negb (is_str "null" t)) ts with
        | t :: _ => (sset (sset d "type" t) "nullable" (JBool true), None)
        | [] => (d, None)
        end
      else
        match ts with
        | t :: _ => (sset d "type" t, None)
        | [] => (d, Some (IndexError "list index out of range"))
        end
  | _ => (d, None)
  end.

(** Lines 32-47, the body of the loop over [properties.items()], for one
    value.  A value that is not a dict is only tested: [in] is element
    membership on a list, substring on a string and a [TypeError] on
    anything else, and [del value["default"]] or [value["type"]] on a list
    or a string is a [TypeError]. *)
Definition filter_property (v : JSON) : JSON * option Exn :=
  match v with
  | JObj d =>
      let d1 := if smem d "default" then sdel d "default" else d in
      let (d2, e) := collapse_type d1 in
      (JObj d2, e)
  | JArr xs =>
      if in_list_str "default" xs
      then (v, Some (TypeError "list indices must be integers or slices, not str"))
      else if in_list_str "type" xs
      then (v, Some (TypeError "list indices must be integers or slices, not str"))
      else (v, None)
  | JStr s =>
      if is_substring "default" s
      then (v, Some (TypeError "'str' object doesn't support item deletion"))
      else if is_substring "type" s
      then (v, Some (TypeError "string indices must be integers, not 'str'"))
      else (v, None)
  | _ => (v, Some (TypeError "argument is not iterable"))
  end.

(** The loop over [properties.items()]: values are mutated in place, in
    order, up to the first one that raises. *)
Fixpoint filter_properties (props : dict) : dict * option Exn :=
  match props with
  | [] => ([], None)
  | (k, v) :: rest =>
      let (v', e) := filter_property v in
      match e with
      | Some ex => ((k, v') :: rest, Some ex)
      | None =>
          let (rest', e') := filter_properties rest in
          ((k, v') :: rest', e')
      end
  end.

(** [filter_mcp_input_schema(input_schema)]: the schema object after the
    call and the exception the call raised, if any.  When it returns, the
    returned value is that same object. *)
Definition filter_mcp_input_schema (s : dict) : dict * option Exn :=
  match sget s "properties" with
  | None => (s, None)
  | Some (JObj props) =>
      let s1 := ensure_required s props in
      let (props', e) := filter_properties props in
      let s2 := sset s1 "properties" (JObj props') in
      match e with
      | Some ex => (s2, Some ex)
      | None =>
          (if smem s2 "additionalProperties" then s2
           else sset s2 "additionalProperties" (JBool false), None)
      end
  | Some _ => (s, Some (AttributeError "object has no attribute 'keys'"))
  end.

(** Normalizing the result of a normalization: the second call runs on the
    object the first one returned, and not at all if the first one raised. *)
Definition filter_twice (s : dict) : dict * option Exn :=
  match filter_mcp_input_schema s with
  | (s', None) => filter_mcp_input_schema s'
  | r => r
  end.

(** ** The outside world *)

(** [mcp.types.Tool], as a session lists it. *)
Record Tool : Type := mkTool {
  name : string;
  description : option string;
  inputSchema : dict
}.

(** [MCPServerModel] of [constants.py]; the client reads two fields. *)
Record MCPServerModel : Type := mkServer {
  mcp_name : string;
  sse_url : string
}.

Definition BUILTIN_MCP_SERVERS : list MCPServerModel :=
  [ mkServer "web_search" "https://example.com/mcp/web_search" ].

(** Handles of the objects the MCP library hands out. *)
Definition Transport : Type := nat.
Definition Session : Type := nat.

(** What an [AsyncExitStack] holds. *)
Inductive Ctx : Type :=
| CtxTransport (t : Transport)
| CtxSession (s : Session).

(** A streamed tool-call fragment of the OpenAI SDK
    ([ChoiceDeltaToolCall]); [None] is an attribute that is [None]. *)
Record FunctionDelta : Type := mkFn {
  fn_name : option string;
  fn_arguments : option string
}.

Record ToolCallDelta : Type := mkTcd {
  tcd_index : Z;
  tcd_id : option string;
  tcd_function : option FunctionDelta
}.

Record Delta : Type := mkDelta {
  delta_tool_calls : option (list ToolCallDelta);
  delta_content : option string
}.

Record OpenAIChunk : Type := mkOChunk { choices : list Delta }.

(** A stream event of the Anthropic SDK; [None] is an attribute the event
    does not have. *)
Record ContentBlock : Type := mkBlock {
  cb_type : string;
  cb_id : string;
  cb_name : string
}.

Record BlockDelta : Type := mkBd {
  bd_type : option string;
  bd_partial_json : option string
}.

Record AnthropicEvent : Type := mkAEvent {
  ev_type : option string;
  ev_content_block : option ContentBlock;
  ev_delta : option BlockDelta
}.

(** An async iterator: the items it yields, then the exception it raises,
    if it does not end normally. *)
Record Stream (C : Type) : Type := mkStream {
  items : list C;
  fault : option Exn
}.

(** Every call that leaves the process, in the order made. *)
Inductive Event : Type :=
| EvStdioClient (params : JSON)
| EvSseClient (url : string)
| EvClientSession (t : Transport)
| EvSessionInitialize (s : Session)
| EvListTools (s : Session)
| EvCallTool (s : Session) (tool : string) (arguments : JSON)
| EvExit (c : Ctx)
| EvCompletionsCreate (params : dict)
| EvMessagesStream (params : dict).

(** The capabilities the client is given.  Each answers from the calls
    made before it, so a capability may answer two equal calls
    differently. *)
Class Env : Type := mkEnv {
  json_loads : string -> Result JSON;
  stdio_client : list Event -> JSON -> Result Transport;
  sse_client : list Event -> string -> Result Transport;
  ClientSession : list Event -> Transport -> Result Session;
  session_initialize : list Event -> Session -> Result unit;
  session_list_tools : list Event -> Session -> Result (list Tool);
  session_call_tool :
    list Event -> Session -> string -> JSON -> Result (list (option string));
  ctx_exit : list Event -> Ctx -> Result unit;
  completions_create : list Event -> dict -> Result (Stream OpenAIChunk);
  messages_stream : list Event -> dict -> Result (Stream AnthropicEvent)
}.

(** ** chunks.py *)

Inductive Provider : Type := OpenAI | Anthropic.

Definition PROGRESS : string := "progress".
Definition ERROR : string := "error".

(** What a stream yields: a provider chunk passed through, or a chunk made
    by [create_llm_chunk].  The [id] and [created] fields of an
    [OpenAICompatibleChunk] (a fresh uuid and the clock) are left out. *)
Inductive Out : Type :=
| PassOpenAI (c : OpenAIChunk)
| PassAnthropic (c : AnthropicEvent)
| Custom (provider : Provider) (chunk_type : string) (content : string).

Definition create_llm_chunk (chunk_type content : string) (provider : Provider) : Out :=
  Custom provider chunk_type content.

(** ** Processor state and its monad *)

(** An accumulated tool call, [final_tool_calls[i]]:
    [{"id", "type", "function": {"name", "arguments"}}]. *)
Record ToolCall : Type := mkCall {
  tc_id : string;
  tc_type : string;
  tc_name : string;
  tc_arguments : string
}.

(** The arguments of [MCPChat.__init__]. *)
Record MCPChat : Type := mkChat {
  model : string;
  messages : list JSON;
  stream : bool;
  max_turns : Z;
  temperature : option JSON;
  stream_options : dict;
  system_message : option string;
  max_tokens : option Z;
  mcp_servers : list MCPServerModel
}.

(** The mutable attributes of the processor and of its
    [MultipleMCPClientManager], the calls made so far and the chunks
    yielded so far.  [exit_stack] has the context entered last first. *)
Record St : Type := mkSt {
  sessions : list (string * Session);
  exit_stack : list Ctx;
  tool_map : list (string * string);
  tools : list JSON;
  chat_messages : list JSON;
  trace : list Event;
  out : list Out
}.

Definition init_state : St := mkSt [] [] [] [] [] [] [].

Definition M (A : Type) : Type := St -> St * Result A.

Definition ret {A : Type} (a : A) : M A := fun s => (s, Ok a).

Definition bind {A B : Type} (m : M A) (f : A -> M B) : M B :=
  fun s =>
    match m s with
    | (s', Ok a) => f a s'
    | (s', Raise e) => (s', Raise e)
    end.

Definition raise {A : Type} (e : Exn) : M A := fun s => (s, Raise e).

(** [try: m  except Exception as e: h e] *)
Definition try_ {A : Type} (m : M A) (h : Exn -> M A) : M A :=
  fun s =>
    match m s with
    | (s', Raise e) => h e s'
    | r => r
    end.

Declare Scope monad_scope.
Delimit Scope monad_scope with monad.
Notation "x <- m ;; k" := (bind m (fun x => k))
  (at level 61, m at next level, right associativity) : monad_scope.
Notation "m ;; k" := (bind m (fun _ => k))
  (at level 61, right associativity) : monad_scope.
Open Scope monad_scope.

Definition gets {A : Type} (f : St -> A) : M A := fun s => (s, Ok (f s)).

Definition modify (f : St -> St) : M unit := fun s => (f s, Ok tt).

Definition lift {A : Type} (r : Result A) : M A := fun s => (s, r).

Definition set_sessions (v : list (string * Session)) (s : St) : St :=
  mkSt v (exit_stack s) (tool_map s) (tools s) (chat_messages s) (trace s) (out s).
Definition set_exit_stack (v : list Ctx) (s : St) : St :=
  mkSt (sessions s) v (tool_map s) (tools s) (chat_messages s) (trace s) (out s).
Definition set_tool_map (v : list (string * string)) (s : St) : St :=
  mkSt (sessions s) (exit_stack s) v (tools s) (chat_messages s) (trace s) (out s).
Definition set_tools (v : list JSON) (s : St) : St :=
  mkSt (sessions s) (exit_stack s) (tool_map s) v (chat_messages s) (trace s) (out s).
Definition set_chat_messages (v : list JSON) (s : St) : St :=
  mkSt (sessions s) (exit_stack s) (tool_map s) (tools s) v (trace s) (out s).
Definition set_trace (v : list Event) (s : St) : St :=
  mkSt (sessions s) (exit_stack s) (tool_map s) (tools s) (chat_messages s) v (out s).
Definition set_out (v : list Out) (s : St) : St :=
  mkSt (sessions s) (exit_stack s) (tool_map s) (tools s) (chat_messages s) (trace s) v.

(** [yield o] *)
Definition yield (o : Out) : M unit :=
  modify (fun s => set_out (out s ++ [o]) s).

(** [self.chat_messages.append(m)] *)
Definition append_message (m : JSON) : M unit :=
  modify (fun s => set_chat_messages (chat_messages s ++ [m]) s).

(** An awaited call to the outside: it is recorded, and answered from the
    calls before it. *)
Definition await {A : Type} (ev : Event) (f : list Event -> Result A) : M A :=
  fun s => (set_trace (trace s ++ [ev]) s, f (trace s)).

(** ** helper.py: message and tool formats *)

Definition tool_call_json (call : ToolCall) : JSON :=
  JObj [ ("id", JStr (tc_id call));
         ("type", JStr (tc_type call));
         ("function", JObj [ ("name", JStr (tc_name call));
                             ("arguments", JStr (tc_arguments call)) ]) ].

(** [convert_to_openai_tool_format], on the dict entries [chat.py] builds. *)
Definition convert_to_openai_tool_format (tool_calls : list (Z * ToolCall)) : list JSON :=
  map tool_call_json (dict_values tool_calls).

Definition create_tool_result_message
    (tool_call_id observation : string) (provider : Provider) : JSON :=
  match provider with
  | Anthropic =>
      JObj [ ("role", JStr "user");
             ("content", JArr [ JObj [ ("type", JStr "tool_result");
                                       ("tool_use_id", JStr tool_call_id);
                                       ("content", JStr observation) ] ]) ]
  | OpenAI =>
      JObj [ ("role", JStr "tool");
             ("tool_call_id", JStr tool_call_id);
             ("content", JStr observation) ]
  end.

Definition opt_str (o : option string) : JSON :=
  match o with
  | Some s => JStr s
  | None => JNull
  end.

Definition anthropic_tool (tool : Tool) : JSON :=
  JObj [ ("name", JStr (name tool));
         ("description", opt_str (description tool));
         ("input_schema", JObj (inputSchema tool)) ].

Definition openai_tool (tool : Tool) (parameters : dict) : JSON :=
  JObj [ ("type", JStr "function");
         ("function", JObj [ ("name", JStr (name tool));
                             ("description", opt_str (description tool));
                             ("strict", JBool true);
                             ("parameters", JObj parameters) ]) ].

(** The OpenAI comprehension of [format_tools_object_for_llm_call].  Each
    [tool.inputSchema] is handed to [filter_mcp_input_schema], which works
    on that very object: the first component is the tool objects as the
    comprehension leaves them, with ["parameters"] of a formatted tool the
    same object as the [inputSchema] of its tool. *)
Fixpoint format_openai_tools (tool_objects : list Tool) : list Tool * Result (list JSON) :=
  match tool_objects with
  | [] => ([], Ok [])
  | tool :: rest =>
      let (schema, e) := filter_mcp_input_schema (inputSchema tool) in
      let tool' := mkTool (name tool) (description tool) schema in
      match e with
      | Some ex => (tool' :: rest, Raise ex)
      | None =>
          let (rest', r) := format_openai_tools rest in
          (tool' :: rest',
           match r with
           | Ok l => Ok (openai_tool tool schema :: l)
           | Raise ex => Raise ex
           end)
      end
  end.

(** [format_tools_object_for_llm_call(tool_objects, provider)], for the two
    providers [chat.py] passes: the tool objects after the call, and what
    the call returns or raises. *)
Definition format_tools_object_for_llm_call
    (tool_objects : list Tool) (provider : Provider) : list Tool * Result (list JSON) :=
  match provider with
  | Anthropic => (tool_objects, Ok (map anthropic_tool tool_objects))
  | OpenAI => format_openai_tools tool_objects
  end.

(** [str(n)] for a natural number. *)
Definition str_of_nat (n : nat) : string :=
  NilEmpty.string_of_uint (Nat.to_uint n).

(** A string attribute that is neither [None] nor empty. *)
Definition truthy (o : option string) : option string :=
  match o with
  | Some EmptyString => None
  | _ => o
  end.

(** [o or default] *)
Definition or_else (o : option string) (default : string) : string :=
  match truthy o with
  | Some s => s
  | None => default
  end.

(** [str(observation)] *)
Definition py_str (observation : option string) : string :=
  match observation with
  | Some text => text
  | None => "None"
  end.

Section Client.
Context {env : Env}.

(** [convert_to_anthropic_tool_format]: every entry's arguments go
    through [json.loads], in order. *)
Fixpoint anthropic_tool_uses (calls : list ToolCall) : Result (list JSON) :=
  match calls with
  | [] => Ok []
  | call :: rest =>
      match json_loads (tc_arguments call) with
      | Raise e => Raise e
      | Ok input =>
          match anthropic_tool_uses rest with
          | Raise e => Raise e
          | Ok l =>
              Ok (JObj [ ("type", JStr "tool_use");
                         ("id", JStr (tc_id call));
                         ("name", JStr (tc_name call));
                         ("input", input) ] :: l)
          end
      end
  end.

Definition convert_to_anthropic_tool_format
    (final_tool_calls : list (Z * ToolCall)) : Result (list JSON) :=
  anthropic_tool_uses (dict_values final_tool_calls).

(** ** client_manager.py: [MultipleMCPClientManager] *)

(** [await self.exit_stack.enter_async_context(cm)]: the context is on
    the stack once it has been entered. *)
Definition enter_async_context {A : Type}
    (ev : Event) (enter : list Event -> Result A) (ctx : A -> Ctx) : M A :=
  a <- await ev enter ;;
  modify (fun s => set_exit_stack (ctx a :: exit_stack s) s) ;;
  ret a.

(** Lines 123-127 and 135-139: the session over a transport. *)
Definition open_session (server_name : string) (t : Transport) : M unit :=
  session <- enter_async_context (EvClientSession t)
               (fun h => ClientSession h t) CtxSession ;;
  await (EvSessionInitialize session) (fun h => session_initialize h session) ;;
  modify (fun s => set_sessions (dict_set String.eqb (sessions s) server_name session) s).

Fixpoint initialize_stdio (stdio_server_map : list (string * JSON)) : M unit :=
  match stdio_server_map with
  | [] => ret tt
  | (server_name, params) :: rest =>
      t <- enter_async_context (EvStdioClient params)
             (fun h => stdio_client h params) CtxTransport ;;
      open_session server_name t ;;
      initialize_stdio rest
  end.

Fixpoint initialize_sse (sse_server_map : list MCPServerModel) : M unit :=
  match sse_server_map with
  | [] => ret tt
  | mcp :: rest =>
      t <- enter_async_context (EvSseClient (sse_url mcp))
             (fun h => sse_client h (sse_url mcp)) CtxTransport ;;
      open_session (mcp_name mcp) t ;;
      initialize_sse rest
  end.

(** [initialize()]; the handler logs and re-raises. *)
Definition initialize
    (stdio_server_map : list (string * JSON))
    (sse_server_map : list MCPServerModel) : M unit :=
  try_ (initialize_stdio stdio_server_map ;; initialize_sse sse_server_map)
       (fun e => raise e).

(** Lines 160-163: one session's listing. *)
Fixpoint register_tools (server_name : string) (listed : list Tool)
    (acc : list (string * string) * list Tool) : list (string * string) * list Tool :=
  match listed with
  | [] => acc
  | tool :: rest =>
      let (tm, consolidated_tools) := acc in
      if dict_mem String.eqb tm (name tool)
      then register_tools server_name rest acc
      else register_tools server_name rest
             (dict_set String.eqb tm (name tool) server_name,
              consolidated_tools ++ [tool])
  end.

Fixpoint list_tools_from (ss : list (string * Session))
    (acc : list (string * string) * list Tool)
    : M (list (string * string) * list Tool) :=
  match ss with
  | [] => ret acc
  | (server_name, session) :: rest =>
      listed <- await (EvListTools session) (fun h => session_list_tools h session) ;;
      list_tools_from rest (register_tools server_name listed acc)
  end.

(** [list_tools()] *)
Definition list_tools : M (list (string * string) * list Tool) :=
  ss <- gets sessions ;;
  list_tools_from ss ([], []).

(** [call_tool(tool_name, arguments, tool_map)]; [None] is the value
    returned for a tool that is not found.  An empty server name is
    falsy, as a missing one is. *)
Definition call_tool (tool_name : string) (arguments : JSON)
    (tm : list (string * string)) : M (option string) :=
  match dict_get String.eqb tm tool_name with
  | None => ret None
  | Some EmptyString => ret None
  | Some server_name =>
      ss <- gets sessions ;;
      match dict_get String.eqb ss server_name with
      | Some session =>
          content <- await (EvCallTool session tool_name arguments)
                       (fun h => session_call_tool h session tool_name arguments) ;;
          match content with
          | [] => raise (IndexError "list index out of range")
          | Some text :: _ => ret (Some text)
          | None :: _ => raise (AttributeError "object has no attribute 'text'")
          end
      | None => ret None
      end
  end.

(** [self.exit_stack.aclose()]: every context is exited, the one entered
    last first; an exception raised by an exit is kept and raised once
    all have been exited. *)
Fixpoint aclose (cs : list Ctx) (pending : option Exn) : M unit :=
  match cs with
  | [] => match pending with
          | Some e => raise e
          | None => ret tt
          end
  | c :: rest =>
      modify (set_exit_stack rest) ;;
      p <- try_ (await (EvExit c) (fun h => ctx_exit h c) ;; ret pending)
                (fun e => ret (Some e)) ;;
      aclose rest p
  end.

(** [close()] *)
Definition close : M unit :=
  cs <- gets exit_stack ;;
  aclose cs None.

(** ** chat.py: [MCPChat] *)

(** [setup_client(provider)].  The tool objects are local to it; the
    formatted tools keep their schemas. *)
Definition setup_client (p : MCPChat) (provider : Provider) : M unit :=
  modify (fun s => set_exit_stack [] (set_sessions [] s)) ;;
  initialize [] (mcp_servers p) ;;
  listed <- list_tools ;;
  modify (set_tool_map (fst listed)) ;;
  formatted <- lift (snd (format_tools_object_for_llm_call (snd listed) provider)) ;;
  modify (set_tools formatted) ;;
  modify (set_chat_messages (messages p)).

(** The loop of [process_tool_calls] over [final_tool_calls.values()]. *)
Fixpoint execute_tools (calls : list ToolCall) (provider : Provider) : M unit :=
  match calls with
  | [] => ret tt
  | tool_call :: rest =>
      let tool_name := tc_name tool_call in
      tool_args <- lift (json_loads (tc_arguments tool_call)) ;;
      yield (create_llm_chunk PROGRESS
               ("Executing tool: " ++ tool_name ++ "...") provider) ;;
      tm <- gets tool_map ;;
      observation <- call_tool tool_name tool_args tm ;;
      append_message
        (create_tool_result_message (tc_id tool_call) (py_str observation) provider) ;;
      yield (create_llm_chunk PROGRESS
               ("Tool " ++ tool_name ++ " execution complete.") provider) ;;
      execute_tools rest provider
  end.

(** [process_tool_calls(final_tool_calls, provider)] *)
Definition process_tool_calls
    (final_tool_calls : list (Z * ToolCall)) (provider : Provider) : M unit :=
  match final_tool_calls with
  | [] => ret tt
  | _ =>
      execute_tools (dict_values final_tool_calls) provider ;;
      yield (create_llm_chunk PROGRESS "All tools executed successfully." provider)
  end.

(** The locals of one turn. *)
Record Acc : Type := mkAcc {
  final_tool_calls : list (Z * ToolCall);
  tool_index : nat;
  current_tool_index : option nat;
  content_buffer : string
}.

Definition new_acc : Acc := mkAcc [] 0 None "".

(** Lines 200-216: one entry of [delta.tool_calls]. *)
Definition absorb_tool_call (acc : Acc) (tool_call : ToolCallDelta) : Acc * option Exn :=
  let calls := final_tool_calls acc in
  match dict_get Z.eqb calls (tcd_index tool_call) with
  | None =>
      match tcd_function tool_call with
      | None =>
          (acc, Some (AttributeError "'NoneType' object has no attribute 'name'"))
      | Some fn =>
          let entry :=
            mkCall (or_else (tcd_id tool_call) ("call_" ++ str_of_nat (tool_index acc)))
                   "function"
                   (or_else (fn_name fn) "")
                   (or_else (fn_arguments fn) "") in
          (mkAcc (dict_set Z.eqb calls (tcd_index tool_call) entry)
                 (S (tool_index acc)) (current_tool_index acc) (content_buffer acc),
           None)
      end
  | Some entry =>
      match tcd_function tool_call with
      | None =>
          (acc, Some (AttributeError "'NoneType' object has no attribute 'name'"))
      | Some fn =>
          let entry1 :=
            match truthy (fn_name fn) with
            | Some n => mkCall (tc_id entry) (tc_type entry) n (tc_arguments entry)
            | None => entry
            end in
          let entry2 :=
            match truthy (fn_arguments fn) with
            | Some a =>
                mkCall (tc_id entry1) (tc_type entry1) (tc_name entry1)
                       (tc_arguments entry1 ++ a)
            | None => entry1
            end in
          (mkAcc (dict_set Z.eqb calls (tcd_index tool_call) entry2)
                 (tool_index acc) (current_tool_index acc) (content_buffer acc),
           None)
      end
  end.

Fixpoint absorb_tool_calls (acc : Acc) (tool_calls : list ToolCallDelta) : Acc * option Exn :=
  match tool_calls with
  | [] => (acc, None)
  | tool_call :: rest =>
      match absorb_tool_call acc tool_call with
      | (acc', None) => absorb_tool_calls acc' rest
      | r => r
      end
  end.

(** Lines 197-220: what the inner [try] does to the locals before it
    yields the chunk, and the exception that stops it, if any. *)
Definition absorb_openai_chunk (acc : Acc) (chunk : OpenAIChunk) : Acc * option Exn :=
  match choices chunk with
  | [] => (acc, Some (IndexError "list index out of range"))
  | delta :: _ =>
      let r := match delta_tool_calls delta with
               | Some tool_calls => absorb_tool_calls acc tool_calls
               | None => (acc, None)
               end in
      match r with
      | (acc1, None) =>
          (match truthy (delta_content delta) with
           | Some c =>
               mkAcc (final_tool_calls acc1) (tool_index acc1)
                     (current_tool_index acc1) (content_buffer acc1 ++ c)
           | None => acc1
           end, None)
      | _ => r
      end
  end.

(** Lines 195-227: the loop over the response stream. *)
Fixpoint openai_chunks (chunks : list OpenAIChunk) (acc : Acc) : M Acc :=
  match chunks with
  | [] => ret acc
  | chunk :: rest =>
      let (acc', e) := absorb_openai_chunk acc chunk in
      match e with
      | None => yield (PassOpenAI chunk)
      | Some ex =>
          yield (create_llm_chunk ERROR
                   ("Error processing response: " ++ exn_str ex) OpenAI)
      end ;;
      openai_chunks rest acc'
  end.

(** The end of an [async for]: the iterator stops, or raises. *)
Definition end_of_stream {C : Type} (r : Stream C) : M unit :=
  match fault r with
  | Some e => raise e
  | None => ret tt
  end.

Definition openai_options (p : MCPChat) : dict :=
  (match stream_options p with
   | [] => []
   | so => [("stream_options", JObj so)]
   end) ++
  (match temperature p with
   | Some t => [("temperature", t)]
   | None => []
   end).

Definition openai_completion_params (p : MCPChat) (s : St) : dict :=
  [ ("model", JStr (model p));
    ("messages", JArr (chat_messages s));
    ("tools", JArr (tools s));
    ("stream", JBool (stream p)) ] ++ openai_options p.

Definition openai_follow_up_params (p : MCPChat) (s : St) : dict :=
  [ ("model", JStr (model p));
    ("messages", JArr (chat_messages s));
    ("stream", JBool (stream p)) ] ++ openai_options p.

Fixpoint forward_openai (chunks : list OpenAIChunk) : M unit :=
  match chunks with
  | [] => ret tt
  | chunk :: rest => yield (PassOpenAI chunk) ;; forward_openai rest
  end.

(** Lines 229-266: what a turn does with the accumulated calls.  [true]
    goes on to the next turn, [false] is [break]. *)
Definition resolve_openai (p : MCPChat) (acc : Acc) : M bool :=
  match final_tool_calls acc with
  | [] =>
      match content_buffer acc with
      | EmptyString => ret tt
      | buf => append_message (JObj [ ("role", JStr "assistant"); ("content", JStr buf) ])
      end ;;
      ret false
  | calls =>
      yield (create_llm_chunk PROGRESS "Using MCP tools to gather information..." OpenAI) ;;
      append_message
        (JObj [ ("role", JStr "assistant");
                ("content", JNull);
                ("tool_calls", JArr (convert_to_openai_tool_format calls)) ]) ;;
      process_tool_calls calls OpenAI ;;
      yield (create_llm_chunk PROGRESS
               "Information gathered. Formulating complete response..." OpenAI) ;;
      follow_up_params <- gets (openai_follow_up_params p) ;;
      follow_up_response <- await (EvCompletionsCreate follow_up_params)
                              (fun h => completions_create h follow_up_params) ;;
      forward_openai (items follow_up_response) ;;
      end_of_stream follow_up_response ;;
      ret true
  end.

(** Lines 168-227: the model call of a turn and the reading of its
    response. *)
Definition openai_model_call (p : MCPChat) (turn : nat) : M Acc :=
  (if Nat.eqb turn 0
   then yield (create_llm_chunk PROGRESS
                 "Analyzing your question and determining next steps..." OpenAI)
   else ret tt) ;;
  completion_params <- gets (openai_completion_params p) ;;
  stream_response <- await (EvCompletionsCreate completion_params)
                       (fun h => completions_create h completion_params) ;;
  acc <- openai_chunks (items stream_response) new_acc ;;
  end_of_stream stream_response ;;
  ret acc.

(** [for turn in range(n)], from [turn] on. *)
Fixpoint openai_turns (p : MCPChat) (n turn : nat) : M unit :=
  match n with
  | 0 => ret tt
  | S n' =>
      acc <- openai_model_call p turn ;;
      continue <- resolve_openai p acc ;;
      if continue then openai_turns p n' (S turn) else ret tt
  end.

Definition openai_body (p : MCPChat) : M unit :=
  yield (create_llm_chunk PROGRESS "Warming up the thinking engine..." OpenAI) ;;
  setup_client p OpenAI ;;
  openai_turns p (Z.to_nat (max_turns p)) 0.

(** [process_openai_stream_chat()], iterated to its end. *)
Definition process_openai_stream_chat (p : MCPChat) : M unit :=
  try_ (openai_body p)
       (fun e => yield (create_llm_chunk ERROR ("Error: " ++ exn_str e) OpenAI)).

(** Lines 416-436: what the inner [try] of the Anthropic loop does to the
    locals before it yields the event. *)
Definition absorb_anthropic_chunk (acc : Acc) (chunk : AnthropicEvent) : Acc * option Exn :=
  match ev_type chunk with
  | None => (acc, None)
  | Some ty =>
      if String.eqb ty "content_block_start" then
        match ev_content_block chunk with
        | None => (acc, Some (AttributeError "object has no attribute 'content_block'"))
        | Some block =>
            if String.eqb (cb_type block) "tool_use" then
              let index := tool_index acc in
              (mkAcc (dict_set Z.eqb (final_tool_calls acc) (Z.of_nat index)
                        (mkCall (cb_id block) "function" (cb_name block) ""))
                     (S index) (Some index) (content_buffer acc),
               None)
            else (acc, None)
        end
      else if String.eqb ty "content_block_delta" then
        match ev_delta chunk with
        | None => (acc, Some (AttributeError "object has no attribute 'delta'"))
        | Some d =>
            match bd_type d with
            | Some dty =>
                if String.eqb dty "input_json_delta" then
                  match current_tool_index acc with
                  | None => (acc, None)
                  | Some cur =>
                      match dict_get Z.eqb (final_tool_calls acc) (Z.of_nat cur) with
                      | None => (acc, None)
                      | Some entry =>
                          match bd_partial_json d with
                          | None =>
                              (acc, Some (AttributeError
                                            "object has no attribute 'partial_json'"))
                          | Some fragment =>
                              (mkAcc (dict_set Z.eqb (final_tool_calls acc) (Z.of_nat cur)
                                        (mkCall (tc_id entry) (tc_type entry) (tc_name entry)
                                                (tc_arguments entry ++ fragment)))
                                     (tool_index acc) (current_tool_index acc)
                                     (content_buffer acc),
                               None)
                          end
                      end
                  end
                else (acc, None)
            | None => (acc, None)
            end
        end
      else (acc, None)
  end.

(** Lines 413-441: the loop over the response stream. *)
Fixpoint anthropic_chunks (chunks : list AnthropicEvent) (acc : Acc) : M Acc :=
  match chunks with
  | [] => ret acc
  | chunk :: rest =>
      let (acc', e) := absorb_anthropic_chunk acc chunk in
      match e with
      | None => yield (PassAnthropic chunk)
      | Some ex =>
          yield (create_llm_chunk ERROR
                   ("Error processing response: " ++ exn_str ex) Anthropic)
      end ;;
      anthropic_chunks rest acc'
  end.

Definition anthropic_options (p : MCPChat) : dict :=
  (match max_tokens p with
   | Some n => [("max_tokens", JNum n)]
   | None => []
   end) ++
  (match system_message p with
   | Some m => [("system", JStr m)]
   | None => []
   end).

Definition anthropic_completion_params (p : MCPChat) (s : St) : dict :=
  [ ("model", JStr (model p));
    ("messages", JArr (chat_messages s));
    ("tools", JArr (tools s)) ] ++ anthropic_options p.

Definition anthropic_follow_up_params (p : MCPChat) (s : St) : dict :=
  [ ("model", JStr (model p));
    ("messages", JArr (chat_messages s)) ] ++ anthropic_options p.

Fixpoint forward_anthropic (chunks : list AnthropicEvent) : M unit :=
  match chunks with
  | [] => ret tt
  | chunk :: rest => yield (PassAnthropic chunk) ;; forward_anthropic rest
  end.

(** Lines 443-476. *)
Definition resolve_anthropic (p : MCPChat) (acc : Acc) : M bool :=
  match final_tool_calls acc with
  | [] => ret false
  | calls =>
      tool_uses <- lift (convert_to_anthropic_tool_format calls) ;;
      append_message
        (JObj [ ("role", JStr "assistant"); ("content", JArr tool_uses) ]) ;;
      yield (create_llm_chunk PROGRESS "Using MCP tools to gather information..." Anthropic) ;;
      process_tool_calls calls Anthropic ;;
      yield (create_llm_chunk PROGRESS
               "Information gathered. Formulating complete response..." Anthropic) ;;
      follow_up_params <- gets (anthropic_follow_up_params p) ;;
      follow_up_response <- await (EvMessagesStream follow_up_params)
                              (fun h => messages_stream h follow_up_params) ;;
      forward_anthropic (items follow_up_response) ;;
      end_of_stream follow_up_response ;;
      ret true
  end.

(** Lines 388-441. *)
Definition anthropic_model_call (p : MCPChat) (turn : nat) : M Acc :=
  (if Nat.eqb turn 0
   then yield (create_llm_chunk PROGRESS
                 "Analyzing your question and determining next steps..." Anthropic)
   else ret tt) ;;
  completion_params <- gets (anthropic_completion_params p) ;;
  stream_response <- await (EvMessagesStream completion_params)
                       (fun h => messages_stream h completion_params) ;;
  acc <- anthropic_chunks (items stream_response) new_acc ;;
  end_of_stream stream_response ;;
  ret acc.

Fixpoint anthropic_turns (p : MCPChat) (n turn : nat) : M unit :=
  match n with
  | 0 => ret tt
  | S n' =>
      acc <- anthropic_model_call p turn ;;
      continue <- resolve_anthropic p acc ;;
      if continue then anthropic_turns p n' (S turn) else ret tt
  end.

Definition anthropic_body (p : MCPChat) : M unit :=
  yield (create_llm_chunk PROGRESS "Warming up the thinking engine..." Anthropic) ;;
  setup_client p Anthropic ;;
  anthropic_turns p (Z.to_nat (max_turns p)) 0.

(** [process_anthropic_stream_chat()], iterated to its end. *)
Definition process_anthropic_stream_chat (p : MCPChat) : M unit :=
  try_ (anthropic_body p)
       (fun e => yield (create_llm_chunk ERROR ("Error: " ++ exn_str e) Anthropic)).
End Client.

(** [MCPChat(...)]: the defaults [__init__] fills in. *)
Definition MCPChat_init
    (model : string) (messages : list JSON) (stream : bool) (max_turns : Z)
    (temperature : option JSON) (stream_options : option dict)
    (system_message : option string) (max_tokens : option Z)
    (mcp_servers : option (list MCPServerModel)) : MCPChat :=
  mkChat model messages stream max_turns temperature
    (match stream_options with Some so => so | None => [] end)
    system_message max_tokens
    (match mcp_servers with
     | Some (srv :: rest) => srv :: rest
     | _ => BUILTIN_MCP_SERVERS
     end).

(** ** What the properties speak about *)

Definition is_model_call (ev : Event) : bool :=
  match ev with
  | EvCompletionsCreate _ | EvMessagesStream _ => true
  | _ => false
  end.

(** A model call that carries the tool list: its response is the one a
    turn reads for tool calls. *)
Definition is_tool_checked_call (ev : Event) : bool :=
  match ev with
  | EvCompletionsCreate params | EvMessagesStream params => smem params "tools"
  | _ => false
  end.

Definition is_tool_execution (ev : Event) : bool :=
  match ev with
  | EvCallTool _ _ _ => true
  | _ => false
  end.

Definition is_exit (ev : Event) : bool :=
  match ev with
  | EvExit _ => true
  | _ => false
  end.

Definition count_events (f : Event -> bool) (s : St) : nat :=
  length (filter f (trace s)).

Definition is_error_chunk (o : Out) : bool :=
  match o with
  | Custom _ chunk_type _ => String.eqb chunk_type ERROR
  | _ => false
  end.

(** No element of a list-valued [type] of a property is itself a list. *)
Definition flat_property (v : JSON) : bool :=
  match v with
  | JObj d =>
      match sget d "type" with
      | Some (JArr ts) =>
          forallb (fun t => match t with JArr _ => false | _ => true end) ts
      | _ => true
      end
  | _ => true
  end.

Definition flat_types (s : dict) : bool :=
  match sget s "properties" with
  | Some (JObj props) => forallb (fun kv => flat_property (snd kv)) props
  | _ => true
  end.

(** The tool object [filter_mcp_input_schema] leaves behind. *)
Definition normalized (tool : Tool) : Tool :=
  mkTool (name tool) (description tool) (fst (filter_mcp_input_schema (inputSchema tool))).

Definition lists_tool (tool_name : string) (listing : string * list Tool) : bool :=
  existsb (fun tool => String.eqb (name tool) tool_name) (snd listing).

(** The first server, in the order the sessions are asked, whose listing
    has a tool of that name. *)
Definition first_owner (listings : list (string * list Tool)) (tool_name : string)
    : option string :=
  option_map fst (find (lists_tool tool_name) listings).

(** What each session answers when [list_tools()] asks them in turn,
    starting after the calls [h]. *)
Fixpoint listings_of {env : Env} (ss : list (string * Session)) (h : list Event)
    : Result (list (string * list Tool)) :=
  match ss with
  | [] => Ok []
  | (server_name, session) :: rest =>
      match session_list_tools h session with
      | Raise e => Raise e
      | Ok listed =>
          match listings_of rest (h ++ [EvListTools session]) with
          | Raise e => Raise e
          | Ok ls => Ok ((server_name, listed) :: ls)
          end
      end
  end.

(** The routing table and tool list after the listings [ls] have been
    registered, in order. *)
Definition register_all (ls : list (string * list Tool))
    (acc : list (string * string) * list Tool) : list (string * string) * list Tool :=
  fold_left (fun a sl => register_tools (fst sl) (snd sl) a) ls acc.

(** The tool list names exactly the keys of the routing table, each once. *)
Definition consistent (acc : list (string * string) * list Tool) : Prop :=
  map name (snd acc) = dict_keys (fst acc) /\ NoDup (dict_keys (fst acc)).

(** Between [s] and [s'] nothing was closed: contexts were only pushed on
    the exit stack, no context was exited, and no server lost its session. *)
Definition nothing_closed (s s' : St) : Prop :=
  (exists opened, exit_stack s' = opened ++ exit_stack s) /\
  count_events is_exit s' <= count_events is_exit s /\
  (forall server_name,
      dict_mem String.eqb (sessions s) server_name = true ->
      dict_mem String.eqb (sessions s') server_name = true).

(** From [s] to [s'] the trace grew, by at most [k] events of the kind [f]. *)
Definition adds (f : Event -> bool) (k : nat) (s s' : St) : Prop :=
  exists evs, trace s' = trace s ++ evs /\ length (filter f evs) <= k.

(** An Anthropic event that is a [content_block_delta] carrying an
    [input_json_delta]. *)
Definition is_input_json_delta (chunk : AnthropicEvent) : bool :=
  match ev_type chunk, ev_delta chunk with
  | Some ty, Some d =>
      String.eqb ty "content_block_delta" &&
      match bd_type d with
      | Some dty => String.eqb dty "input_json_delta"
      | None => false
      end
  | _, _ => false
  end.

(** An Anthropic event that starts a [tool_use] content block. *)
Definition opens_tool (chunk : AnthropicEvent) : bool :=
  match ev_type chunk, ev_content_block chunk with
  | Some ty, Some block =>
      String.eqb ty "content_block_start" && String.eqb (cb_type block) "tool_use"
  | _, _ => false
  end.

(** The name of an entry after a fragment, had the first non-empty name
    been kept. *)
Definition first_name_wins (old : string) (fragment : option string) : string :=
  match old with
  | EmptyString => or_else fragment ""
  | _ => old
  end.

(** The name of an entry after a fragment, as [absorb_tool_call] sets it. *)
Definition last_name_wins (old : string) (fragment : option string) : string :=
  or_else fragment old.

(** The tool objects have the schemas they had before formatting. *)
Definition schemas_unchanged (tool_objects : list Tool) (provider : Provider) : Prop :=
  map inputSchema (fst (format_tools_object_for_llm_call tool_objects provider))
  = map inputSchema tool_objects.

(** A fragment for an entry that exists leaves it with the name that the
    first non-empty fragment gave it. *)
Definition name_set_once (acc : Acc) (tool_call : ToolCallDelta) : Prop :=
  forall fn entry entry',
    tcd_function tool_call = Some fn ->
    dict_get Z.eqb (final_tool_calls acc) (tcd_index tool_call) = Some entry ->
    dict_get Z.eqb (final_tool_calls (fst (absorb_tool_call acc tool_call)))
             (tcd_index tool_call) = Some entry' ->
    tc_name entry' = first_name_wins (tc_name entry) (fn_name fn).

(** Some yielded chunk is an error chunk. *)
Definition reports_error (outs : list Out) : bool := existsb is_error_chunk outs.

(** Nothing entered is left open and no session is left registered. *)
Definition rolled_back (s : St) : Prop :=
  exit_stack s = [] /\ sessions s = [].

(** The state in which the chunk [o] has been yielded. *)
Definition yielded (o : Out) (s : St) : St := set_out (out s ++ [o]) s.

(** The state in which the message [m] has been appended. *)
Definition appended (m : JSON) (s : St) : St :=
  set_chat_messages (chat_messages s ++ [m]) s.

(** The locals after a run of chunks, whatever each chunk raised. *)
Definition openai_acc (chunks : list OpenAIChunk) (acc : Acc) : Acc :=
  fold_left (fun a chunk => fst (absorb_openai_chunk a chunk)) chunks acc.

Definition anthropic_acc (chunks : list AnthropicEvent) (acc : Acc) : Acc :=
  fold_left (fun a chunk => fst (absorb_anthropic_chunk a chunk)) chunks acc.

(** The state after a call whose tool was not found: the two progress
    chunks around the tool-result message that carries [str(None)]. *)
Definition not_found_step (provider : Provider) (s : St) (call : ToolCall) : St :=
  yielded (create_llm_chunk PROGRESS
             ("Tool " ++ tc_name call ++ " execution complete.") provider)
    (appended (create_tool_result_message (tc_id call) (py_str None) provider)
       (yielded (create_llm_chunk PROGRESS
                   ("Executing tool: " ++ tc_name call ++ "...") provider) s)).

(** The assistant message of an OpenAI turn that asks for [calls]. *)
Definition openai_assistant_message (calls : list (Z * ToolCall)) : JSON :=
  JObj [ ("role", JStr "assistant");
         ("content", JNull);
         ("tool_calls", JArr (convert_to_openai_tool_format calls)) ].

(** The state in which an OpenAI turn starts to execute [calls]. *)
Definition openai_tools_start (calls : list (Z * ToolCall)) (s : St) : St :=
  appended (openai_assistant_message calls)
    (yielded (create_llm_chunk PROGRESS "Using MCP tools to gather information..." OpenAI) s).

(** The state in which an OpenAI turn makes its follow-up call, the tools
    having left it in [s]. *)
Definition openai_tools_done (s : St) : St :=
  yielded (create_llm_chunk PROGRESS
             "Information gathered. Formulating complete response..." OpenAI) s.

(** ** Concrete worlds for the examples *)

Definition is_ws (c : ascii) : bool :=
  match nat_of_ascii c with
  | 32 | 9 | 10 | 13 => true
  | _ => false
  end.

Fixpoint skip_ws (l : list ascii) : list ascii :=
  match l with
  | c :: r => if is_ws c then skip_ws r else l
  | [] => []
  end.

Definition is_digit (c : ascii) : bool :=
  (48 <=? nat_of_ascii c)%nat && (nat_of_ascii c <=? 57)%nat.

Definition digits_value (ds : list ascii) : Z :=
  fold_left (fun acc c => 10 * acc + Z.of_nat (nat_of_ascii c - 48))%Z ds 0%Z.

(** A JSON integer: no sign but [-], no leading zero. *)
Definition decode_int (l : list ascii) : option Z :=
  let ds := match l with
            | "-"%char :: r => r
            | _ => l
            end in
  let neg := match l with
             | "-"%char :: _ => true
             | _ => false
             end in
  match ds with
  | [] => None
  | "0"%char :: _ :: _ => None
  | _ => if forallb is_digit ds
         then Some (if neg then - digits_value ds else digits_value ds)%Z
         else None
  end.

(** [json.loads] on the texts the examples use: the literals, integers and
    the empty object and array, with surrounding white space.  Every other
    text is refused here; [json.loads] accepts more. *)
Definition json_loads_lite (s : string) : Result JSON :=
  let l := List.rev (skip_ws (List.rev (skip_ws (list_ascii_of_string s)))) in
  let refuse := Raise (mkExn "JSONDecodeError" "Expecting value") in
  match l with
  | "{"%char :: r =>
      match skip_ws r with
      | ["}"%char] => Ok (JObj [])
      | _ => refuse
      end
  | "["%char :: r =>
      match skip_ws r with
      | ["]"%char] => Ok (JArr [])
      | _ => refuse
      end
  | _ =>
      let t := string_of_list_ascii l in
      if String.eqb t "null" then Ok JNull
      else if String.eqb t "true" then Ok (JBool true)
      else if String.eqb t "false" then Ok (JBool false)
      else match decode_int l with
           | Some n => Ok (JNum n)
           | None => refuse
           end
  end.

(** A world whose transports, sessions and tool calls all succeed: every
    server but [unreachable] connects, every session lists [listing] and
    answers a tool call with the text ["ok"], and the model answers every
    call with the stream given for its provider. *)
Definition world
    (unreachable : string) (listing : list Tool)
    (openai_reply : Stream OpenAIChunk) (anthropic_reply : Stream AnthropicEvent) : Env :=
  mkEnv json_loads_lite
        (fun h _ => Ok (length h))
        (fun h url =>
           if String.eqb url unreachable
           then Raise (mkExn "ConnectError" "All connection attempts failed")
           else Ok (length h))
        (fun h _ => Ok (length h))
        (fun _ _ => Ok tt)
        (fun _ _ => Ok listing)
        (fun _ _ _ _ => Ok [Some "ok"])
        (fun _ _ => Ok tt)
        (fun _ _ => Ok openai_reply)
        (fun _ _ => Ok anthropic_reply).

Definition search_tool : Tool :=
  mkTool "search" (Some "Search the web")
    [ ("type", JStr "object");
      ("properties", JObj [ ("q", JObj [ ("type", JStr "string") ]) ]) ].

Definition lookup_tool : Tool :=
  mkTool "lookup" None [ ("type", JStr "object") ].

(** One chunk that asks for the tools named, with the arguments given. *)
Definition request_chunk (asked : list (string * string)) : OpenAIChunk :=
  mkOChunk
    [ mkDelta
        (Some (map (fun ia =>
                      mkTcd (Z.of_nat (fst ia)) None
                            (Some (mkFn (Some (fst (snd ia))) (Some (snd (snd ia))))))
                   (combine (seq 0 (length asked)) asked)))
        None ].

Definition always_search : Stream OpenAIChunk :=
  mkStream [ request_chunk [ ("search", "{}") ] ] None.

Definition demo_chat (turns : Z) (servers : list MCPServerModel) : MCPChat :=
  MCPChat_init "gpt-4o" [ JObj [ ("role", JStr "user"); ("content", JStr "hi") ] ]
    true turns None None None None (Some servers).

Definition server_a : MCPServerModel := mkServer "a" "https://a.example/sse".
Definition server_b : MCPServerModel := mkServer "b" "https://b.example/sse".

(** The model asks for [search] on every call. *)
Definition searching_world : Env :=
  world "" [search_tool] always_search (mkStream [] None).

(** As [searching_world], but server [b] cannot be reached. *)
Definition one_down_world : Env :=
  world (sse_url server_b) [search_tool] always_search (mkStream [] None).

(** The model asks for two tools; the arguments of the first are cut
    short. *)
Definition malformed_world : Env :=
  world "" [search_tool; lookup_tool]
    (mkStream [ request_chunk [ ("search", "{"); ("lookup", "{}") ] ] None)
    (mkStream [] None).

(** The model asks for a tool no server lists. *)
Definition missing_world : Env :=
  world "" [search_tool]
    (mkStream [ request_chunk [ ("missing", "{}") ] ] None)
    (mkStream [] None).

(** An [input_json_delta] with no [tool_use] block started before it. *)
Definition orphan_delta : AnthropicEvent :=
  mkAEvent (Some "content_block_delta") None
    (Some (mkBd (Some "input_json_delta") (Some "{"))).

Definition text_start : AnthropicEvent :=
  mkAEvent (Some "content_block_start") (Some (mkBlock "text" "" "")) None.

Definition orphan_world : Env :=
  world "" [search_tool] (mkStream [] None) (mkStream [ text_start; orphan_delta ] None).

(** A property whose [type] lists a list. *)
Definition nested_schema : dict :=
  [ ("properties",
     JObj [ ("x", JObj [ ("type", JArr [ JArr [ JStr "string"; JStr "integer" ] ]) ]) ]) ].

Definition nullable_schema : dict :=
  [ ("type", JStr "object");
    ("properties",
     JObj [ ("q", JObj [ ("type", JArr [ JStr "string"; JStr "null" ]);
                         ("default", JNull) ]);
            ("n", JObj [ ("type", JStr "integer") ]) ]);
    ("required", JArr [ JStr "q" ]) ].

(** An entry that has its name, and a later fragment with another name. *)
Definition named_acc : Acc :=
  mkAcc [ (0%Z, mkCall "call_0" "function" "search" "{") ] 1 None "".

Definition renaming_fragment : ToolCallDelta :=
  mkTcd 0 None (Some (mkFn (Some "lookup") (Some "}"))).

(** The state of a registry with two sessions. *)
Definition two_sessions : St :=
  set_sessions [ ("a", 1); ("b", 3) ] init_state.

(** One model call, no tool executed. *)
Definition single_call_no_tools (s : St) : Prop :=
  count_events is_model_call s = 1 /\ count_events is_tool_execution s = 0.

Definition invoked (tool_name : string) (s : St) : bool :=
  existsb (fun ev => match ev with
                     | EvCallTool _ tool _ => String.eqb tool tool_name
                     | _ => false
                     end) (trace s).

(** The tool [tool_name] is invoked and the run goes on to a follow-up
    call. *)
Definition others_proceed (tool_name : string) (s : St) : Prop :=
  invoked tool_name s = true /\ 2 <= count_events is_model_call s.

(** ** More of the client *)

(** *** Providers as the source names them *)

(** [c.lower()] on an ASCII letter; other bytes stay.  A provider string
    is compared with ["anthropic"] and ["openai"] after [lower()]; no
    letter outside ASCII lowers to a letter of those two words, so on the
    bytes of a string the comparison comes out as in Python. *)
Definition lower_char (c : ascii) : ascii :=
  let n := nat_of_ascii c in
  if (65 <=? n)%nat && (n <=? 90)%nat then ascii_of_nat (n + 32) else c.

Fixpoint py_lower (s : string) : string :=
  match s with
  | EmptyString => EmptyString
  | String c rest => String (lower_char c) (py_lower rest)
  end.

Definition ValueError (msg : string) : Exn := mkExn "ValueError" msg.
Definition RuntimeError (msg : string) : Exn := mkExn "RuntimeError" msg.

(** The provider a string stands for in [create_llm_chunk] and
    [format_tools_object_for_llm_call], which test for both names. *)
Definition provider_of (provider : string) : option Provider :=
  if String.eqb (py_lower provider) "anthropic" then Some Anthropic
  else if String.eqb (py_lower provider) "openai" then Some OpenAI
  else None.

(** chunks.py, [create_llm_chunk(chunk_type, content, provider)]. *)
Definition create_llm_chunk_str (chunk_type content provider : string) : Result Out :=
  if String.eqb (py_lower provider) "anthropic"
  then Ok (Custom Anthropic chunk_type content)
  else if String.eqb (py_lower provider) "openai"
  then Ok (Custom OpenAI chunk_type content)
  else Raise (ValueError ("Unsupported provider: " ++ provider)).

(** helper.py, [create_tool_result_message(tool_call_id, observation,
    provider)]: every provider but Anthropic gets the OpenAI message. *)
Definition create_tool_result_message_str
    (tool_call_id observation provider : string) : JSON :=
  if String.eqb (py_lower provider) "anthropic"
  then create_tool_result_message tool_call_id observation Anthropic
  else create_tool_result_message tool_call_id observation OpenAI.

(** helper.py, [format_tools_object_for_llm_call(tool_objects, provider)]:
    a provider that is neither gets an empty list. *)
Definition format_tools_object_for_llm_call_str
    (tool_objects : list Tool) (provider : string) : list Tool * Result (list JSON) :=
  if String.eqb (py_lower provider) "anthropic"
  then (tool_objects, Ok (map anthropic_tool tool_objects))
  else if String.eqb (py_lower provider) "openai"
  then format_openai_tools tool_objects
  else (tool_objects, Ok []).

(** *** streams.py: [CustomAsyncStream] *)

Definition StopAsyncIteration : Exn := mkExn "StopAsyncIteration" "".

(** [__anext__] of an async generator that has [items g] left to yield and
    then ends as [fault g] says: a generator that raised is finished, and
    one that raises [StopAsyncIteration] in its body has it replaced by a
    [RuntimeError]. *)
Definition generator_anext {C : Type} (g : Stream C) : Stream C * Result C :=
  match items g with
  | c :: rest => (mkStream rest (fault g), Ok c)
  | [] =>
      match fault g with
      | None => (g, Raise StopAsyncIteration)
      | Some e =>
          (mkStream [] None,
           Raise (if String.eqb (exn_class e) "StopAsyncIteration"
                  then RuntimeError "async generator raised StopAsyncIteration"
                  else e))
      end
  end.

(** [CustomAsyncStream.__anext__]: the stream holds the generator. *)
Definition CustomAsyncStream_anext {C : Type} (g : Stream C) : Stream C * Result C :=
  match generator_anext g with
  | (g', Raise e) =>
      if String.eqb (exn_class e) "StopAsyncIteration" then (g', Raise e)
      else if String.eqb (exn_class e) "IndexError"
      then (g', Raise (RuntimeError ("Index error in async stream: " ++ exn_str e)))
      else (g', Raise e)
  | r => r
  end.

(** [async for chunk in stream], for at most [n] steps: the chunks the
    loop body saw, the stream after it, and how the loop ended: [Ok true]
    when the stream stopped, [Ok false] when the steps ran out, [Raise e]
    when [__anext__] raised [e]. *)
Fixpoint async_for {C : Type} (n : nat) (g : Stream C) : list C * Stream C * Result bool :=
  match n with
  | 0 => ([], g, Ok false)
  | S n' =>
      match CustomAsyncStream_anext g with
      | (g', Ok c) =>
          let '(seen, g'', r) := async_for n' g' in (c :: seen, g'', r)
      | (g', Raise e) =>
          if String.eqb (exn_class e) "StopAsyncIteration"
          then ([], g', Ok true)
          else ([], g', Raise e)
      end
  end.

(** The generator a stream method is, run on a fresh processor. *)
Definition generator_of (m : M unit) : Stream Out :=
  mkStream (out (fst (m init_state)))
           (match snd (m init_state) with
            | Raise e => Some e
            | Ok _ => None
            end).

(** [MCPChat.create_openai_stream] and [MCPChat.create_anthropic_stream]. *)
Definition create_openai_stream {env : Env} (p : MCPChat) : Stream Out :=
  generator_of (process_openai_stream_chat p).

Definition create_anthropic_stream {env : Env} (p : MCPChat) : Stream Out :=
  generator_of (process_anthropic_stream_chat p).

(** *** chat.py: [process_openai_non_stream_chat] *)

(** A tool call of a complete response ([ChatCompletionMessageToolCall]). *)
Record MessageToolCall : Type := mkMsgCall {
  mtc_id : string;
  mtc_name : string;
  mtc_arguments : string
}.

(** [response.choices[i].message] *)
Record ChatCompletionMessage : Type := mkMessage {
  message_content : option string;
  message_tool_calls : option (list MessageToolCall)
}.

Record ChatCompletion : Type := mkCompletion {
  completion_choices : list ChatCompletionMessage
}.

(** What the non-streaming path asks of [self.client]:
    [chat.completions.create] without [stream], which answers with a
    complete response, and the attribute [manager], which the path uses
    for its tool calls; [None] is a client that has no such attribute.
    A call to the manager is not a call to a session of the registry and
    is not in the trace. *)
Class NonStreamClient : Type := mkNonStream {
  create_completion : list Event -> dict -> Result ChatCompletion;
  client_manager :
    option (list Event -> string -> JSON -> list (string * string)
            -> Result (option string))
}.

Definition UnboundLocalError (msg : string) : Exn := mkExn "UnboundLocalError" msg.

Section NonStream.
Context {env : Env} {client : NonStreamClient}.

Definition temperature_option (p : MCPChat) : dict :=
  match temperature p with
  | Some t => [("temperature", t)]
  | None => []
  end.

Definition non_stream_completion_params (p : MCPChat) (s : St) : dict :=
  [ ("model", JStr (model p));
    ("messages", JArr (chat_messages s));
    ("tools", JArr (tools s)) ] ++ temperature_option p.

Definition non_stream_follow_up_params (p : MCPChat) (s : St) : dict :=
  [ ("model", JStr (model p));
    ("messages", JArr (chat_messages s)) ] ++ temperature_option p.

(** Lines 300-309: [tool_calls[i]] for [i, tool_call in enumerate(...)]. *)
Fixpoint enumerate_tool_calls (i : nat) (calls : list MessageToolCall)
    : list (Z * ToolCall) :=
  match calls with
  | [] => []
  | call :: rest =>
      (Z.of_nat i, mkCall (mtc_id call) "function" (mtc_name call) (mtc_arguments call))
      :: enumerate_tool_calls (S i) rest
  end.

(** Lines 319-332. *)
Fixpoint non_stream_tools (calls : list ToolCall) : M unit :=
  match calls with
  | [] => ret tt
  | tool_call :: rest =>
      tool_args <- lift (json_loads (tc_arguments tool_call)) ;;
      observation <-
        match client_manager with
        | None => raise (AttributeError "object has no attribute 'manager'")
        | Some manager_call_tool =>
            tm <- gets tool_map ;;
            h <- gets trace ;;
            lift (manager_call_tool h (tc_name tool_call) tool_args tm)
        end ;;
      append_message
        (create_tool_result_message (tc_id tool_call) (py_str observation) OpenAI) ;;
      non_stream_tools rest
  end.

(** Lines 284-352, the body of the loop; every path through it returns. *)
Definition non_stream_turn (p : MCPChat) : M ChatCompletion :=
  completion_params <- gets (non_stream_completion_params p) ;;
  response <- await (EvCompletionsCreate completion_params)
                (fun h => create_completion h completion_params) ;;
  match completion_choices response with
  | [] => raise (IndexError "list index out of range")
  | choice :: _ =>
      match message_tool_calls choice with
      | Some (call :: calls) =>
          let tool_calls := enumerate_tool_calls 0 (call :: calls) in
          append_message
            (JObj [ ("role", JStr "assistant");
                    ("content", JNull);
                    ("tool_calls", JArr (convert_to_openai_tool_format tool_calls)) ]) ;;
          non_stream_tools (dict_values tool_calls) ;;
          follow_up_params <- gets (non_stream_follow_up_params p) ;;
          await (EvCompletionsCreate follow_up_params)
            (fun h => create_completion h follow_up_params)
      | _ =>
          append_message
            (JObj [ ("role", JStr "assistant");
                    ("content", opt_str (message_content choice)) ]) ;;
          ret response
      end
  end.

(** [for turn in range(n)]: the first turn returns; with no turn at all
    the [return response] after the loop reads a name never bound. *)
Definition non_stream_turns (p : MCPChat) (n : nat) : M ChatCompletion :=
  match n with
  | 0 => raise (UnboundLocalError
                  "cannot access local variable 'response' where it is not associated with a value")
  | S _ => non_stream_turn p
  end.

(** [process_openai_non_stream_chat()]; the handler logs and re-raises. *)
Definition process_openai_non_stream_chat (p : MCPChat) : M ChatCompletion :=
  try_ (setup_client p OpenAI ;; non_stream_turns p (Z.to_nat (max_turns p)))
       (fun e => raise e).
End NonStream.

(** *** client_manager.py: [MCPClient] *)

(** The attributes of an [MCPClient], and the calls it has made. *)
Record MCPClient : Type := mkClient {
  client_sse_url : option string;
  client_stdio_params : option dict;
  client_session : option Session;
  client_exit_stack : list Ctx;
  client_trace : list Event
}.

(** A dict that is neither [None] nor empty. *)
Definition truthy_dict (o : option dict) : option dict :=
  match o with
  | Some [] => None
  | _ => o
  end.

(** [MCPClient(sse_url, stdio_params)] *)
Definition MCPClient_init (sse_url : option string) (stdio_params : option dict)
    : Result MCPClient :=
  match truthy sse_url, truthy_dict stdio_params with
  | None, None => Raise (ValueError "Either sse_url or stdio_params must be provided")
  | _, _ => Ok (mkClient sse_url stdio_params None [] [])
  end.

Definition client_called (ev : Event) (c : MCPClient) : MCPClient :=
  mkClient (client_sse_url c) (client_stdio_params c) (client_session c)
           (client_exit_stack c) (client_trace c ++ [ev]).

Definition client_entered (ctx : Ctx) (c : MCPClient) : MCPClient :=
  mkClient (client_sse_url c) (client_stdio_params c) (client_session c)
           (ctx :: client_exit_stack c) (client_trace c).

Definition client_with_session (session : Session) (c : MCPClient) : MCPClient :=
  mkClient (client_sse_url c) (client_stdio_params c) (Some session)
           (client_exit_stack c) (client_trace c).

Definition client_with_stack (cs : list Ctx) (c : MCPClient) : MCPClient :=
  mkClient (client_sse_url c) (client_stdio_params c) (client_session c)
           cs (client_trace c).

Section SingleClient.
Context {env : Env}.

(** Lines 43-52: the transport, over SSE when [sse_url] is given. *)
Definition MCPClient_transport (c : MCPClient) : MCPClient * Result Transport :=
  match truthy (client_sse_url c) with
  | Some url =>
      match sse_client (client_trace c) url with
      | Ok t => (client_entered (CtxTransport t) (client_called (EvSseClient url) c), Ok t)
      | Raise e => (client_called (EvSseClient url) c, Raise e)
      end
  | None =>
      let params := match client_stdio_params c with
                    | Some d => JObj d
                    | None => JNull
                    end in
      match stdio_client (client_trace c) params with
      | Ok t => (client_entered (CtxTransport t) (client_called (EvStdioClient params) c), Ok t)
      | Raise e => (client_called (EvStdioClient params) c, Raise e)
      end
  end.

(** [MCPClient.initialize()]; the handler logs and re-raises.
    [self.session] is assigned before the session is initialized. *)
Definition MCPClient_initialize (c : MCPClient) : MCPClient * Result Session :=
  match MCPClient_transport c with
  | (c1, Raise e) => (c1, Raise e)
  | (c1, Ok t) =>
      let c2 := client_called (EvClientSession t) c1 in
      match ClientSession (client_trace c1) t with
      | Raise e => (c2, Raise e)
      | Ok session =>
          let c3 := client_with_session session (client_entered (CtxSession session) c2) in
          let c4 := client_called (EvSessionInitialize session) c3 in
          match session_initialize (client_trace c3) session with
          | Raise e => (c4, Raise e)
          | Ok _ => (c4, Ok session)
          end
      end
  end.

Definition not_initialized : Exn :=
  RuntimeError "Client not initialized. Call initialize() first.".

(** [MCPClient.list_tools()] *)
Definition MCPClient_list_tools (c : MCPClient) : MCPClient * Result (list Tool) :=
  match client_session c with
  | None => (c, Raise not_initialized)
  | Some session =>
      (client_called (EvListTools session) c, session_list_tools (client_trace c) session)
  end.

(** [MCPClient.call_tool(tool_name, arguments)] *)
Definition MCPClient_call_tool (tool_name : string) (arguments : JSON) (c : MCPClient)
    : MCPClient * Result string :=
  match client_session c with
  | None => (c, Raise not_initialized)
  | Some session =>
      (client_called (EvCallTool session tool_name arguments) c,
       match session_call_tool (client_trace c) session tool_name arguments with
       | Raise e => Raise e
       | Ok [] => Raise (IndexError "list index out of range")
       | Ok (Some text :: _) => Ok text
       | Ok (None :: _) => Raise (AttributeError "object has no attribute 'text'")
       end)
  end.

(** [MCPClient.close()], as [aclose] above. *)
Fixpoint MCPClient_aclose (cs : list Ctx) (pending : option Exn) (c : MCPClient)
    : MCPClient * Result unit :=
  match cs with
  | [] => (c, match pending with
              | Some e => Raise e
              | None => Ok tt
              end)
  | ctx :: rest =>
      let c1 := client_called (EvExit ctx) (client_with_stack rest c) in
      match ctx_exit (client_trace c) ctx with
      | Ok _ => MCPClient_aclose rest pending c1
      | Raise e => MCPClient_aclose rest (Some e) c1
      end
  end.

Definition MCPClient_close (c : MCPClient) : MCPClient * Result unit :=
  MCPClient_aclose (client_exit_stack c) None c.
End SingleClient.

(** *** What the further properties speak about *)

(** The tool object of that name that [list_tools()] comes to first: the
    first of that name in the first listing that has one. *)
Definition first_listed (listings : list (string * list Tool)) (tool_name : string)
    : option Tool :=
  match find (lists_tool tool_name) listings with
  | Some (_, listed) => find (fun tool => String.eqb (name tool) tool_name) listed
  | None => None
  end.

(** The entry of the consolidated list with that name. *)
Definition tool_named (tool_name : string) (consolidated : list Tool) : option Tool :=
  find (fun tool => String.eqb (name tool) tool_name) consolidated.

(** The fields of the processor other than the calls made. *)
Definition same_fields (s s' : St) : Prop :=
  sessions s' = sessions s /\ exit_stack s' = exit_stack s /\
  tool_map s' = tool_map s /\ tools s' = tools s /\
  chat_messages s' = chat_messages s /\ out s' = out s.

(** A call to a backend that is not a tool call: connecting, opening or
    initializing a session, listing tools, closing. *)
Definition is_registry_event (ev : Event) : bool :=
  match ev with
  | EvCallTool _ _ _ | EvCompletionsCreate _ | EvMessagesStream _ => false
  | _ => true
  end.

(** From [s] to [s'] the registry and the tool list were left alone:
    messages and chunks were only added, and the calls made were model
    calls and tool calls. *)
Definition steady (s s' : St) : Prop :=
  sessions s' = sessions s /\ exit_stack s' = exit_stack s /\
  tool_map s' = tool_map s /\ tools s' = tools s /\
  (exists ms, chat_messages s' = chat_messages s ++ ms) /\
  (exists os, out s' = out s ++ os) /\
  (exists evs, trace s' = trace s ++ evs /\
               forallb (fun ev => negb (is_registry_event ev)) evs = true).

(** A delta that carries one fragment of the arguments of the tool call
    [index], with the id it names, if any, and no name. *)
Definition argument_fragment (index : Z) (f : option string * string) : OpenAIChunk :=
  mkOChunk [ mkDelta (Some [ mkTcd index (fst f) (Some (mkFn None (Some (snd f)))) ]) None ].

(** Two backends configured under one name. *)
Definition server_a_again : MCPServerModel := mkServer "a" "https://a2.example/sse".

(** Every session lists two tools named [search]. *)
Definition search_shadow : Tool := mkTool "search" (Some "Another search") [].

Definition shadowing_world : Env :=
  world "" [search_tool; search_shadow] always_search (mkStream [] None).

(** What the OpenAI loop keeps true of its locals. *)
Definition openai_locals_ok (acc : Acc) : Prop :=
  tool_index acc = length (final_tool_calls acc) /\
  NoDup (dict_keys (final_tool_calls acc)) /\
  Forall (fun kv => tc_type (snd kv) = "function") (final_tool_calls acc) /\
  current_tool_index acc = None.

(** What the Anthropic loop keeps true of its locals. *)
Definition anthropic_locals_ok (acc : Acc) : Prop :=
  dict_keys (final_tool_calls acc) = map Z.of_nat (seq 0 (tool_index acc)) /\
  current_tool_index acc = match tool_index acc with
                           | 0 => None
                           | S n => Some n
                           end.

(** A [tool_use] block and a fragment of its input. *)
Definition tool_start (id tool_name : string) : AnthropicEvent :=
  mkAEvent (Some "content_block_start") (Some (mkBlock "tool_use" id tool_name)) None.

Definition json_delta (fragment : string) : AnthropicEvent :=
  mkAEvent (Some "content_block_delta") None
    (Some (mkBd (Some "input_json_delta") (Some fragment))).

(** The Anthropic model asks for two tools; the arguments of the second
    are cut short. *)
Definition anthropic_malformed_world : Env :=
  world "" [search_tool; lookup_tool] (mkStream [] None)
    (mkStream [ tool_start "t1" "search"; json_delta "{}";
                tool_start "t2" "lookup"; json_delta "{" ] None).

(** A chunk of text, and a model that answers with two of them. *)
Definition text_chunk (text : string) : OpenAIChunk :=
  mkOChunk [ mkDelta None (Some text) ].

Definition answering_world : Env :=
  world "" [search_tool]
    (mkStream [ text_chunk "Hel"; text_chunk "lo" ] None)
    (mkStream [ text_start ] None).

(** The message an OpenAI turn records for a response that is only text. *)
Definition text_message (content_buffer : string) : list JSON :=
  match content_buffer with
  | EmptyString => []
  | buf => [ JObj [ ("role", JStr "assistant"); ("content", JStr buf) ] ]
  end.

(** The exception an [async for] over a [CustomAsyncStream] ends with,
    for the exception its generator raised. *)
Definition stream_exception (e : Exn) : Exn :=
  if String.eqb (exn_class e) "StopAsyncIteration"
  then RuntimeError "async generator raised StopAsyncIteration"
  else if String.eqb (exn_class e) "IndexError"
  then RuntimeError ("Index error in async stream: " ++ exn_str e)
  else e.

(** A client that answers every request with one call of [search], and
    has no [manager]. *)
Definition asking_client : NonStreamClient :=
  mkNonStream
    (fun _ _ => Ok (mkCompletion [ mkMessage None (Some [ mkMsgCall "c1" "search" "{}" ]) ]))
    None.

(** The assistant message of the path without streaming. *)
Definition non_stream_assistant_message (calls : list MessageToolCall) : JSON :=
  JObj [ ("role", JStr "assistant");
         ("content", JNull);
         ("tool_calls",
          JArr (convert_to_openai_tool_format (enumerate_tool_calls 0 calls))) ].

(** A world in which every server connects and opens a session, and no
    session can be initialized. *)
Definition handshake_down_world : Env :=
  mkEnv json_loads_lite
        (fun h _ => Ok (length h))
        (fun h _ => Ok (length h))
        (fun h _ => Ok (length h))
        (fun _ _ => Raise (mkExn "McpError" "Connection closed"))
        (fun _ _ => Ok [search_tool])
        (fun _ _ _ _ => Ok [Some "ok"])
        (fun _ _ => Ok tt)
        (fun _ _ => Ok always_search)
        (fun _ _ => Ok (mkStream [] None)).

(** * Proofs *)

Unset Implicit Arguments.

(** ** Strings *)

Lemma append_nil_r : forall s : string, (s ++ "")%string = s.
Proof. induction s as [|c s IH]; simpl; [reflexivity | rewrite IH; reflexivity]. Qed.

Lemma append_assoc : forall a b c : string, ((a ++ b) ++ c = a ++ (b ++ c))%string.
Proof. induction a as [|x a IH]; intros b c; simpl; [reflexivity | rewrite IH; reflexivity]. Qed.

(** ** Dictionaries *)

Section PyDictFacts.
Variables K V : Type.
Variable keq : K -> K -> bool.
Hypothesis keq_spec : forall a b, keq a b = true <-> a = b.

Lemma keq_refl : forall a, keq a a = true.
Proof. intro a. apply keq_spec. reflexivity. Qed.

Lemma keq_neq : forall a b, a <> b -> keq a b = false.
Proof.
  intros a b Hab. destruct (keq a b) eqn:E; [|reflexivity].
  apply keq_spec in E. contradiction.
Qed.

Lemma dict_get_set_same :
  forall (d : list (K * V)) k v, dict_get keq (dict_set keq d k v) k = Some v.
Proof.
  induction d as [|[k' v'] d IH]; intros k v; simpl.
  - rewrite keq_refl. reflexivity.
  - destruct (keq k' k) eqn:E; simpl; rewrite E; auto.
Qed.

Lemma dict_get_set_other :
  forall (d : list (K * V)) k k' v,
    k <> k' -> dict_get keq (dict_set keq d k v) k' = dict_get keq d k'.
Proof.
  induction d as [|[k0 v0] d IH]; intros k k' v Hne; simpl.
  - rewrite (keq_neq _ _ Hne). reflexivity.
  - destruct (keq k0 k) eqn:E; simpl.
    + apply keq_spec in E. subst k0. rewrite (keq_neq _ _ Hne). reflexivity.
    + destruct (keq k0 k'); auto.
Qed.

Lemma dict_set_id :
  forall (d : list (K * V)) k v, dict_get keq d k = Some v -> dict_set keq d k v = d.
Proof.
  induction d as [|[k0 v0] d IH]; intros k v H; simpl in *.
  - discriminate.
  - destruct (keq k0 k) eqn:E.
    + congruence.
    + rewrite IH; auto.
Qed.

Lemma dict_set_absent :
  forall (d : list (K * V)) k v, dict_get keq d k = None -> dict_set keq d k v = d ++ [(k, v)].
Proof.
  induction d as [|[k0 v0] d IH]; intros k v H; simpl in *.
  - reflexivity.
  - destruct (keq k0 k) eqn:E; [discriminate|]. rewrite IH; auto.
Qed.

Lemma dict_get_del_same :
  forall (d : list (K * V)) k, dict_get keq (dict_del keq d k) k = None.
Proof.
  induction d as [|[k0 v0] d IH]; intros k; simpl; auto.
  destruct (keq k0 k) eqn:E; simpl; auto. rewrite E. auto.
Qed.

Lemma dict_get_del_other :
  forall (d : list (K * V)) k k',
    k <> k' -> dict_get keq (dict_del keq d k) k' = dict_get keq d k'.
Proof.
  induction d as [|[k0 v0] d IH]; intros k k' Hne; simpl; auto.
  destruct (keq k0 k) eqn:E; simpl.
  - apply keq_spec in E. subst k0. rewrite (keq_neq _ _ Hne). auto.
  - destruct (keq k0 k'); auto.
Qed.

Lemma dict_get_In_keys :
  forall (d : list (K * V)) k v, dict_get keq d k = Some v -> In k (dict_keys d).
Proof.
  induction d as [|[k0 v0] d IH]; intros k v H; simpl in *; [discriminate|].
  destruct (keq k0 k) eqn:E.
  - left. apply keq_spec. exact E.
  - right. eapply IH. exact H.
Qed.

Lemma dict_get_None_keys :
  forall (d : list (K * V)) k, dict_get keq d k = None <-> ~ In k (dict_keys d).
Proof.
  induction d as [|[k0 v0] d IH]; intros k; simpl.
  - tauto.
  - destruct (keq k0 k) eqn:E.
    + apply keq_spec in E. split; [discriminate|]. intros H. exfalso. auto.
    + rewrite IH. split.
      * intros H [H1|H1]; [|auto]. subst. rewrite keq_refl in E. discriminate.
      * intros H H1. apply H. auto.
Qed.

End PyDictFacts.

Lemma sget_sset_same : forall d k v, sget (sset d k v) k = Some v.
Proof. intros. apply dict_get_set_same. apply String.eqb_eq. Qed.

Lemma sget_sset_other : forall d k k' v, k <> k' -> sget (sset d k v) k' = sget d k'.
Proof. intros. apply dict_get_set_other; auto. apply String.eqb_eq. Qed.

Lemma sset_id : forall d k v, sget d k = Some v -> sset d k v = d.
Proof. intros. apply dict_set_id; auto. Qed.

Lemma sget_sdel_same : forall d k, sget (sdel d k) k = None.
Proof. intros. apply dict_get_del_same. Qed.

Lemma sget_sdel_other : forall d k k', k <> k' -> sget (sdel d k) k' = sget d k'.
Proof. intros. apply dict_get_del_other; auto. apply String.eqb_eq. Qed.

Lemma smem_sget : forall d k, smem d k = match sget d k with Some _ => true | None => false end.
Proof. reflexivity. Qed.

(** ** The schema normalizer *)

Lemma in_list_str_app :
  forall k xs ys, in_list_str k (xs ++ ys) = in_list_str k xs || in_list_str k ys.
Proof. intros. unfold in_list_str. apply existsb_app. Qed.

Lemma required_fold_keeps :
  forall keys req k,
    in_list_str k req = true ->
    in_list_str k (fold_left (fun r k => if in_list_str k r then r else r ++ [JStr k]) keys req) = true.
Proof.
  induction keys as [|k0 keys IH]; intros req k H; simpl; auto.
  apply IH. destruct (in_list_str k0 req); auto.
  rewrite in_list_str_app, H. reflexivity.
Qed.

Lemma required_fold_covers :
  forall keys req k,
    In k keys ->
    in_list_str k (fold_left (fun r k => if in_list_str k r then r else r ++ [JStr k]) keys req) = true.
Proof.
  induction keys as [|k0 keys IH]; intros req k H; simpl in *; [contradiction|].
  destruct H as [H|H].
  - subst k0. apply required_fold_keeps.
    destruct (in_list_str k req) eqn:E; auto.
    rewrite in_list_str_app. simpl. rewrite String.eqb_refl, orb_true_r. reflexivity.
  - apply IH. exact H.
Qed.

Lemma required_fold_fixed :
  forall keys req,
    (forall k, In k keys -> in_list_str k req = true) ->
    fold_left (fun r k => if in_list_str k r then r else r ++ [JStr k]) keys req = req.
Proof.
  induction keys as [|k0 keys IH]; intros req H; simpl; auto.
  rewrite (H k0) by (left; reflexivity). apply IH. intros k Hk. apply H. right. exact Hk.
Qed.

Lemma in_list_str_map_JStr :
  forall keys k, In k keys -> in_list_str k (map JStr keys) = true.
Proof.
  induction keys as [|k0 keys IH]; intros k H; simpl in *; [contradiction|].
  destruct H as [H|H].
  - subst. rewrite String.eqb_refl. reflexivity.
  - rewrite IH by exact H. apply orb_true_r.
Qed.

(** After [ensure_required], [required] is a list with every property key. *)
Lemma ensure_required_covers :
  forall s props,
    exists req,
      sget (ensure_required s props) "required" = Some (JArr req) /\
      forall k, In k (dict_keys props) -> in_list_str k req = true.
Proof.
  intros s props. unfold ensure_required.
  destruct (sget s "required") as [[| | | |req|]|] eqn:E;
    try (exists (map JStr (dict_keys props)); split;
         [apply sget_sset_same | apply in_list_str_map_JStr]).
  eexists. split; [apply sget_sset_same|].
  intros k Hk. apply required_fold_covers. exact Hk.
Qed.

Lemma ensure_required_fixed :
  forall s props req,
    sget s "required" = Some (JArr req) ->
    (forall k, In k (dict_keys props) -> in_list_str k req = true) ->
    ensure_required s props = s.
Proof.
  intros s props req H Hall. unfold ensure_required. rewrite H.
  rewrite required_fold_fixed by exact Hall. apply sset_id. exact H.
Qed.

Lemma collapse_type_idem :
  forall d d',
    flat_property (JObj d) = true ->
    collapse_type d = (d', None) ->
    collapse_type d' = (d', None) /\ sget d' "default" = sget d "default".
Proof.
  intros d d' Hflat H. unfold collapse_type in H. simpl in Hflat.
  destruct (sget d "type") as [[| | | |ts|]|] eqn:Et;
    try (inversion H; subst d'; unfold collapse_type; rewrite Et; auto).
  destruct (in_list_str "null" ts) eqn:En.
  - destruct (filter (fun t => negb (is_str "null" t)) ts) as [|t rest] eqn:Ef.
    + inversion H; subst d'. unfold collapse_type. rewrite Et, En, Ef. auto.
    + inversion H; subst d'. clear H.
      assert (Ht : In t ts).
      { assert (In t (t :: rest)) as Hi by (left; reflexivity).
        rewrite <- Ef in Hi. apply filter_In in Hi. tauto. }
      rewrite forallb_forall in Hflat. specialize (Hflat t Ht).
      split.
      * unfold collapse_type.
        rewrite sget_sset_other by discriminate. rewrite sget_sset_same.
        destruct t; try reflexivity. discriminate.
      * rewrite !sget_sset_other by discriminate. reflexivity.
  - destruct ts as [|t rest]; [discriminate|].
    inversion H; subst d'. clear H.
    simpl in Hflat. apply andb_true_iff in Hflat. destruct Hflat as [Ht _].
    split.
    + unfold collapse_type. rewrite sget_sset_same.
      destruct t; try reflexivity. discriminate.
    + rewrite sget_sset_other by discriminate. reflexivity.
Qed.

Lemma filter_property_idem :
  forall v v',
    flat_property v = true ->
    filter_property v = (v', None) ->
    filter_property v' = (v', None).
Proof.
  intros v v' Hflat H. destruct v as [| | | s | xs | d]; simpl in H.
  - discriminate.
  - discriminate.
  - discriminate.
  - destruct (is_substring "default" s) eqn:E1; [discriminate|].
    destruct (is_substring "type" s) eqn:E2; [discriminate|].
    inversion H; subst v'. simpl. rewrite E1, E2. reflexivity.
  - destruct (in_list_str "default" xs) eqn:E1; [discriminate|].
    destruct (in_list_str "type" xs) eqn:E2; [discriminate|].
    inversion H; subst v'. simpl. rewrite E1, E2. reflexivity.
  - set (d1 := if smem d "default" then sdel d "default" else d) in *.
    assert (Hd1 : sget d1 "default" = None).
    { unfold d1. rewrite smem_sget. destruct (sget d "default") eqn:E.
      - apply sget_sdel_same.
      - exact E. }
    assert (Ht1 : sget d1 "type" = sget d "type").
    { unfold d1. destruct (smem d "default"); auto.
      apply sget_sdel_other. discriminate. }
    assert (Hflat1 : flat_property (JObj d1) = true).
    { simpl in *. rewrite Ht1. exact Hflat. }
    destruct (collapse_type d1) as [d2 e] eqn:Ec.
    inversion H; subst v' e. clear H.
    destruct (collapse_type_idem _ _ Hflat1 Ec) as [Hc Hdef].
    simpl. rewrite smem_sget, Hdef, Hd1, Hc. reflexivity.
Qed.

Lemma filter_properties_idem :
  forall props props',
    forallb (fun kv => flat_property (snd kv)) props = true ->
    filter_properties props = (props', None) ->
    filter_properties props' = (props', None) /\ dict_keys props' = dict_keys props.
Proof.
  induction props as [|[k v] props IH]; intros props' Hflat H; simpl in *.
  - inversion H; subst. auto.
  - apply andb_true_iff in Hflat. destruct Hflat as [Hv Hrest].
    destruct (filter_property v) as [v' e] eqn:Ev.
    destruct e as [ex|]; [discriminate|].
    destruct (filter_properties props) as [rest' e'] eqn:Er.
    inversion H; subst props' e'. clear H.
    destruct (IH rest' Hrest eq_refl) as [IH1 IH2].
    simpl. rewrite (filter_property_idem _ _ Hv Ev), IH1, IH2. auto.
Qed.

Lemma filter_twice_flat :
  forall s : dict,
    flat_types s = true ->
    filter_twice s = filter_mcp_input_schema s.
Proof.
  intros s Hflat. unfold filter_twice.
  destruct (filter_mcp_input_schema s) as [s' [ex|]] eqn:E1; [reflexivity|].
  unfold filter_mcp_input_schema in E1. unfold flat_types in Hflat.
  destruct (sget s "properties") as [[| | | | |props]|] eqn:Ep; try discriminate.
  2:{ inversion E1; subst s'. unfold filter_mcp_input_schema. rewrite Ep. reflexivity. }
  destruct (filter_properties props) as [props' e] eqn:Ef.
  destruct e as [ex|]; [discriminate|].
  destruct (filter_properties_idem _ _ Hflat Ef) as [Hidem Hkeys].
  destruct (ensure_required_covers s props) as [req [Hreq Hcov]].
  set (s2 := sset (ensure_required s props) "properties" (JObj props')) in *.
  assert (Hp2 : sget s2 "properties" = Some (JObj props')) by apply sget_sset_same.
  assert (Hr2 : sget s2 "required" = Some (JArr req)).
  { unfold s2. rewrite sget_sset_other by discriminate. exact Hreq. }
  assert (Hgoal : forall t,
             sget t "properties" = Some (JObj props') ->
             sget t "required" = Some (JArr req) ->
             smem t "additionalProperties" = true ->
             filter_mcp_input_schema t = (t, None)).
  { intros t Htp Htr Hta. unfold filter_mcp_input_schema. rewrite Htp, Hidem.
    rewrite (ensure_required_fixed t props' req Htr) by (rewrite Hkeys; exact Hcov).
    rewrite (sset_id _ _ _ Htp), Hta. reflexivity. }
  destruct (smem s2 "additionalProperties") eqn:Ea; inversion E1; subst s'.
  - apply Hgoal; auto.
  - apply Hgoal.
    + rewrite sget_sset_other by discriminate. exact Hp2.
    + rewrite sget_sset_other by discriminate. exact Hr2.
    + rewrite smem_sget, sget_sset_same. reflexivity.
Qed.

(** ** Formatting the tool list *)

Lemma format_openai_tools_ok :
  forall tool_objects tools' formatted,
    format_openai_tools tool_objects = (tools', Ok formatted) ->
    tools' = map normalized tool_objects /\
    formatted = map (fun tool => openai_tool tool (inputSchema (normalized tool))) tool_objects.
Proof.
  induction tool_objects as [|tool rest IH]; intros tools' formatted H; simpl in H.
  - inversion H; subst. auto.
  - destruct (filter_mcp_input_schema (inputSchema tool)) as [schema [ex|]] eqn:Ef;
      [inversion H|].
    assert (Hn : normalized tool = mkTool (name tool) (description tool) schema)
      by (unfold normalized; rewrite Ef; reflexivity).
    destruct (format_openai_tools rest) as [rest' [l|ex]] eqn:Er; inversion H; subst.
    destruct (IH rest' l eq_refl) as [IH1 IH2].
    subst rest' l. simpl. rewrite Hn, Ef. simpl. auto.
Qed.

(** ** Reassembly of OpenAI tool calls *)

Lemma zget_zset_same :
  forall (d : list (Z * ToolCall)) k v, dict_get Z.eqb (dict_set Z.eqb d k v) k = Some v.
Proof. intros. apply dict_get_set_same. apply Z.eqb_eq. Qed.

Lemma zget_zset_other :
  forall (d : list (Z * ToolCall)) k k' v,
    k <> k' -> dict_get Z.eqb (dict_set Z.eqb d k v) k' = dict_get Z.eqb d k'.
Proof. intros. apply dict_get_set_other; auto. apply Z.eqb_eq. Qed.

(** What a fragment does to the entry it is for. *)
Lemma absorb_tool_call_existing :
  forall acc tool_call fn entry,
    tcd_function tool_call = Some fn ->
    dict_get Z.eqb (final_tool_calls acc) (tcd_index tool_call) = Some entry ->
    snd (absorb_tool_call acc tool_call) = None /\
    dict_get Z.eqb (final_tool_calls (fst (absorb_tool_call acc tool_call)))
             (tcd_index tool_call)
    = Some (mkCall (tc_id entry) (tc_type entry)
                   (last_name_wins (tc_name entry) (fn_name fn))
                   (tc_arguments entry ++ or_else (fn_arguments fn) "")%string).
Proof.
  intros acc tool_call fn entry Hfn Hget.
  unfold absorb_tool_call. rewrite Hget, Hfn. simpl. split; [reflexivity|].
  rewrite zget_zset_same. f_equal.
  unfold last_name_wins, or_else.
  destruct (truthy (fn_name fn)); destruct (truthy (fn_arguments fn)); simpl;
    try reflexivity; destruct entry; simpl; rewrite ?append_nil_r; reflexivity.
Qed.

(** A fragment leaves the entries of the other indices alone. *)
Lemma absorb_tool_call_others :
  forall acc tool_call j,
    j <> tcd_index tool_call ->
    dict_get Z.eqb (final_tool_calls (fst (absorb_tool_call acc tool_call))) j
    = dict_get Z.eqb (final_tool_calls acc) j.
Proof.
  intros acc tool_call j Hj. unfold absorb_tool_call.
  destruct (dict_get Z.eqb (final_tool_calls acc) (tcd_index tool_call));
    destruct (tcd_function tool_call); simpl; auto;
    apply zget_zset_other; congruence.
Qed.

(** One fragment: an entry stays, with its id, and its arguments grow at
    the end. *)
Lemma absorb_tool_call_grows :
  forall acc tool_call j entry,
    dict_get Z.eqb (final_tool_calls acc) j = Some entry ->
    exists entry' suffix,
      dict_get Z.eqb (final_tool_calls (fst (absorb_tool_call acc tool_call))) j = Some entry' /\
      tc_id entry' = tc_id entry /\
      tc_arguments entry' = (tc_arguments entry ++ suffix)%string.
Proof.
  intros acc tool_call j entry Hget.
  destruct (Z.eq_dec j (tcd_index tool_call)) as [->|Hne].
  - destruct (tcd_function tool_call) as [fn|] eqn:Hfn.
    + destruct (absorb_tool_call_existing acc tool_call fn entry Hfn Hget) as [_ H].
      eexists. eexists. split; [exact H|]. simpl. auto.
    + exists entry, "". unfold absorb_tool_call. rewrite Hget, Hfn. simpl.
      rewrite append_nil_r. auto.
  - exists entry, "". rewrite absorb_tool_call_others by exact Hne.
    rewrite append_nil_r. auto.
Qed.

Lemma absorb_tool_calls_grows :
  forall tool_calls acc j entry,
    dict_get Z.eqb (final_tool_calls acc) j = Some entry ->
    exists entry' suffix,
      dict_get Z.eqb (final_tool_calls (fst (absorb_tool_calls acc tool_calls))) j = Some entry' /\
      tc_id entry' = tc_id entry /\
      tc_arguments entry' = (tc_arguments entry ++ suffix)%string.
Proof.
  induction tool_calls as [|tool_call rest IH]; intros acc j entry Hget; simpl.
  - exists entry, "". rewrite append_nil_r. auto.
  - destruct (absorb_tool_call_grows acc tool_call j entry Hget) as (e1 & s1 & H1 & Hid1 & Ha1).
    destruct (absorb_tool_call acc tool_call) as [acc1 [ex|]]; simpl in *.
    + exists e1, s1. auto.
    + destruct (IH acc1 j e1 H1) as (e2 & s2 & H2 & Hid2 & Ha2).
      exists e2, (s1 ++ s2)%string. split; [exact H2|]. split; [congruence|].
      rewrite Ha2, Ha1. apply append_assoc.
Qed.

Lemma absorb_openai_chunk_grows :
  forall chunk acc j entry,
    dict_get Z.eqb (final_tool_calls acc) j = Some entry ->
    exists entry' suffix,
      dict_get Z.eqb (final_tool_calls (fst (absorb_openai_chunk acc chunk))) j = Some entry' /\
      tc_id entry' = tc_id entry /\
      tc_arguments entry' = (tc_arguments entry ++ suffix)%string.
Proof.
  intros chunk acc j entry Hget. unfold absorb_openai_chunk.
  destruct (choices chunk) as [|delta rest].
  - exists entry, "". rewrite append_nil_r. auto.
  - destruct (delta_tool_calls delta) as [tool_calls|].
    + destruct (absorb_tool_calls_grows tool_calls acc j entry Hget) as (e1 & s1 & H1 & Hid1 & Ha1).
      destruct (absorb_tool_calls acc tool_calls) as [acc1 [ex|]]; simpl in *.
      * exists e1, s1. auto.
      * exists e1, s1. destruct (truthy (delta_content delta)); simpl; auto.
    + exists entry, "". rewrite append_nil_r.
      destruct (truthy (delta_content delta)); simpl; auto.
Qed.

Lemma openai_acc_grows :
  forall chunks acc j entry,
    dict_get Z.eqb (final_tool_calls acc) j = Some entry ->
    exists entry' suffix,
      dict_get Z.eqb (final_tool_calls (openai_acc chunks acc)) j = Some entry' /\
      tc_id entry' = tc_id entry /\
      tc_arguments entry' = (tc_arguments entry ++ suffix)%string.
Proof.
  unfold openai_acc.
  induction chunks as [|chunk rest IH]; intros acc j entry Hget; simpl.
  - exists entry, "". rewrite append_nil_r. auto.
  - destruct (absorb_openai_chunk_grows chunk acc j entry Hget) as (e1 & s1 & H1 & Hid1 & Ha1).
    destruct (IH _ j e1 H1) as (e2 & s2 & H2 & Hid2 & Ha2).
    exists e2, (s1 ++ s2)%string. split; [exact H2|]. split; [congruence|].
    rewrite Ha2, Ha1. apply append_assoc.
Qed.

(** ** Reassembly of Anthropic tool calls *)

Lemma absorb_orphan_delta :
  forall acc chunk,
    is_input_json_delta chunk = true ->
    current_tool_index acc = None ->
    absorb_anthropic_chunk acc chunk = (acc, None).
Proof.
  intros acc chunk Hd Hcur. unfold is_input_json_delta in Hd.
  unfold absorb_anthropic_chunk.
  destruct (ev_type chunk) as [ty|]; [|discriminate].
  destruct (ev_delta chunk) as [d|]; [|discriminate].
  apply andb_true_iff in Hd. destruct Hd as [Hty Hdty].
  apply String.eqb_eq in Hty. subst ty. simpl.
  destruct (bd_type d) as [dty|]; [|discriminate].
  rewrite Hdty, Hcur. reflexivity.
Qed.

Lemma absorb_keeps_closed :
  forall acc chunk,
    opens_tool chunk = false ->
    current_tool_index acc = None ->
    current_tool_index (fst (absorb_anthropic_chunk acc chunk)) = None /\
    final_tool_calls (fst (absorb_anthropic_chunk acc chunk)) = final_tool_calls acc.
Proof.
  intros acc chunk Hopen Hcur. unfold opens_tool in Hopen.
  unfold absorb_anthropic_chunk.
  destruct (ev_type chunk) as [ty|]; simpl; auto.
  destruct (String.eqb ty "content_block_start") eqn:E1.
  - destruct (ev_content_block chunk) as [block|]; simpl; auto.
    simpl in Hopen. rewrite Hopen. simpl. auto.
  - destruct (String.eqb ty "content_block_delta"); simpl; auto.
    destruct (ev_delta chunk) as [d|]; simpl; auto.
    destruct (bd_type d) as [dty|]; simpl; auto.
    destruct (String.eqb dty "input_json_delta"); simpl; auto.
    rewrite Hcur. simpl. auto.
Qed.

Lemma anthropic_acc_closed :
  forall chunks acc,
    forallb (fun chunk => negb (opens_tool chunk)) chunks = true ->
    current_tool_index acc = None ->
    current_tool_index (anthropic_acc chunks acc) = None /\
    final_tool_calls (anthropic_acc chunks acc) = final_tool_calls acc.
Proof.
  unfold anthropic_acc.
  induction chunks as [|chunk rest IH]; intros acc Hall Hcur; simpl in *; auto.
  apply andb_true_iff in Hall. destruct Hall as [Hc Hrest].
  apply negb_true_iff in Hc.
  destruct (absorb_keeps_closed acc chunk Hc Hcur) as [H1 H2].
  destruct (IH _ Hrest H1) as [H3 H4]. split; congruence.
Qed.

(** ** The monad *)

Lemma bind_assoc :
  forall (A B C : Type) (m : M A) (f : A -> M B) (g : B -> M C) s,
    bind (bind m f) g s = bind m (fun x => bind (f x) g) s.
Proof.
  intros. unfold bind. destruct (m s) as [s1 [x|e]]; reflexivity.
Qed.

Lemma bind_cong :
  forall (A B : Type) (m : M A) (f g : A -> M B) s,
    (forall x s', f x s' = g x s') -> bind m f s = bind m g s.
Proof.
  intros A B m f g s H. unfold bind. destruct (m s) as [s1 [x|e]]; auto.
Qed.

Lemma bind_ok :
  forall (A B : Type) (m : M A) (f : A -> M B) s s1 x,
    m s = (s1, Ok x) -> bind m f s = f x s1.
Proof. intros A B m f s s1 x H. unfold bind. rewrite H. reflexivity. Qed.

Lemma bind_raise :
  forall (A B : Type) (m : M A) (f : A -> M B) s s1 e,
    m s = (s1, Raise e) -> bind m f s = (s1, Raise e).
Proof. intros A B m f s s1 e H. unfold bind. rewrite H. reflexivity. Qed.

(** Unfold the monad in a hypothesis, and split on the results in it. *)
Ltac run_in H :=
  repeat (unfold bind, try_, enter_async_context, open_session, await, modify,
            gets, lift, ret, raise in H;
          cbn beta iota delta [fst snd] in H).

Ltac case_result H :=
  match type of H with
  | context [match ?r with Ok _ => _ | Raise _ => _ end] =>
      let E := fresh "E" in destruct r eqn:E; cbn beta iota in H
  end.

(** ** Relating the state before and after a computation *)

Section Within.
(** [R k s s']: a relation with a budget [k]. *)
Variable R : nat -> St -> St -> Prop.
Hypothesis R_refl : forall k s, R k s s.
Hypothesis R_trans : forall a b s1 s2 s3, R a s1 s2 -> R b s2 s3 -> R (a + b) s1 s3.

Definition within (k : nat) {A : Type} (m : M A) : Prop :=
  forall s, R k s (fst (m s)).

Lemma within_ret : forall (A : Type) (a : A) k, within k (ret a).
Proof. intros A a k s. apply R_refl. Qed.

Lemma within_raise : forall (A : Type) e k, within k (@raise A e).
Proof. intros A e k s. apply R_refl. Qed.

Lemma within_lift : forall (A : Type) (r : Result A) k, within k (lift r).
Proof. intros A r k s. apply R_refl. Qed.

Lemma within_gets : forall (A : Type) (f : St -> A) k, within k (gets f).
Proof. intros A f k s. apply R_refl. Qed.

Lemma within_modify :
  forall (f : St -> St) k, (forall s, R k s (f s)) -> within k (modify f).
Proof. intros f k H s. apply H. Qed.

Lemma within_await :
  forall (A : Type) ev (f : list Event -> Result A) k,
    (forall s, R k s (set_trace (trace s ++ [ev]) s)) -> within k (await ev f).
Proof. intros A ev f k H s. apply H. Qed.

Lemma within_bind :
  forall (A B : Type) (m : M A) (f : A -> M B) a b,
    within a m -> (forall x, within b (f x)) -> within (a + b) (bind m f).
Proof.
  intros A B m f a b Hm Hf s. unfold bind.
  specialize (Hm s). destruct (m s) as [s1 [x|e]]; simpl in *.
  - eapply R_trans; [exact Hm | apply Hf].
  - eapply R_trans; [exact Hm | apply R_refl].
Qed.

Lemma within_try :
  forall (A : Type) (m : M A) (h : Exn -> M A) a b,
    within a m -> (forall e, within b (h e)) -> within (a + b) (try_ m h).
Proof.
  intros A m h a b Hm Hh s. unfold try_.
  specialize (Hm s). destruct (m s) as [s1 [x|e]]; simpl in *.
  - eapply R_trans; [exact Hm | apply R_refl].
  - eapply R_trans; [exact Hm | apply Hh].
Qed.
End Within.

Lemma count_events_app :
forall f s s' evs,
  trace s' = trace s ++ evs ->
  count_events f s' = count_events f s + length (filter f evs).
Proof.
intros f s s' evs H. unfold count_events. rewrite H, filter_app, length_app. reflexivity.
Qed.

Lemma adds_refl : forall f k s, adds f k s s.
Proof. intros. exists []. rewrite app_nil_r. simpl. split; [reflexivity | lia]. Qed.

Lemma adds_trans :
forall f a b s1 s2 s3, adds f a s1 s2 -> adds f b s2 s3 -> adds f (a + b) s1 s3.
Proof.
intros f a b s1 s2 s3 [e1 [H1 L1]] [e2 [H2 L2]]. exists (e1 ++ e2).
rewrite H2, H1, app_assoc, filter_app, length_app. split; [reflexivity | lia].
Qed.

Lemma adds_count :
forall f k s s', adds f k s s' -> count_events f s' <= count_events f s + k.
Proof.
intros f k s s' [evs [H L]]. rewrite (count_events_app f s s' evs H). lia.
Qed.

Lemma adds_none :
forall f s s', adds f 0 s s' -> count_events f s' = count_events f s.
Proof.
intros f s s' [evs [H L]]. rewrite (count_events_app f s s' evs H). lia.
Qed.

Lemma adds_weaken :
forall f (A : Type) (m : M A) a b,
  a <= b -> within (adds f) a m -> within (adds f) b m.
Proof.
intros f A m a b Hab H s. destruct (H s) as [evs [H1 H2]].
exists evs. split; [exact H1 | lia].
Qed.

Lemma adds_bind :
forall f (A B : Type) (m : M A) (g : A -> M B) a b k,
  within (adds f) a m -> (forall x, within (adds f) b (g x)) -> a + b <= k ->
  within (adds f) k (bind m g).
Proof.
intros f A B m g a b k Hm Hg Hk. apply adds_weaken with (a := a + b); [exact Hk|].
apply within_bind; [apply adds_refl | apply adds_trans | exact Hm | exact Hg].
Qed.

Lemma adds_try :
forall f (A : Type) (m : M A) (h : Exn -> M A) a b k,
  within (adds f) a m -> (forall e, within (adds f) b (h e)) -> a + b <= k ->
  within (adds f) k (try_ m h).
Proof.
intros f A m h a b k Hm Hh Hk. apply adds_weaken with (a := a + b); [exact Hk|].
apply within_try; [apply adds_refl | apply adds_trans | exact Hm | exact Hh].
Qed.

Lemma adds_await :
forall f (A : Type) ev (g : list Event -> Result A),
  within (adds f) (if f ev then 1 else 0) (await ev g).
Proof.
intros f A ev g s. exists [ev]. split; [reflexivity|]. simpl. destruct (f ev); simpl; lia.
Qed.

Lemma adds_modify :
forall f (g : St -> St) k,
  (forall s, trace (g s) = trace s) -> within (adds f) k (modify g).
Proof.
intros f g k H s. exists []. simpl. rewrite H, app_nil_r. split; [reflexivity | lia].
Qed.

Lemma adds_yield : forall f o k, within (adds f) k (yield o).
Proof. intros. apply adds_modify. reflexivity. Qed.

Lemma adds_append_message : forall f m k, within (adds f) k (append_message m).
Proof. intros. apply adds_modify. reflexivity. Qed.

Lemma adds_ret : forall f (A : Type) (a : A) k, within (adds f) k (ret a).
Proof. intros. apply within_ret. apply adds_refl. Qed.

Lemma adds_raise : forall f (A : Type) e k, within (adds f) k (@raise A e).
Proof. intros. apply within_raise. apply adds_refl. Qed.

Lemma adds_lift : forall f (A : Type) (r : Result A) k, within (adds f) k (lift r).
Proof. intros. apply within_lift. apply adds_refl. Qed.

Lemma adds_gets : forall f (A : Type) (g : St -> A) k, within (adds f) k (gets g).
Proof. intros. apply within_gets. apply adds_refl. Qed.

(** ** The session registry *)

Section Registry.
Context {env : Env}.

(** *** [list_tools] *)

Lemma register_tools_consistent :
  forall server_name listed acc,
    consistent acc -> consistent (register_tools server_name listed acc).
Proof.
  induction listed as [|tool rest IH]; intros [tm ct] Hacc; simpl; auto.
  unfold dict_mem.
  destruct (dict_get String.eqb tm (name tool)) eqn:E.
  - apply IH. exact Hacc.
  - apply IH. destruct Hacc as [Hn Hd]. unfold consistent in *. simpl in *.
    rewrite (dict_set_absent _ _ String.eqb tm (name tool) server_name E).
    unfold dict_keys in *. rewrite !map_app, Hn. simpl. split; [reflexivity|].
    apply NoDup_app; [exact Hd | repeat constructor; simpl; tauto |].
    intros x Hx [Hx'|[]]. subst x.
    apply (dict_get_None_keys _ _ String.eqb String.eqb_eq) in E. apply E. exact Hx.
Qed.

Lemma register_tools_get :
  forall server_name listed tm ct tool_name,
    dict_get String.eqb (fst (register_tools server_name listed (tm, ct))) tool_name
    = match dict_get String.eqb tm tool_name with
      | Some owner => Some owner
      | None => if lists_tool tool_name (server_name, listed)
                then Some server_name else None
      end.
Proof.
  unfold lists_tool. simpl.
  induction listed as [|tool rest IH]; intros tm ct tool_name; simpl.
  - destruct (dict_get String.eqb tm tool_name); reflexivity.
  - unfold dict_mem. destruct (dict_get String.eqb tm (name tool)) eqn:E.
    + rewrite IH. destruct (dict_get String.eqb tm tool_name) eqn:E2; auto.
      destruct (String.eqb (name tool) tool_name) eqn:E3; auto.
      apply String.eqb_eq in E3. congruence.
    + rewrite IH. destruct (String.eqb (name tool) tool_name) eqn:E3.
      * apply String.eqb_eq in E3. subst tool_name.
        rewrite (dict_get_set_same _ _ String.eqb String.eqb_eq tm (name tool) server_name).
        rewrite E. reflexivity.
      * rewrite (dict_get_set_other _ _ String.eqb String.eqb_eq tm (name tool) tool_name server_name).
        -- reflexivity.
        -- intros Heq. rewrite Heq, String.eqb_refl in E3. discriminate.
Qed.

Lemma register_all_get :
  forall ls acc tool_name,
    dict_get String.eqb (fst (register_all ls acc)) tool_name
    = match dict_get String.eqb (fst acc) tool_name with
      | Some owner => Some owner
      | None => first_owner ls tool_name
      end.
Proof.
  unfold register_all, first_owner.
  induction ls as [|[srv listed] ls IH]; intros [tm ct] tool_name; simpl.
  - destruct (dict_get String.eqb tm tool_name); reflexivity.
  - rewrite IH, register_tools_get.
    destruct (dict_get String.eqb tm tool_name); auto.
    destruct (lists_tool tool_name (srv, listed)); reflexivity.
Qed.

Lemma register_all_consistent :
  forall ls acc, consistent acc -> consistent (register_all ls acc).
Proof.
  unfold register_all.
  induction ls as [|[srv listed] ls IH]; intros acc H; simpl; auto.
  apply IH. apply register_tools_consistent. exact H.
Qed.

(** [list_tools()] asks the sessions in order and registers what each
    answers. *)
Lemma list_tools_from_listings :
  forall ss acc s ls,
    listings_of ss (trace s) = Ok ls ->
    map fst ls = map fst ss /\
    exists s', list_tools_from ss acc s = (s', Ok (register_all ls acc)).
Proof.
  induction ss as [|[srv session] ss IH]; intros acc s ls H; simpl in H.
  - inversion H; subst. split; [reflexivity|]. exists s. reflexivity.
  - destruct (session_list_tools (trace s) session) as [listed|e] eqn:El; [|discriminate].
    destruct (listings_of ss (trace s ++ [EvListTools session])) as [ls'|e] eqn:Er;
      [|discriminate].
    inversion H; subst ls. clear H.
    destruct (IH (register_tools srv listed acc)
                 (set_trace (trace s ++ [EvListTools session]) s) ls' Er) as [Hn [s' Hs']].
    split; [simpl; f_equal; exact Hn|].
    exists s'. simpl. unfold bind, await. rewrite El. exact Hs'.
Qed.

Lemma list_tools_from_consistent :
  forall ss acc s s' r,
    consistent acc -> list_tools_from ss acc s = (s', Ok r) -> consistent r.
Proof.
  induction ss as [|[srv session] ss IH]; intros acc s s' r Hacc H; simpl in H.
  - inversion H; subst. exact Hacc.
  - unfold bind, await in H.
    destruct (session_list_tools (trace s) session) as [listed|e]; [|discriminate].
    eapply IH; [|exact H]. apply register_tools_consistent. exact Hacc.
Qed.
End Registry.

(** *** [initialize] and [close] *)

Lemma nothing_closed_refl : forall (k : nat) s, nothing_closed s s.
Proof.
  intros k s. repeat split; auto. exists []. reflexivity.
Qed.

Lemma nothing_closed_trans :
  forall (a b : nat) s1 s2 s3,
    nothing_closed s1 s2 -> nothing_closed s2 s3 -> nothing_closed s1 s3.
Proof.
  intros a b s1 s2 s3 [[o1 H1] [H2 H3]] [[o2 H4] [H5 H6]]. repeat split.
  - exists (o2 ++ o1). rewrite H4, H1. apply app_assoc.
  - lia.
  - auto.
Qed.

Section Initialize.
Context {env : Env}.

Abbreviation stays m := (within (fun _ : nat => nothing_closed) 0 m).

Lemma stays_bind :
  forall (A B : Type) (m : M A) (f : A -> M B),
    stays m -> (forall x, stays (f x)) -> stays (bind m f).
Proof.
  intros A B m f Hm Hf.
  exact (@within_bind (fun _ : nat => nothing_closed)
         nothing_closed_refl nothing_closed_trans A B m f 0 0 Hm Hf).
Qed.

Lemma stays_await_enter :
  forall (A : Type) ev (f : list Event -> Result A),
    is_exit ev = false -> stays (await ev f).
Proof.
  intros A ev f Hev s. unfold await. simpl. repeat split; simpl; auto.
  - exists []. reflexivity.
  - unfold count_events. simpl. rewrite filter_app, length_app. simpl. rewrite Hev. simpl. lia.
Qed.

Lemma stays_push : forall c, stays (modify (fun s => set_exit_stack (c :: exit_stack s) s)).
Proof.
  intros c s. simpl. repeat split; simpl; auto. exists [c]. reflexivity.
Qed.

Lemma stays_register :
  forall server_name session,
    stays (modify (fun s => set_sessions
                              (dict_set String.eqb (sessions s) server_name session) s)).
Proof.
  intros server_name session s. simpl. repeat split; simpl; auto.
  - exists []. reflexivity.
  - intros n. unfold dict_mem.
    destruct (String.eqb server_name n) eqn:E.
    + apply String.eqb_eq in E. subst n.
      rewrite (dict_get_set_same _ _ String.eqb String.eqb_eq). reflexivity.
    + rewrite (dict_get_set_other _ _ String.eqb String.eqb_eq); auto.
      intros ->. rewrite String.eqb_refl in E. discriminate.
Qed.

Lemma stays_enter_async_context :
  forall (A : Type) ev (enter : list Event -> Result A) ctx,
    is_exit ev = false -> stays (enter_async_context ev enter ctx).
Proof.
  intros A ev enter ctx Hev. unfold enter_async_context.
  apply stays_bind; [apply stays_await_enter; exact Hev|]. intros a.
  apply stays_bind; [apply stays_push|]. intros _.
  intros s. apply nothing_closed_refl. exact 0.
Qed.

Lemma stays_open_session : forall server_name t, stays (open_session server_name t).
Proof.
  intros server_name t. unfold open_session.
  apply stays_bind; [apply stays_enter_async_context; reflexivity|]. intros session.
  apply stays_bind; [apply stays_await_enter; reflexivity|]. intros _.
  apply stays_register.
Qed.

Lemma stays_initialize_stdio : forall l, stays (initialize_stdio l).
Proof.
  induction l as [|[server_name params] rest IH]; simpl.
  - intros s. apply nothing_closed_refl. exact 0.
  - apply stays_bind; [apply stays_enter_async_context; reflexivity|]. intros t.
    apply stays_bind; [apply stays_open_session|]. intros _. exact IH.
Qed.

Lemma stays_initialize_sse : forall l, stays (initialize_sse l).
Proof.
  induction l as [|mcp rest IH]; simpl.
  - intros s. apply nothing_closed_refl. exact 0.
  - apply stays_bind; [apply stays_enter_async_context; reflexivity|]. intros t.
    apply stays_bind; [apply stays_open_session|]. intros _. exact IH.
Qed.

(** The handler of [initialize] changes nothing. *)
Lemma initialize_reraises :
  forall stdio_server_map sse_server_map s,
    initialize stdio_server_map sse_server_map s
    = (initialize_stdio stdio_server_map ;; initialize_sse sse_server_map) s.
Proof.
  intros. unfold initialize, try_, raise.
  destruct ((initialize_stdio stdio_server_map ;; initialize_sse sse_server_map) s)
    as [s' [x|e]]; reflexivity.
Qed.

Lemma initialize_nothing_closed :
  forall stdio_server_map sse_server_map s,
    nothing_closed s (fst (initialize stdio_server_map sse_server_map s)).
Proof.
  intros. rewrite initialize_reraises.
  exact (@stays_bind _ _ _ _ (stays_initialize_stdio stdio_server_map)
         (fun _ => stays_initialize_sse sse_server_map) s).
Qed.

Lemma initialize_sse_app :
forall l1 l2 s,
  initialize_sse (l1 ++ l2) s = (initialize_sse l1 ;; initialize_sse l2) s.
Proof.
induction l1 as [|mcp rest IH]; intros l2 s; simpl.
- reflexivity.
- rewrite bind_assoc. apply bind_cong. intros t s1.
  rewrite bind_assoc. apply bind_cong. intros _ s2. apply IH.
Qed.

(** A backend that fails to connect registers no session. *)
Lemma failed_backend_not_registered :
forall mcp s s' e,
  initialize_sse [mcp] s = (s', Raise e) -> sessions s' = sessions s.
Proof.
intros mcp s s' e H. simpl in H. run_in H.
repeat case_result H; inversion H; subst; reflexivity.
Qed.

(** Every backend that connected left its two contexts on the stack. *)
Lemma connected_backends_open :
forall l s s',
  initialize_sse l s = (s', Ok tt) ->
  length (exit_stack s') = length (exit_stack s) + 2 * length l.
Proof.
induction l as [|mcp rest IH]; intros s s' H.
- simpl in H. inversion H; subst. simpl. lia.
- cbn [initialize_sse] in H.
  destruct (enter_async_context (EvSseClient (sse_url mcp))
              (fun h => sse_client h (sse_url mcp)) CtxTransport s) as [s1 [t|e]] eqn:E1.
  2:{ rewrite (bind_raise _ _ _ _ _ _ _ E1) in H. discriminate. }
  rewrite (bind_ok _ _ _ _ _ _ _ E1) in H.
  destruct (open_session (mcp_name mcp) t s1) as [s2 [[]|e]] eqn:E2.
  2:{ rewrite (bind_raise _ _ _ _ _ _ _ E2) in H. discriminate. }
  rewrite (bind_ok _ _ _ _ _ _ _ E2) in H. apply IH in H.
  assert (H1 : exit_stack s1 = CtxTransport t :: exit_stack s).
  { run_in E1. repeat case_result E1; inversion E1; subst; reflexivity. }
  assert (H2 : exists x, exit_stack s2 = CtxSession x :: exit_stack s1).
  { run_in E2. repeat case_result E2; inversion E2; subst; eexists; reflexivity. }
  destruct H2 as [x H2]. rewrite H, H2, H1. simpl. lia.
Qed.

Lemma aclose_exits_all :
  forall cs pending s,
    exit_stack (fst (aclose cs pending s)) = match cs with [] => exit_stack s | _ => [] end /\
    trace (fst (aclose cs pending s)) = trace s ++ map EvExit cs.
Proof.
  induction cs as [|c rest IH]; intros pending s; simpl.
  - rewrite app_nil_r. destruct pending; simpl; auto.
  - unfold bind at 1. unfold modify at 1. unfold bind at 1.
    unfold try_, bind, await, ret. simpl.
    destruct (ctx_exit (trace s) c) as [[]|e]; simpl.
    + destruct (IH pending
                   (set_trace (trace s ++ [EvExit c]) (set_exit_stack rest s))) as [H1 H2].
      rewrite H1, H2. simpl. rewrite <- app_assoc. simpl.
      split; [destruct rest; reflexivity | reflexivity].
    + destruct (IH (Some e)
                   (set_trace (trace s ++ [EvExit c]) (set_exit_stack rest s))) as [H1 H2].
      rewrite H1, H2. simpl. rewrite <- app_assoc. simpl.
      split; [destruct rest; reflexivity | reflexivity].
Qed.

(** [close()] exits every context on the stack, the last entered first,
    and leaves the stack empty. *)
Lemma close_exits_all :
  forall s,
    exit_stack (fst (close s)) = [] /\
    trace (fst (close s)) = trace s ++ map EvExit (exit_stack s).
Proof.
  intros s. unfold close, bind, gets.
  destruct (aclose_exits_all (exit_stack s) None s) as [H1 H2].
  split; [|exact H2]. rewrite H1. destruct (exit_stack s) eqn:E; auto.
Qed.
End Initialize.

(** ** Running the chat loops *)

Lemma bind_yield :
  forall (B : Type) o (k : unit -> M B) s, bind (yield o) k s = k tt (yielded o s).
Proof. reflexivity. Qed.

Lemma bind_append_message :
  forall (B : Type) m (k : unit -> M B) s,
    bind (append_message m) k s = k tt (appended m s).
Proof. reflexivity. Qed.

Lemma bind_gets :
  forall (A B : Type) (g : St -> A) (k : A -> M B) s, bind (gets g) k s = k (g s) s.
Proof. reflexivity. Qed.

Lemma bind_ret :
  forall (A B : Type) (a : A) (k : A -> M B) s, bind (ret a) k s = k a s.
Proof. reflexivity. Qed.

Lemma bind_lift_ok :
  forall (A B : Type) (r : Result A) (k : A -> M B) s a,
    r = Ok a -> bind (lift r) k s = k a s.
Proof. intros. subst. reflexivity. Qed.

Lemma bind_lift_raise :
  forall (A B : Type) (r : Result A) (k : A -> M B) s e,
    r = Raise e -> bind (lift r) k s = (s, Raise e).
Proof. intros. subst. reflexivity. Qed.

Lemma bind_await :
  forall (A B : Type) ev (g : list Event -> Result A) (k : A -> M B) s,
    bind (await ev g) k s
    = match g (trace s) with
      | Ok a => k a (set_trace (trace s ++ [ev]) s)
      | Raise e => (set_trace (trace s ++ [ev]) s, Raise e)
      end.
Proof. reflexivity. Qed.

Lemma set_out_nil : forall s, set_out (out s ++ []) s = s.
Proof. intros s. rewrite app_nil_r. destruct s. reflexivity. Qed.

Lemma adds_gets_bind :
  forall f (A B : Type) (g : St -> A) (k : A -> M B) n,
    (forall s, within (adds f) n (k (g s))) -> within (adds f) n (bind (gets g) k).
Proof. intros f A B g k n H s. rewrite bind_gets. apply H. Qed.

(** *** Calls that are not model calls *)

Create HintDb quiet.

Section Quiet.
Context {env : Env}.
Variable f : Event -> bool.
Hypothesis f_model_only : forall ev, is_model_call ev = false -> f ev = false.

Lemma quiet_await :
  forall (A : Type) ev (g : list Event -> Result A),
    is_model_call ev = false -> within (adds f) 0 (await ev g).
Proof.
intros A ev g Hev. generalize (adds_await f A ev g).
rewrite (f_model_only ev Hev). auto.
Qed.

Ltac quiet :=
  repeat first
    [ apply adds_ret | apply adds_raise | apply adds_lift | apply adds_gets
    | apply adds_yield | apply adds_append_message
    | solve [apply adds_modify; reflexivity]
    | solve [apply quiet_await; reflexivity]
    | solve [auto with quiet]
    | (apply adds_bind with (a := 0) (b := 0); [ | intro | lia])
    | (apply adds_try with (a := 0) (b := 0); [ | intro | lia])
    | match goal with
      | |- within _ _ (match ?x with _ => _ end) => destruct x
      end ].

Lemma quiet_enter_async_context :
  forall (A : Type) ev (enter : list Event -> Result A) ctx,
    is_model_call ev = false -> within (adds f) 0 (enter_async_context ev enter ctx).
Proof.
intros A ev enter ctx Hev. unfold enter_async_context.
apply adds_bind with (a := 0) (b := 0); [apply quiet_await; exact Hev | intro | lia].
quiet.
Qed.

Lemma quiet_open_session :
  forall server_name t, within (adds f) 0 (open_session server_name t).
Proof.
intros. unfold open_session.
apply adds_bind with (a := 0) (b := 0);
  [apply quiet_enter_async_context; reflexivity | intro | lia].
quiet.
Qed.
Hint Resolve quiet_open_session : quiet.

Lemma quiet_initialize_stdio : forall l, within (adds f) 0 (initialize_stdio l).
Proof.
induction l as [|[server_name params] rest IH]; simpl; [quiet|].
apply adds_bind with (a := 0) (b := 0);
  [apply quiet_enter_async_context; reflexivity | intro | lia].
quiet.
Qed.

Lemma quiet_initialize_sse : forall l, within (adds f) 0 (initialize_sse l).
Proof.
induction l as [|mcp rest IH]; simpl; [quiet|].
apply adds_bind with (a := 0) (b := 0);
  [apply quiet_enter_async_context; reflexivity | intro | lia].
quiet.
Qed.
Hint Resolve quiet_initialize_stdio quiet_initialize_sse : quiet.

Lemma quiet_initialize :
  forall stdio_server_map sse_server_map,
    within (adds f) 0 (initialize stdio_server_map sse_server_map).
Proof. intros. unfold initialize. quiet. Qed.

Lemma quiet_list_tools_from : forall ss acc, within (adds f) 0 (list_tools_from ss acc).
Proof.
induction ss as [|[server_name session] rest IH]; intros acc; simpl; quiet.
Qed.
Hint Resolve quiet_initialize quiet_list_tools_from : quiet.

Lemma quiet_list_tools : within (adds f) 0 list_tools.
Proof. unfold list_tools. quiet. Qed.
Hint Resolve quiet_list_tools : quiet.

Lemma quiet_setup_client : forall p provider, within (adds f) 0 (setup_client p provider).
Proof. intros. unfold setup_client. quiet. Qed.

Lemma quiet_call_tool :
  forall tool_name arguments tm, within (adds f) 0 (call_tool tool_name arguments tm).
Proof. intros. unfold call_tool. quiet. Qed.
Hint Resolve quiet_setup_client quiet_call_tool : quiet.

Lemma quiet_execute_tools :
  forall calls provider, within (adds f) 0 (execute_tools calls provider).
Proof.
induction calls as [|call rest IH]; intros provider; simpl; quiet.
Qed.
Hint Resolve quiet_execute_tools : quiet.

Lemma quiet_process_tool_calls :
  forall calls provider, within (adds f) 0 (process_tool_calls calls provider).
Proof. intros. unfold process_tool_calls. quiet. Qed.

Lemma quiet_openai_chunks : forall chunks acc, within (adds f) 0 (openai_chunks chunks acc).
Proof.
induction chunks as [|chunk rest IH]; intros acc; simpl; [quiet|].
destruct (absorb_openai_chunk acc chunk) as [acc' e]. quiet.
Qed.

Lemma quiet_anthropic_chunks :
  forall chunks acc, within (adds f) 0 (anthropic_chunks chunks acc).
Proof.
induction chunks as [|chunk rest IH]; intros acc; simpl; [quiet|].
destruct (absorb_anthropic_chunk acc chunk) as [acc' e]. quiet.
Qed.

Lemma quiet_forward_openai : forall chunks, within (adds f) 0 (forward_openai chunks).
Proof. induction chunks as [|chunk rest IH]; simpl; quiet. Qed.

Lemma quiet_forward_anthropic : forall chunks, within (adds f) 0 (forward_anthropic chunks).
Proof. induction chunks as [|chunk rest IH]; simpl; quiet. Qed.

Lemma quiet_end_of_stream :
  forall (C : Type) (r : Stream C), within (adds f) 0 (end_of_stream r).
Proof. intros. unfold end_of_stream. quiet. Qed.
Hint Resolve quiet_process_tool_calls quiet_openai_chunks quiet_anthropic_chunks
  quiet_forward_openai quiet_forward_anthropic quiet_end_of_stream : quiet.

(** *** Model calls per turn *)

(** What a follow-up call counts for. *)
Variable follow : nat.
Hypothesis follow_openai :
  forall p s, (if f (EvCompletionsCreate (openai_follow_up_params p s)) then 1 else 0) <= follow.
Hypothesis follow_anthropic :
  forall p s, (if f (EvMessagesStream (anthropic_follow_up_params p s)) then 1 else 0) <= follow.

Lemma one_await :
  forall (A : Type) ev (g : list Event -> Result A), within (adds f) 1 (await ev g).
Proof.
intros. apply adds_weaken with (a := if f ev then 1 else 0);
  [destruct (f ev); lia | apply adds_await].
Qed.

Lemma turn_openai_model_call :
  forall p turn, within (adds f) 1 (openai_model_call p turn).
Proof.
intros. unfold openai_model_call.
apply adds_bind with (a := 0) (b := 1); [destruct (turn =? 0)%nat; quiet | intro | lia].
apply adds_gets_bind. intros s.
apply adds_bind with (a := 1) (b := 0); [apply one_await | intro | lia].
quiet.
Qed.

Lemma turn_resolve_openai :
  forall p acc, within (adds f) follow (resolve_openai p acc).
Proof.
intros. unfold resolve_openai. destruct (final_tool_calls acc) as [|c calls].
- apply adds_bind with (a := 0) (b := 0); [ | intro | lia]; [|quiet].
  destruct (content_buffer acc); quiet.
- apply adds_bind with (a := 0) (b := follow); [quiet | intro | lia].
  apply adds_bind with (a := 0) (b := follow); [quiet | intro | lia].
  apply adds_bind with (a := 0) (b := follow); [quiet | intro | lia].
  apply adds_bind with (a := 0) (b := follow); [quiet | intro | lia].
  apply adds_gets_bind. intros s.
  apply adds_bind with (a := follow) (b := 0); [ | intro; quiet | lia].
  eapply adds_weaken; [apply follow_openai | apply adds_await].
Qed.

Lemma turn_openai_turns :
  forall p n turn, within (adds f) ((1 + follow) * n) (openai_turns p n turn).
Proof.
induction n as [|n IH]; intros turn; simpl openai_turns; [quiet|].
apply adds_bind with (a := 1) (b := follow + (1 + follow) * n);
  [apply turn_openai_model_call | intro acc | lia].
apply adds_bind with (a := follow) (b := (1 + follow) * n);
  [apply turn_resolve_openai | intros [|] | lia]; [apply IH | quiet].
Qed.

Lemma turn_process_openai :
  forall p,
    within (adds f) ((1 + follow) * Z.to_nat (max_turns p)) (process_openai_stream_chat p).
Proof.
intros. unfold process_openai_stream_chat, openai_body.
apply adds_try with (a := (1 + follow) * Z.to_nat (max_turns p)) (b := 0);
  [ | intro; quiet | lia].
apply adds_bind with (a := 0) (b := (1 + follow) * Z.to_nat (max_turns p));
  [quiet | intro | lia].
apply adds_bind with (a := 0) (b := (1 + follow) * Z.to_nat (max_turns p));
  [quiet | intro | lia].
apply turn_openai_turns.
Qed.

Lemma turn_anthropic_model_call :
  forall p turn, within (adds f) 1 (anthropic_model_call p turn).
Proof.
intros. unfold anthropic_model_call.
apply adds_bind with (a := 0) (b := 1); [destruct (turn =? 0)%nat; quiet | intro | lia].
apply adds_gets_bind. intros s.
apply adds_bind with (a := 1) (b := 0); [apply one_await | intro | lia].
quiet.
Qed.

Lemma turn_resolve_anthropic :
  forall p acc, within (adds f) follow (resolve_anthropic p acc).
Proof.
intros. unfold resolve_anthropic. destruct (final_tool_calls acc) as [|c calls]; [quiet|].
apply adds_bind with (a := 0) (b := follow); [quiet | intro | lia].
apply adds_bind with (a := 0) (b := follow); [quiet | intro | lia].
apply adds_bind with (a := 0) (b := follow); [quiet | intro | lia].
apply adds_bind with (a := 0) (b := follow); [quiet | intro | lia].
apply adds_bind with (a := 0) (b := follow); [quiet | intro | lia].
apply adds_gets_bind. intros s.
apply adds_bind with (a := follow) (b := 0); [ | intro; quiet | lia].
eapply adds_weaken; [apply follow_anthropic | apply adds_await].
Qed.

Lemma turn_anthropic_turns :
  forall p n turn, within (adds f) ((1 + follow) * n) (anthropic_turns p n turn).
Proof.
induction n as [|n IH]; intros turn; simpl anthropic_turns; [quiet|].
apply adds_bind with (a := 1) (b := follow + (1 + follow) * n);
  [apply turn_anthropic_model_call | intro acc | lia].
apply adds_bind with (a := follow) (b := (1 + follow) * n);
  [apply turn_resolve_anthropic | intros [|] | lia]; [apply IH | quiet].
Qed.

Lemma turn_process_anthropic :
  forall p,
    within (adds f) ((1 + follow) * Z.to_nat (max_turns p)) (process_anthropic_stream_chat p).
Proof.
intros. unfold process_anthropic_stream_chat, anthropic_body.
apply adds_try with (a := (1 + follow) * Z.to_nat (max_turns p)) (b := 0);
  [ | intro; quiet | lia].
apply adds_bind with (a := 0) (b := (1 + follow) * Z.to_nat (max_turns p));
  [quiet | intro | lia].
apply adds_bind with (a := 0) (b := (1 + follow) * Z.to_nat (max_turns p));
  [quiet | intro | lia].
apply turn_anthropic_turns.
Qed.
End Quiet.

(** *** What the loops do, step by step *)

Section Steps.
Context {env : Env}.

Lemma openai_chunks_run :
  forall chunks acc s,
    exists outs,
      openai_chunks chunks acc s = (set_out (out s ++ outs) s, Ok (openai_acc chunks acc)).
Proof.
unfold openai_acc.
induction chunks as [|chunk rest IH]; intros acc s; simpl.
- exists []. rewrite set_out_nil. reflexivity.
- destruct (absorb_openai_chunk acc chunk) as [acc' e] eqn:Ea. simpl.
  destruct e as [ex|]; rewrite bind_yield;
    match goal with
    | |- context [yielded ?o s] =>
        destruct (IH acc' (yielded o s)) as [outs Houts]; exists (o :: outs)
    end;
    rewrite Houts; unfold yielded; destruct s; simpl; rewrite <- app_assoc; reflexivity.
Qed.

Lemma anthropic_chunks_run :
  forall chunks acc s,
    exists outs,
      anthropic_chunks chunks acc s
      = (set_out (out s ++ outs) s, Ok (anthropic_acc chunks acc)).
Proof.
unfold anthropic_acc.
induction chunks as [|chunk rest IH]; intros acc s; simpl.
- exists []. rewrite set_out_nil. reflexivity.
- destruct (absorb_anthropic_chunk acc chunk) as [acc' e] eqn:Ea. simpl.
  destruct e as [ex|]; rewrite bind_yield;
    match goal with
    | |- context [yielded ?o s] =>
        destruct (IH acc' (yielded o s)) as [outs Houts]; exists (o :: outs)
    end;
    rewrite Houts; unfold yielded; destruct s; simpl; rewrite <- app_assoc; reflexivity.
Qed.

Lemma anthropic_chunks_app :
  forall pre post acc s,
    anthropic_chunks (pre ++ post) acc s
    = bind (anthropic_chunks pre acc) (fun acc' => anthropic_chunks post acc') s.
Proof.
induction pre as [|chunk rest IH]; intros post acc s; simpl.
- reflexivity.
- destruct (absorb_anthropic_chunk acc chunk) as [acc' e].
  rewrite bind_assoc. apply bind_cong. intros _ s'. apply IH.
Qed.

Lemma forward_openai_run :
  forall chunks s,
    forward_openai chunks s = (set_out (out s ++ map PassOpenAI chunks) s, Ok tt).
Proof.
induction chunks as [|chunk rest IH]; intros s; simpl.
- rewrite set_out_nil. reflexivity.
- rewrite bind_yield, IH. unfold yielded. destruct s; simpl.
  rewrite <- app_assoc. reflexivity.
Qed.

Lemma forward_anthropic_run :
  forall chunks s,
    forward_anthropic chunks s = (set_out (out s ++ map PassAnthropic chunks) s, Ok tt).
Proof.
induction chunks as [|chunk rest IH]; intros s; simpl.
- rewrite set_out_nil. reflexivity.
- rewrite bind_yield, IH. unfold yielded. destruct s; simpl.
  rewrite <- app_assoc. reflexivity.
Qed.

(** A tool that is not in the routing table: [call_tool] returns [None]
    and touches nothing. *)
Lemma call_tool_not_found :
  forall tool_name arguments tm s,
    dict_get String.eqb tm tool_name = None ->
    call_tool tool_name arguments tm s = (s, Ok None).
Proof.
intros tool_name arguments tm s H. unfold call_tool. rewrite H. reflexivity.
Qed.

Lemma execute_tools_not_found_step :
  forall call rest provider s a,
    json_loads (tc_arguments call) = Ok a ->
    dict_get String.eqb (tool_map s) (tc_name call) = None ->
    execute_tools (call :: rest) provider s
    = execute_tools rest provider (not_found_step provider s call).
Proof.
intros call rest provider s a Ha Hn. cbn [execute_tools].
rewrite (bind_lift_ok _ _ _ _ _ a Ha), bind_yield, bind_gets.
rewrite (bind_ok _ _ _ _ _ _ _ (call_tool_not_found _ _ _ _ Hn)).
rewrite bind_append_message, bind_yield. reflexivity.
Qed.

Lemma not_found_steps_frame :
  forall provider calls s,
    tool_map (fold_left (not_found_step provider) calls s) = tool_map s /\
    trace (fold_left (not_found_step provider) calls s) = trace s /\
    chat_messages (fold_left (not_found_step provider) calls s)
    = chat_messages s
      ++ map (fun call => create_tool_result_message (tc_id call) (py_str None) provider)
             calls.
Proof.
induction calls as [|call rest IH]; intros s; simpl.
- rewrite app_nil_r. auto.
- destruct (IH (not_found_step provider s call)) as [H1 [H2 H3]].
  rewrite H1, H2, H3. simpl. rewrite <- app_assoc. auto.
Qed.

Lemma execute_tools_not_found :
  forall calls provider s,
    Forall (fun call =>
              dict_get String.eqb (tool_map s) (tc_name call) = None /\
              exists a, json_loads (tc_arguments call) = Ok a) calls ->
    execute_tools calls provider s = (fold_left (not_found_step provider) calls s, Ok tt).
Proof.
induction calls as [|call rest IH]; intros provider s H.
- reflexivity.
- inversion H as [|c r [Hn [a Ha]] Hrest]; subst.
  rewrite (execute_tools_not_found_step _ _ _ _ a Ha Hn). simpl. apply IH. exact Hrest.
Qed.

Lemma execute_tools_app :
  forall pre post provider s,
    execute_tools (pre ++ post) provider s
    = bind (execute_tools pre provider) (fun _ => execute_tools post provider) s.
Proof.
induction pre as [|call rest IH]; intros post provider s.
- reflexivity.
- cbn [app execute_tools].
  rewrite bind_assoc. apply bind_cong. intros a s1.
  rewrite bind_assoc. apply bind_cong. intros _ s2.
  rewrite bind_assoc. apply bind_cong. intros tm s3.
  rewrite bind_assoc. apply bind_cong. intros obs s4.
  rewrite bind_assoc. apply bind_cong. intros _ s5.
  rewrite bind_assoc. apply bind_cong. intros _ s6. apply IH.
Qed.

(** Arguments that do not parse stop the loop where they are met. *)
Lemma execute_tools_malformed :
  forall pre bad post provider s s1 e,
    execute_tools pre provider s = (s1, Ok tt) ->
    json_loads (tc_arguments bad) = Raise e ->
    execute_tools (pre ++ bad :: post) provider s = (s1, Raise e).
Proof.
intros pre bad post provider s s1 e Hpre Hbad.
rewrite execute_tools_app, (bind_ok _ _ _ _ _ _ _ Hpre). cbn [execute_tools].
apply bind_lift_raise. exact Hbad.
Qed.

Lemma resolve_openai_malformed :
  forall p acc s pre bad post s1 e,
    dict_values (final_tool_calls acc) = pre ++ bad :: post ->
    execute_tools pre OpenAI (openai_tools_start (final_tool_calls acc) s) = (s1, Ok tt) ->
    json_loads (tc_arguments bad) = Raise e ->
    resolve_openai p acc s = (s1, Raise e).
Proof.
intros p acc s pre bad post s1 e Hvals Hpre Hbad. unfold resolve_openai.
destruct (final_tool_calls acc) as [|c calls] eqn:Ec.
- destruct pre; discriminate.
- rewrite bind_yield, bind_append_message.
  apply bind_raise. unfold process_tool_calls.
  apply bind_raise. rewrite Hvals.
  apply execute_tools_malformed; assumption.
Qed.

(** A turn whose tools ran makes the follow-up call, and nothing after it
    leaves the process. *)
Lemma resolve_openai_follow_up :
  forall p acc s s2,
    final_tool_calls acc <> [] ->
    process_tool_calls (final_tool_calls acc) OpenAI
      (openai_tools_start (final_tool_calls acc) s) = (s2, Ok tt) ->
    exists s' r,
      resolve_openai p acc s = (s', r) /\
      trace s' = trace s2
                 ++ [EvCompletionsCreate (openai_follow_up_params p (openai_tools_done s2))].
Proof.
intros p acc s s2 Hne Htools. unfold resolve_openai.
destruct (final_tool_calls acc) as [|c calls] eqn:Ec; [contradiction|].
rewrite bind_yield, bind_append_message.
rewrite (bind_ok _ _ _ _ _ _ _ Htools), bind_yield, bind_gets, bind_await.
match goal with
| |- context [match ?r with Ok _ => _ | Raise _ => _ end] => destruct r as [reply|e]
end.
- rewrite (bind_ok _ _ _ _ _ _ _ (forward_openai_run _ _)).
  unfold end_of_stream. destruct (fault reply) as [e|].
  + eexists. eexists. split; [reflexivity|]. reflexivity.
  + eexists. eexists. split; [reflexivity|]. reflexivity.
- eexists. eexists. split; [reflexivity|]. reflexivity.
Qed.

(** The model call of a turn always leaves the process, once. *)
Lemma openai_model_call_trace :
  forall p turn s,
    trace (fst (openai_model_call p turn s))
    = trace s ++ [EvCompletionsCreate (openai_completion_params p s)].
Proof.
intros p turn s. unfold openai_model_call.
assert (H : forall s0,
           trace s0 = trace s ->
           openai_completion_params p s0 = openai_completion_params p s ->
           trace (fst ((completion_params <- gets (openai_completion_params p) ;;
                        stream_response <- await (EvCompletionsCreate completion_params)
                                             (fun h => completions_create h completion_params) ;;
                        acc <- openai_chunks (items stream_response) new_acc ;;
                        end_of_stream stream_response ;; ret acc) s0))
           = trace s ++ [EvCompletionsCreate (openai_completion_params p s)]).
{ intros s0 Ht Hp. rewrite bind_gets, bind_await, Hp.
  destruct (completions_create (trace s0) (openai_completion_params p s)) as [reply|e].
  - destruct (openai_chunks_run (items reply) new_acc
                (set_trace (trace s0 ++ [EvCompletionsCreate (openai_completion_params p s)]) s0))
      as [outs Hrun].
    rewrite (bind_ok _ _ _ _ _ _ _ Hrun).
    unfold end_of_stream. destruct (fault reply); simpl; rewrite Ht; reflexivity.
  - simpl. rewrite Ht. reflexivity. }
destruct (turn =? 0)%nat.
- rewrite bind_yield. apply H; reflexivity.
- rewrite bind_ret. apply H; reflexivity.
Qed.

(** The handler of [process_openai_stream_chat]: an exception out of the
    body becomes one last error chunk. *)
Lemma process_openai_raise :
  forall p s s' e,
    openai_body p s = (s', Raise e) ->
    process_openai_stream_chat p s
    = (yielded (create_llm_chunk ERROR ("Error: " ++ exn_str e) OpenAI) s', Ok tt).
Proof.
intros p s s' e H. unfold process_openai_stream_chat, try_. rewrite H. reflexivity.
Qed.

Lemma process_openai_ok :
  forall p s s',
    openai_body p s = (s', Ok tt) -> process_openai_stream_chat p s = (s', Ok tt).
Proof.
intros p s s' H. unfold process_openai_stream_chat, try_. rewrite H. reflexivity.
Qed.
End Steps.

(** ** The properties *)

(** C8, as stated, fails: a schema whose property lists a list of types
    among its types is normalized to one thing, and that to another. *)
Lemma nested_type_list_normalizes_twice :
  filter_twice nested_schema <> filter_mcp_input_schema nested_schema.
Proof. vm_compute. discriminate. Qed.

(** C8, amended: normalization is a function of the schema, and for every
    schema in which no element of a list-valued property [type] is itself
    a list, normalizing the normalized schema gives the same result as
    normalizing once (a call that raises is not followed by a second). *)
Theorem filter_mcp_input_schema_idempotent :
  forall s : dict,
    flat_types s = true ->
    filter_twice s = filter_mcp_input_schema s.
Proof. exact filter_twice_flat. Qed.

Lemma filter_mcp_input_schema_idempotent_witness :
  flat_types nullable_schema = true /\
  filter_twice nullable_schema = filter_mcp_input_schema nullable_schema.
Proof.
  split; [reflexivity | apply (filter_mcp_input_schema_idempotent nullable_schema); reflexivity].
Defined.

(** C9, as stated, fails: formatting a tool list for OpenAI changes the
    [inputSchema] of the tool object it formats. *)
Lemma openai_format_rewrites_schema : ~ schemas_unchanged [search_tool] OpenAI.
Proof. unfold schemas_unchanged. vm_compute. discriminate. Qed.

(** C9, amended: formatting for Anthropic leaves every tool object as it
    was; formatting for OpenAI that returns leaves every tool object with
    its schema normalized, name and description unchanged, and gives each
    formatted tool that normalized schema as its parameters. *)
Theorem format_tools_schema_effect :
  forall (tool_objects tools' : list Tool) (formatted : list JSON),
    format_tools_object_for_llm_call tool_objects OpenAI = (tools', Ok formatted) ->
    format_tools_object_for_llm_call tool_objects Anthropic
    = (tool_objects, Ok (map anthropic_tool tool_objects)) /\
    tools' = map normalized tool_objects /\
    formatted
    = map (fun tool => openai_tool tool (inputSchema (normalized tool))) tool_objects.
Proof.
  intros tool_objects tools' formatted H. split; [reflexivity|].
  apply format_openai_tools_ok. exact H.
Qed.

Lemma format_tools_schema_effect_witness :
  map inputSchema (fst (format_tools_object_for_llm_call [search_tool] OpenAI))
  = [ fst (filter_mcp_input_schema (inputSchema search_tool)) ].
Proof.
  destruct (format_tools_schema_effect [search_tool]
              (fst (format_tools_object_for_llm_call [search_tool] OpenAI))
              [openai_tool search_tool (inputSchema (normalized search_tool))]
              eq_refl) as [_ [H _]].
  rewrite H. reflexivity.
Defined.

(** C6, as stated, fails: an entry named [search] is renamed by a later
    fragment that carries the name [lookup]. *)
Lemma later_name_replaces_first : ~ name_set_once named_acc renaming_fragment.
Proof.
  intros H.
  specialize (H (mkFn (Some "lookup") (Some "}"))
                (mkCall "call_0" "function" "search" "{")
                (mkCall "call_0" "function" "lookup" "{}")
                eq_refl eq_refl eq_refl).
  discriminate H.
Qed.

(** C6, amended: a fragment for an entry that exists replaces the entry's
    name when it carries a non-empty one (the last non-empty name wins)
    and appends its arguments to the entry's; id and type stay, entries of
    other indices are untouched; and over any run of chunks an entry stays
    with its id and its arguments only grow at the end. *)
Theorem reassembly_merge :
  forall (acc : Acc) (tool_call : ToolCallDelta) (fn : FunctionDelta) (entry : ToolCall),
    tcd_function tool_call = Some fn ->
    dict_get Z.eqb (final_tool_calls acc) (tcd_index tool_call) = Some entry ->
    snd (absorb_tool_call acc tool_call) = None /\
    dict_get Z.eqb (final_tool_calls (fst (absorb_tool_call acc tool_call)))
             (tcd_index tool_call)
    = Some (mkCall (tc_id entry) (tc_type entry)
                   (last_name_wins (tc_name entry) (fn_name fn))
                   (tc_arguments entry ++ or_else (fn_arguments fn) "")%string) /\
    (forall j,
        j <> tcd_index tool_call ->
        dict_get Z.eqb (final_tool_calls (fst (absorb_tool_call acc tool_call))) j
        = dict_get Z.eqb (final_tool_calls acc) j) /\
    (forall chunks s, snd (openai_chunks chunks acc s) = Ok (openai_acc chunks acc)) /\
    (forall chunks,
        exists entry' suffix,
          dict_get Z.eqb (final_tool_calls (openai_acc chunks acc)) (tcd_index tool_call)
          = Some entry' /\
          tc_id entry' = tc_id entry /\
          tc_arguments entry' = (tc_arguments entry ++ suffix)%string).
Proof.
  intros acc tool_call fn entry Hfn Hget.
  destruct (absorb_tool_call_existing acc tool_call fn entry Hfn Hget) as [H1 H2].
  split; [exact H1|]. split; [exact H2|]. split.
  - intros j Hj. apply absorb_tool_call_others. exact Hj.
  - split.
    + intros chunks s. destruct (openai_chunks_run chunks acc s) as [outs H].
      rewrite H. reflexivity.
    + intros chunks. apply openai_acc_grows. exact Hget.
Qed.

Lemma reassembly_merge_witness :
  dict_get Z.eqb (final_tool_calls (fst (absorb_tool_call named_acc renaming_fragment))) 0%Z
  = Some (mkCall "call_0" "function" "lookup" "{}").
Proof.
  destruct (reassembly_merge named_acc renaming_fragment
              (mkFn (Some "lookup") (Some "}"))
              (mkCall "call_0" "function" "search" "{")
              eq_refl eq_refl) as [_ [H _]].
  exact H.
Defined.

(** C4, as stated, fails: a run whose response has an [input_json_delta]
    before any [tool_use] block yields no error chunk. *)
Lemma orphan_delta_yields_no_error :
  reports_error
    (out (fst (@process_anthropic_stream_chat orphan_world
                 (demo_chat 3 [server_a]) init_state))) = false.
Proof. vm_compute. reflexivity. Qed.

(** C4, amended: an [input_json_delta] that arrives while no [tool_use]
    block has been started is not accumulated and raises nothing; the
    event is passed through to the caller like any other, no error chunk
    is yielded for it, and the loop goes on with the next event. *)
Theorem orphan_delta_is_passed_through :
  forall (pre : list AnthropicEvent) (chunk : AnthropicEvent)
         (rest : list AnthropicEvent) (s : St),
    forallb (fun c => negb (opens_tool c)) pre = true ->
    is_input_json_delta chunk = true ->
    final_tool_calls (anthropic_acc pre new_acc) = [] /\
    absorb_anthropic_chunk (anthropic_acc pre new_acc) chunk
    = (anthropic_acc pre new_acc, None) /\
    anthropic_chunks (pre ++ chunk :: rest) new_acc s
    = anthropic_chunks rest (anthropic_acc pre new_acc)
        (yielded (PassAnthropic chunk) (fst (anthropic_chunks pre new_acc s))).
Proof.
  intros pre chunk rest s Hpre Hchunk.
  destruct (anthropic_acc_closed pre new_acc Hpre eq_refl) as [Hcur Hcalls].
  pose proof (absorb_orphan_delta (anthropic_acc pre new_acc) chunk Hchunk Hcur) as Habs.
  split; [exact Hcalls|]. split; [exact Habs|].
  rewrite anthropic_chunks_app.
  destruct (anthropic_chunks_run pre new_acc s) as [outs Hrun].
  rewrite (bind_ok _ _ _ _ _ _ _ Hrun), Hrun. cbn [fst anthropic_chunks].
  rewrite Habs. rewrite bind_yield. reflexivity.
Qed.

Lemma orphan_delta_is_passed_through_witness :
  out (fst (anthropic_chunks [text_start; orphan_delta] new_acc init_state))
  = [PassAnthropic text_start; PassAnthropic orphan_delta].
Proof.
  destruct (orphan_delta_is_passed_through [text_start] orphan_delta [] init_state
              eq_refl eq_refl) as [_ [_ H]].
  change ([text_start; orphan_delta]) with ([text_start] ++ [orphan_delta]).
  rewrite H. reflexivity.
Defined.

(** C5: whenever every session answers its listing, [list_tools()]
    returns a routing table that has each tool name once and maps it to
    the first server, in the order the sessions are asked, whose listing
    has a tool of that name; a name that is already in the table is
    skipped, with the table and the tool list left as they are, and no
    error is raised for it. *)
Theorem list_tools_first_registration_wins :
  forall (env : Env) (s : St) (ls : list (string * list Tool)),
    listings_of (sessions s) (trace s) = Ok ls ->
    map fst ls = map fst (sessions s) /\
    (exists s' routing consolidated,
        list_tools s = (s', Ok (routing, consolidated)) /\
        NoDup (dict_keys routing) /\
        forall tool_name,
          dict_get String.eqb routing tool_name = first_owner ls tool_name) /\
    (forall server_name tool rest routing consolidated,
        dict_mem String.eqb routing (name tool) = true ->
        register_tools server_name (tool :: rest) (routing, consolidated)
        = register_tools server_name rest (routing, consolidated)).
Proof.
  intros env s ls H.
  destruct (list_tools_from_listings (sessions s) ([], []) s ls H) as [Hn [s' Hs']].
  split; [exact Hn|]. split.
  - exists s', (fst (register_all ls ([], []))), (snd (register_all ls ([], []))).
    split.
    + unfold list_tools. rewrite bind_gets, Hs'.
      destruct (register_all ls ([], [])). reflexivity.
    + split.
      * apply (register_all_consistent ls ([], [])). split; [reflexivity | constructor].
      * intros tool_name. rewrite register_all_get. reflexivity.
  - intros server_name tool rest routing consolidated Hmem. simpl. rewrite Hmem. reflexivity.
Qed.

Lemma list_tools_first_registration_wins_witness :
  @listings_of searching_world (sessions two_sessions) (trace two_sessions)
  = Ok [("a", [search_tool]); ("b", [search_tool])] /\
  exists s' routing consolidated,
    @list_tools searching_world two_sessions = (s', Ok (routing, consolidated)) /\
    NoDup (dict_keys routing) /\
    forall tool_name,
      dict_get String.eqb routing tool_name
      = first_owner [("a", [search_tool]); ("b", [search_tool])] tool_name.
Proof.
  split; [reflexivity|].
  apply (proj1 (proj2 (list_tools_first_registration_wins searching_world two_sessions
                         [("a", [search_tool]); ("b", [search_tool])] eq_refl))).
Defined.

(** C10: the pair [list_tools()] returns is consistent: the names of the
    tools in the list are the keys of the routing table, in the same
    order, each once; so a name is in the list exactly when it is
    routed. *)
Theorem list_tools_consistent_pair :
  forall (env : Env) (s s' : St) (routing : list (string * string))
         (consolidated : list Tool),
    list_tools s = (s', Ok (routing, consolidated)) ->
    map name consolidated = dict_keys routing /\
    NoDup (map name consolidated) /\
    (forall tool_name,
        In tool_name (map name consolidated) <->
        dict_mem String.eqb routing tool_name = true).
Proof.
  intros env s s' routing consolidated H.
  unfold list_tools in H. rewrite bind_gets in H.
  assert (Hc : consistent (routing, consolidated)).
  { apply (list_tools_from_consistent (sessions s) ([], []) s s' _); [|exact H].
    split; [reflexivity | constructor]. }
  destruct Hc as [Hn Hd]. simpl in Hn, Hd.
  split; [exact Hn|]. split; [rewrite Hn; exact Hd|].
  intros tool_name. rewrite Hn. unfold dict_mem.
  destruct (dict_get String.eqb routing tool_name) as [owner|] eqn:E.
  - split; [reflexivity|]. intros _.
    apply (dict_get_In_keys _ _ String.eqb String.eqb_eq routing tool_name owner E).
  - split; [|discriminate]. intros Hin.
    apply (dict_get_None_keys _ _ String.eqb String.eqb_eq) in E. contradiction.
Qed.

Lemma list_tools_consistent_pair_witness :
  @list_tools searching_world two_sessions
  = (set_trace [EvListTools 1; EvListTools 3] two_sessions,
     Ok ([("search", "a")], [search_tool])) /\
  map name [search_tool] = dict_keys [("search", "a")].
Proof.
  split; [reflexivity|].
  apply (proj1 (list_tools_consistent_pair searching_world two_sessions _ _ _ eq_refl)).
Defined.




Lemma openai_follow_up_messages :
  forall p s,
    sget (openai_follow_up_params p s) "messages" = Some (JArr (chat_messages s)).
Proof. reflexivity. Qed.



(** C3, as stated, fails: the model asks for [search] with arguments that
    do not parse and for [lookup] with arguments that do; [lookup] is
    never invoked and the run makes no follow-up call. *)
Lemma malformed_arguments_end_the_run :
  ~ others_proceed "lookup"
      (fst (@process_openai_stream_chat malformed_world
              (demo_chat 3 [server_a]) init_state)).
Proof.
  intros [H _]. vm_compute in H. discriminate H.
Qed.

(** C3, amended: when the arguments of an accumulated tool call do not
    parse, the exception of [json.loads] leaves the tool loop, the turn
    and the turn loop at the state the tool calls before it left: the
    call itself and the calls after it are not invoked and no follow-up
    model call is made.  The handler of [process_openai_stream_chat]
    turns the exception into one last error chunk and the stream ends. *)
Theorem malformed_arguments_abort_the_run :
  forall (env : Env) (p : MCPChat) (n turn : nat) (s0 s s1 : St) (acc : Acc)
         (pre : list ToolCall) (bad : ToolCall) (post : list ToolCall) (e : Exn),
    openai_model_call p turn s0 = (s, Ok acc) ->
    dict_values (final_tool_calls acc) = pre ++ bad :: post ->
    execute_tools pre OpenAI (openai_tools_start (final_tool_calls acc) s) = (s1, Ok tt) ->
    json_loads (tc_arguments bad) = Raise e ->
    process_tool_calls (final_tool_calls acc) OpenAI
      (openai_tools_start (final_tool_calls acc) s) = (s1, Raise e) /\
    openai_turns p (S n) turn s0 = (s1, Raise e) /\
    (forall st st',
        openai_body p st = (st', Raise e) ->
        process_openai_stream_chat p st
        = (yielded (create_llm_chunk ERROR ("Error: " ++ exn_str e) OpenAI) st', Ok tt)).
Proof.
  intros env p n turn s0 s s1 acc pre bad post e Hcall Hvals Hpre Hbad.
  split.
  - unfold process_tool_calls.
    destruct (final_tool_calls acc) as [|c calls] eqn:Ec; [destruct pre; discriminate|].
    apply bind_raise. rewrite Hvals. apply execute_tools_malformed; assumption.
  - split.
    + cbn [openai_turns]. rewrite (bind_ok _ _ _ _ _ _ _ Hcall).
      apply bind_raise. apply (resolve_openai_malformed p acc s pre bad post s1 e); assumption.
    + intros st st' H. apply process_openai_raise. exact H.
Qed.

Lemma malformed_arguments_abort_the_run_witness :
  let p := demo_chat 3 [server_a] in
  let s0 := fst (@setup_client malformed_world p OpenAI init_state) in
  let s := fst (@openai_model_call malformed_world p 0 s0) in
  let acc := openai_acc [ request_chunk [ ("search", "{"); ("lookup", "{}") ] ] new_acc in
  let bad := mkCall "call_0" "function" "search" "{" in
  let post := [ mkCall "call_1" "function" "lookup" "{}" ] in
  let e := mkExn "JSONDecodeError" "Expecting value" in
  @openai_model_call malformed_world p 0 s0 = (s, Ok acc) /\
  dict_values (final_tool_calls acc) = [] ++ bad :: post /\
  @json_loads malformed_world (tc_arguments bad) = Raise e /\
  @openai_turns malformed_world p 3 0 s0
  = (openai_tools_start (final_tool_calls acc) s, Raise e).
Proof.
  intros p s0 s acc bad post e.
  split; [reflexivity|]. split; [reflexivity|]. split; [reflexivity|].
  apply (proj1 (proj2 (malformed_arguments_abort_the_run malformed_world p 2 0 s0 s
                         (openai_tools_start (final_tool_calls acc) s) acc
                         [] bad post e eq_refl eq_refl eq_refl eq_refl))).
Defined.


Lemma tool_checked_model_only :
  forall ev, is_model_call ev = false -> is_tool_checked_call ev = false.
Proof. intros [] H; simpl in *; try reflexivity; discriminate. Qed.

Lemma openai_follow_up_unchecked :
  forall p s, smem (openai_follow_up_params p s) "tools" = false.
Proof.
  intros p s. unfold openai_follow_up_params, openai_options.
  destruct (stream_options p); destruct (temperature p); reflexivity.
Qed.

Lemma anthropic_follow_up_unchecked :
  forall p s, smem (anthropic_follow_up_params p s) "tools" = false.
Proof.
  intros p s. unfold anthropic_follow_up_params, anthropic_options.
  destruct (max_tokens p); destruct (system_message p); reflexivity.
Qed.



(** ** More about the schema normalizer *)

Lemma required_fold_extends :
  forall keys req,
    exists extra,
      fold_left (fun r k => if in_list_str k r then r else r ++ [JStr k]) keys req
      = req ++ extra /\
      Forall (fun x => exists k, x = JStr k /\ In k keys) extra.
Proof.
  induction keys as [|k0 keys IH]; intros req; simpl.
  - exists []. rewrite app_nil_r. auto.
  - destruct (in_list_str k0 req).
    + destruct (IH req) as [extra [H1 H2]]. exists extra. split; [exact H1|].
      eapply Forall_impl; [|exact H2]. intros x [k [Hx Hk]]. exists k. auto.
    + destruct (IH (req ++ [JStr k0])) as [extra [H1 H2]].
      exists (JStr k0 :: extra). rewrite H1, <- app_assoc. split; [reflexivity|].
      constructor; [exists k0; auto|].
      eapply Forall_impl; [|exact H2]. intros x [k [Hx Hk]]. exists k. auto.
Qed.

Lemma filter_schema_required :
  forall s props,
    sget s "properties" = Some (JObj props) ->
    sget (fst (filter_mcp_input_schema s)) "required"
    = sget (ensure_required s props) "required".
Proof.
  intros s props Hp. unfold filter_mcp_input_schema. rewrite Hp.
  destruct (filter_properties props) as [props' [ex|]]; simpl.
  - apply sget_sset_other. discriminate.
  - destruct (smem _ "additionalProperties");
      rewrite ?sget_sset_other by discriminate; reflexivity.
Qed.

(** X1: When a schema has [properties], the normalizer leaves [required] a
    list that has every property key, also when it raises later on: a
    list that was there keeps its entries, in place, and gets the missing
    keys appended; anything else is replaced by the list of keys. *)
Theorem normalize_requires_every_property :
  forall (s props : dict),
    sget s "properties" = Some (JObj props) ->
    exists req,
      sget (fst (filter_mcp_input_schema s)) "required" = Some (JArr req) /\
      (forall k, In k (dict_keys props) -> in_list_str k req = true) /\
      match sget s "required" with
      | Some (JArr old) =>
          exists extra,
            req = old ++ extra /\
            Forall (fun x => exists k, x = JStr k /\ In k (dict_keys props)) extra
      | _ => req = map JStr (dict_keys props)
      end.
Proof.
  intros s props Hp. rewrite (filter_schema_required s props Hp).
  unfold ensure_required.
  destruct (sget s "required") as [[| | | |old|]|] eqn:Er;
    try (exists (map JStr (dict_keys props)); split; [apply sget_sset_same|];
         split; [apply in_list_str_map_JStr | reflexivity]).
  eexists. split; [apply sget_sset_same|]. split.
  - intros k Hk. apply required_fold_covers. exact Hk.
  - apply required_fold_extends.
Qed.

Lemma normalize_requires_every_property_witness :
  sget nullable_schema "properties"
  = Some (JObj [ ("q", JObj [ ("type", JArr [ JStr "string"; JStr "null" ]);
                              ("default", JNull) ]);
                 ("n", JObj [ ("type", JStr "integer") ]) ]) /\
  sget (fst (filter_mcp_input_schema nullable_schema)) "required"
  = Some (JArr [ JStr "q"; JStr "n" ]).
Proof.
  split; [reflexivity|].
  destruct (normalize_requires_every_property nullable_schema _ eq_refl)
    as [req [H _]].
  rewrite H. vm_compute in H. inversion H. reflexivity.
Defined.

Lemma collapse_type_default :
  forall d, sget (fst (collapse_type d)) "default" = sget d "default".
Proof.
  intros d. unfold collapse_type.
  destruct (sget d "type") as [[| | | |ts|]|]; try reflexivity.
  destruct (in_list_str "null" ts).
  - destruct (filter (fun t => negb (is_str "null" t)) ts); simpl; [reflexivity|].
    rewrite !sget_sset_other by discriminate. reflexivity.
  - destruct ts; simpl; [reflexivity|].
    rewrite sget_sset_other by discriminate. reflexivity.
Qed.

Lemma filter_property_no_default :
  forall v d', fst (filter_property v) = JObj d' -> sget d' "default" = None.
Proof.
  intros v d' H. destruct v as [| | | s | xs | d]; simpl in H;
    try discriminate.
  - destruct (is_substring "default" s); [discriminate|].
    destruct (is_substring "type" s); discriminate.
  - destruct (in_list_str "default" xs); [discriminate|].
    destruct (in_list_str "type" xs); discriminate.
  - pose proof (collapse_type_default (if smem d "default" then sdel d "default" else d))
      as Hc.
    destruct (collapse_type (if smem d "default" then sdel d "default" else d))
      as [d2 e] eqn:Ec.
    simpl in H, Hc. inversion H; subst d2. rewrite Hc.
    rewrite smem_sget. destruct (sget d "default") eqn:E.
    + apply sget_sdel_same.
    + exact E.
Qed.

Lemma filter_properties_keys :
  forall props, dict_keys (fst (filter_properties props)) = dict_keys props.
Proof.
  induction props as [|[k v] props IH]; simpl; [reflexivity|].
  destruct (filter_property v) as [v' [ex|]]; simpl; [reflexivity|].
  destruct (filter_properties props) as [rest' e']. simpl in *. rewrite IH. reflexivity.
Qed.

Lemma filter_properties_In :
  forall props props' k v',
    filter_properties props = (props', None) ->
    In (k, v') props' ->
    exists v, In (k, v) props /\ filter_property v = (v', None).
Proof.
  induction props as [|[k0 v0] props IH]; intros props' k v' H Hin; simpl in H.
  - inversion H; subst. contradiction.
  - destruct (filter_property v0) as [v0' [ex|]] eqn:Ev; [discriminate|].
    destruct (filter_properties props) as [rest' e'] eqn:Er.
    inversion H; subst props' e'. destruct Hin as [Hin|Hin].
    + inversion Hin; subst. exists v0. split; [left; reflexivity | exact Ev].
    + destruct (IH rest' k v' eq_refl Hin) as [v [H1 H2]].
      exists v. split; [right; exact H1 | exact H2].
Qed.

Lemma filter_schema_properties :
  forall s s' props,
    sget s "properties" = Some (JObj props) ->
    filter_mcp_input_schema s = (s', None) ->
    filter_properties props = (fst (filter_properties props), None) /\
    sget s' "properties" = Some (JObj (fst (filter_properties props))).
Proof.
  intros s s' props Hp H. unfold filter_mcp_input_schema in H. rewrite Hp in H.
  destruct (filter_properties props) as [props' [ex|]]; [discriminate|].
  split; [reflexivity|]. simpl.
  destruct (smem _ "additionalProperties"); inversion H; subst s';
    rewrite ?sget_sset_other by discriminate; apply sget_sset_same.
Qed.

(** X2: A normalization that returns keeps the properties, under their keys
    and in their order, and leaves no property with a [default]. *)
Theorem normalize_strips_defaults :
  forall (s s' props : dict),
    sget s "properties" = Some (JObj props) ->
    filter_mcp_input_schema s = (s', None) ->
    exists props',
      sget s' "properties" = Some (JObj props') /\
      dict_keys props' = dict_keys props /\
      forall k d, In (k, JObj d) props' -> sget d "default" = None.
Proof.
  intros s s' props Hp H.
  destruct (filter_schema_properties s s' props Hp H) as [Hf Hs].
  exists (fst (filter_properties props)). split; [exact Hs|].
  split; [apply filter_properties_keys|].
  intros k d Hin.
  destruct (filter_properties_In props _ k (JObj d) Hf Hin) as [v [_ Hv]].
  apply (filter_property_no_default v d). rewrite Hv. reflexivity.
Qed.

Lemma normalize_strips_defaults_witness :
  filter_mcp_input_schema nullable_schema
  = (fst (filter_mcp_input_schema nullable_schema), None) /\
  exists props',
    sget (fst (filter_mcp_input_schema nullable_schema)) "properties" = Some (JObj props') /\
    dict_keys props' = ["q"; "n"] /\
    forall k d, In (k, JObj d) props' -> sget d "default" = None.
Proof.
  split; [reflexivity|].
  apply (normalize_strips_defaults nullable_schema _ _ eq_refl eq_refl).
Defined.

Lemma filter_all_null :
  forall ts,
    filter (fun t => negb (is_str "null" t)) ts = [] ->
    forallb (is_str "null") ts = true.
Proof.
  induction ts as [|t ts IH]; simpl; intros H; [reflexivity|].
  destruct (is_str "null" t); simpl in *; [apply IH; exact H | discriminate].
Qed.

Lemma collapse_type_leaves_nulls :
  forall d d' ts,
    flat_property (JObj d) = true ->
    collapse_type d = (d', None) ->
    sget d' "type" = Some (JArr ts) ->
    ts <> [] /\ forallb (is_str "null") ts = true.
Proof.
  intros d d' ts Hflat H Ht. unfold collapse_type in H. simpl in Hflat.
  destruct (sget d "type") as [[| | | |ts0|]|] eqn:E;
    try (inversion H; subst d'; congruence).
  destruct (in_list_str "null" ts0) eqn:En.
  - destruct (filter (fun t => negb (is_str "null" t)) ts0) as [|t rest] eqn:Ef.
    + inversion H; subst d'. rewrite E in Ht. inversion Ht; subst ts0.
      split; [intros ->; discriminate | apply filter_all_null; exact Ef].
    + inversion H; subst d'.
      rewrite sget_sset_other, sget_sset_same in Ht by discriminate.
      inversion Ht; subst t.
      assert (Hin : In (JArr ts) ts0).
      { assert (In (JArr ts) (JArr ts :: rest)) as Hi by (left; reflexivity).
        rewrite <- Ef in Hi. apply filter_In in Hi. tauto. }
      rewrite forallb_forall in Hflat. specialize (Hflat _ Hin). discriminate.
  - destruct ts0 as [|t rest]; [discriminate|].
    inversion H; subst d'. rewrite sget_sset_same in Ht. inversion Ht; subst t.
    simpl in Hflat. discriminate.
Qed.

(** X3: On a schema whose type lists hold no lists, a normalization that
    returns leaves a list-valued [type] only where every entry of the
    list is ["null"]: such a list has no other type to collapse to and
    stays as it is. *)
Theorem normalize_collapses_type_lists :
  forall (s s' props' : dict) (k : string) (d : dict) (ts : list JSON),
    flat_types s = true ->
    filter_mcp_input_schema s = (s', None) ->
    sget s' "properties" = Some (JObj props') ->
    In (k, JObj d) props' ->
    sget d "type" = Some (JArr ts) ->
    ts <> [] /\ forallb (is_str "null") ts = true.
Proof.
  intros s s' props' k d ts Hflat H Hp' Hin Ht.
  unfold flat_types in Hflat.
  destruct (sget s "properties") as [[| | | | |props]|] eqn:Hp;
    try (unfold filter_mcp_input_schema in H; rewrite Hp in H;
         inversion H; subst s'; congruence).
  destruct (filter_schema_properties s s' props Hp H) as [Hf Hs].
  rewrite Hs in Hp'. inversion Hp'; subst props'.
  destruct (filter_properties_In props _ k (JObj d) Hf Hin) as [v [Hv Hfv]].
  rewrite forallb_forall in Hflat. specialize (Hflat (k, v) Hv). simpl in Hflat.
  destruct v as [| | | sv | xs | d0]; simpl in Hfv; try discriminate.
  - destruct (is_substring "default" sv); [discriminate|].
    destruct (is_substring "type" sv); discriminate.
  - destruct (in_list_str "default" xs); [discriminate|].
    destruct (in_list_str "type" xs); discriminate.
  - set (d1 := if smem d0 "default" then sdel d0 "default" else d0) in *.
    assert (Ht1 : sget d1 "type" = sget d0 "type").
    { unfold d1. destruct (smem d0 "default"); auto.
      apply sget_sdel_other. discriminate. }
    destruct (collapse_type d1) as [d2 e] eqn:Ec. inversion Hfv; subst d2 e.
    apply (collapse_type_leaves_nulls d1 d ts); auto.
    simpl in *. rewrite Ht1. exact Hflat.
Qed.

Lemma normalize_collapses_type_lists_witness :
  let s := [ ("properties", JObj [ ("x", JObj [ ("type", JArr [ JStr "null" ]) ]) ]) ] in
  flat_types s = true /\
  sget (fst (filter_mcp_input_schema s)) "properties"
  = Some (JObj [ ("x", JObj [ ("type", JArr [ JStr "null" ]) ]) ]) /\
  forallb (is_str "null") [ JStr "null" ] = true.
Proof.
  intros s. split; [reflexivity|]. split; [reflexivity|].
  apply (proj2 (normalize_collapses_type_lists s _ _ "x" _ [ JStr "null" ]
                  eq_refl eq_refl eq_refl (or_introl eq_refl) eq_refl)).
Defined.

Lemma filter_property_empty_type :
  forall d,
    sget d "type" = Some (JArr []) ->
    snd (filter_property (JObj d)) = Some (IndexError "list index out of range").
Proof.
  intros d Ht. simpl.
  assert (H1 : sget (if smem d "default" then sdel d "default" else d) "type"
               = Some (JArr [])).
  { destruct (smem d "default"); [|exact Ht].
    rewrite sget_sdel_other by discriminate. exact Ht. }
  unfold collapse_type. rewrite H1. reflexivity.
Qed.

Lemma filter_properties_empty_type :
  forall props k d,
    In (k, JObj d) props ->
    sget d "type" = Some (JArr []) ->
    snd (filter_properties props) <> None.
Proof.
  induction props as [|[k0 v0] props IH]; intros k d Hin Ht; [contradiction|].
  simpl. destruct (filter_property v0) as [v0' [ex|]] eqn:Ev; simpl; [discriminate|].
  destruct Hin as [Hin|Hin].
  - inversion Hin; subst. rewrite (surjective_pairing (filter_property (JObj d))) in Ev.
    rewrite (filter_property_empty_type d Ht) in Ev. discriminate.
  - specialize (IH k d Hin Ht).
    destruct (filter_properties props) as [rest' e']. exact IH.
Qed.

(** X4: A property whose [type] is the empty list makes the normalizer
    raise: it never returns a schema for it. *)
Theorem normalize_empty_type_list_raises :
  forall (s props : dict) (k : string) (d : dict),
    sget s "properties" = Some (JObj props) ->
    In (k, JObj d) props ->
    sget d "type" = Some (JArr []) ->
    snd (filter_mcp_input_schema s) <> None.
Proof.
  intros s props k d Hp Hin Ht. unfold filter_mcp_input_schema. rewrite Hp.
  pose proof (filter_properties_empty_type props k d Hin Ht) as H.
  destruct (filter_properties props) as [props' [ex|]]; simpl in *;
    [discriminate | contradiction].
Qed.

Lemma normalize_empty_type_list_raises_witness :
  let d := [ ("type", JArr []) ] in
  let s := [ ("properties", JObj [ ("x", JObj d) ]) ] in
  sget d "type" = Some (JArr []) /\ snd (filter_mcp_input_schema s) <> None.
Proof.
  intros d s. split; [reflexivity|].
  apply (normalize_empty_type_list_raises s [ ("x", JObj d) ] "x" d eq_refl
           (or_introl eq_refl) eq_refl).
Defined.

(** X5: The normalizer touches three keys of a schema and no other:
    [required], [properties] and [additionalProperties].  A schema
    without [properties] is returned as it is, with no
    [additionalProperties] added; with [properties], a normalization that
    returns keeps an [additionalProperties] that was there and sets a
    missing one to [false]. *)
Theorem normalize_touches_three_keys :
  forall s : dict,
    (sget s "properties" = None -> filter_mcp_input_schema s = (s, None)) /\
    (forall k,
        k <> "required" -> k <> "properties" -> k <> "additionalProperties" ->
        sget (fst (filter_mcp_input_schema s)) k = sget s k) /\
    (forall s' props,
        sget s "properties" = Some (JObj props) ->
        filter_mcp_input_schema s = (s', None) ->
        sget s' "additionalProperties"
        = Some (match sget s "additionalProperties" with
                | Some v => v
                | None => JBool false
                end)).
Proof.
  intros s. split; [|split].
  - intros H. unfold filter_mcp_input_schema. rewrite H. reflexivity.
  - intros k H1 H2 H3. unfold filter_mcp_input_schema.
    assert (He : forall props, sget (ensure_required s props) k = sget s k).
    { intros props. unfold ensure_required.
      destruct (sget s "required") as [[| | | |req|]|];
        apply sget_sset_other; congruence. }
    destruct (sget s "properties") as [[| | | | |props]|]; try reflexivity.
    destruct (filter_properties props) as [props' [ex|]]; simpl.
    + rewrite sget_sset_other by congruence. apply He.
    + destruct (smem _ "additionalProperties");
        rewrite ?sget_sset_other by congruence; apply He.
  - intros s' props Hp H. unfold filter_mcp_input_schema in H. rewrite Hp in H.
    destruct (filter_properties props) as [props' [ex|]]; [discriminate|].
    assert (Ha : sget (sset (ensure_required s props) "properties" (JObj props'))
                      "additionalProperties"
                 = sget s "additionalProperties").
    { rewrite sget_sset_other by discriminate. unfold ensure_required.
      destruct (sget s "required") as [[| | | |req|]|];
        apply sget_sset_other; discriminate. }
    rewrite smem_sget, Ha in H.
    destruct (sget s "additionalProperties") as [v|] eqn:E; inversion H; subst s'.
    + rewrite Ha. reflexivity.
    + apply sget_sset_same.
Qed.

Lemma normalize_touches_three_keys_witness :
  sget nullable_schema "properties"
  = Some (JObj [ ("q", JObj [ ("type", JArr [ JStr "string"; JStr "null" ]);
                              ("default", JNull) ]);
                 ("n", JObj [ ("type", JStr "integer") ]) ]) /\
  sget (fst (filter_mcp_input_schema nullable_schema)) "additionalProperties"
  = Some (JBool false).
Proof.
  split; [reflexivity|].
  apply (proj2 (proj2 (normalize_touches_three_keys nullable_schema))
           (fst (filter_mcp_input_schema nullable_schema)) _ eq_refl eq_refl).
Defined.

(** ** More about the registry *)

Lemma app_one_neq : forall (A : Type) (l : list A) (x : A), l ++ [x] <> l.
Proof.
  intros A l x H. apply (f_equal (@length A)) in H.
  rewrite length_app in H. simpl in H. lia.
Qed.

Lemma sessions_get_set_same :
  forall (d : list (string * Session)) k v,
    dict_get String.eqb (dict_set String.eqb d k v) k = Some v.
Proof. intros. apply (dict_get_set_same _ _ String.eqb String.eqb_eq). Qed.

Lemma sessions_get_set_other :
  forall (d : list (string * Session)) k k' v,
    k <> k' -> dict_get String.eqb (dict_set String.eqb d k v) k' = dict_get String.eqb d k'.
Proof. intros. apply (dict_get_set_other _ _ String.eqb String.eqb_eq). assumption. Qed.

Section RegistryMore.
Context {env : Env}.

(** What connecting one backend does, when it succeeds. *)
Lemma initialize_sse_cons_ok :
  forall mcp rest s s',
    initialize_sse (mcp :: rest) s = (s', Ok tt) ->
    exists t session,
      sse_client (trace s) (sse_url mcp) = Ok t /\
      ClientSession (trace s ++ [EvSseClient (sse_url mcp)]) t = Ok session /\
      initialize_sse rest
        (mkSt (dict_set String.eqb (sessions s) (mcp_name mcp) session)
              (CtxSession session :: CtxTransport t :: exit_stack s)
              (tool_map s) (tools s) (chat_messages s)
              (trace s ++ [EvSseClient (sse_url mcp); EvClientSession t;
                           EvSessionInitialize session])
              (out s))
      = (s', Ok tt).
Proof.
  intros mcp rest s s' H. destruct s as [ss es tm ts cm tr ou].
  cbn [initialize_sse] in H. run_in H. cbn in H.
  repeat case_result H; try discriminate.
  unfold set_sessions, set_exit_stack, set_trace in *.
  cbn [sessions exit_stack tool_map tools chat_messages trace out] in *.
  rewrite <- app_assoc in E1, H. cbn [app] in E1, H.
  rewrite <- app_assoc in H. cbn [app] in H.
  exists a, a0. cbn [sessions exit_stack tool_map tools chat_messages trace out].
  auto.
Qed.

Lemma initialize_sse_registers :
  forall l s s',
    initialize_sse l s = (s', Ok tt) ->
    (forall mcp, In mcp l -> dict_mem String.eqb (sessions s') (mcp_name mcp) = true) /\
    (forall server_name,
        ~ In server_name (map mcp_name l) ->
        dict_get String.eqb (sessions s') server_name
        = dict_get String.eqb (sessions s) server_name) /\
    length (trace s') = length (trace s) + 3 * length l /\
    tool_map s' = tool_map s /\ tools s' = tools s /\
    chat_messages s' = chat_messages s /\ out s' = out s.
Proof.
  induction l as [|mcp rest IH]; intros s s' H.
  - simpl in H. inversion H; subst s'. simpl.
    repeat split; try reflexivity; try lia; try contradiction.
  - pose proof (stays_initialize_sse rest) as Hstay.
    destruct (initialize_sse_cons_ok mcp rest s s' H) as [t [session [_ [_ H1]]]].
    specialize (Hstay (mkSt (dict_set String.eqb (sessions s) (mcp_name mcp) session)
                            (CtxSession session :: CtxTransport t :: exit_stack s)
                            (tool_map s) (tools s) (chat_messages s)
                            (trace s ++ [EvSseClient (sse_url mcp); EvClientSession t;
                                         EvSessionInitialize session])
                            (out s))).
    rewrite H1 in Hstay. destruct Hstay as [_ [_ Hkeep]]. cbn [fst sessions] in Hkeep.
    destruct (IH _ _ H1) as [Hin [Hout [Hlen [Htm [Hts [Hcm Hou]]]]]].
    cbn [sessions exit_stack tool_map tools chat_messages trace out] in *.
    split; [|split; [|split]].
    + intros m [Hm|Hm].
      * subst m. apply Hkeep. unfold dict_mem. rewrite sessions_get_set_same. reflexivity.
      * apply Hin. exact Hm.
    + intros n Hn. simpl in Hn. rewrite Hout by tauto.
      apply sessions_get_set_other. tauto.
    + rewrite Hlen, length_app. simpl. lia.
    + auto.
Qed.

Lemma initialize_sse_only :
  forall l s, initialize [] l s = initialize_sse l s.
Proof.
  intros l s. rewrite initialize_reraises. reflexivity.
Qed.

Lemma list_tools_from_asks :
  forall ss acc s,
    same_fields s (fst (list_tools_from ss acc s)) /\
    exists asked rest,
      ss = asked ++ rest /\
      trace (fst (list_tools_from ss acc s))
      = trace s ++ map (fun ns => EvListTools (snd ns)) asked /\
      match snd (list_tools_from ss acc s) with
      | Ok _ => rest = []
      | Raise e =>
          exists pre server_name session,
            asked = pre ++ [(server_name, session)] /\
            session_list_tools (trace s ++ map (fun ns => EvListTools (snd ns)) pre) session
            = Raise e
      end.
Proof.
  induction ss as [|[server_name session] rest IH]; intros acc s.
  - simpl. split; [repeat split|]. exists [], []. simpl. rewrite app_nil_r. auto.
  - cbn [list_tools_from]. rewrite bind_await.
    destruct (session_list_tools (trace s) session) as [listed|e] eqn:E.
    + destruct (IH (register_tools server_name listed acc)
                   (set_trace (trace s ++ [EvListTools session]) s))
        as [Hsame [asked [rest' [Hss [Htr Hend]]]]].
      split; [exact Hsame|].
      exists ((server_name, session) :: asked), rest'. subst rest.
      split; [reflexivity|]. split.
      * rewrite Htr. simpl. rewrite <- app_assoc. reflexivity.
      * destruct (snd (list_tools_from (asked ++ rest') (register_tools server_name listed acc)
                         (set_trace (trace s ++ [EvListTools session]) s))) as [r|e].
        -- exact Hend.
        -- destruct Hend as [pre [n' [session' [Ha He]]]].
           exists ((server_name, session) :: pre), n', session'. subst asked.
           split; [reflexivity|]. simpl in He. rewrite <- app_assoc in He. exact He.
    + simpl. split; [repeat split|].
      exists [(server_name, session)], rest. split; [reflexivity|]. split; [reflexivity|].
      exists [], server_name, session. simpl. rewrite app_nil_r. auto.
Qed.

Lemma find_app_first :
  forall (A : Type) (f : A -> bool) l1 l2,
    find f (l1 ++ l2) = match find f l1 with Some x => Some x | None => find f l2 end.
Proof.
  induction l1 as [|x l1 IH]; intros l2; simpl; [reflexivity|].
  destruct (f x); auto.
Qed.

Lemma tool_named_none :
  forall n ct, tool_named n ct = None <-> ~ In n (map name ct).
Proof.
  intros n ct. unfold tool_named. induction ct as [|t ct IH]; simpl.
  - tauto.
  - destruct (String.eqb (name t) n) eqn:E.
    + apply String.eqb_eq in E. split; [discriminate | intros H; exfalso; apply H; auto].
    + apply String.eqb_neq in E. rewrite IH. tauto.
Qed.

Lemma register_tools_named :
  forall server_name listed tm ct n,
    consistent (tm, ct) ->
    tool_named n (snd (register_tools server_name listed (tm, ct)))
    = match tool_named n ct with
      | Some tool => Some tool
      | None => tool_named n listed
      end.
Proof.
  induction listed as [|tool rest IH]; intros tm ct n Hc.
  - simpl. destruct (tool_named n ct); reflexivity.
  - cbn [register_tools].
    destruct (dict_mem String.eqb tm (name tool)) eqn:Em.
    + rewrite (IH tm ct n Hc).
      destruct (tool_named n ct) eqn:En; [reflexivity|].
      unfold tool_named at 2. simpl.
      destruct (String.eqb (name tool) n) eqn:E; [|reflexivity].
      apply String.eqb_eq in E. subst n. exfalso.
      apply tool_named_none in En. apply En.
      destruct Hc as [Hk _]. simpl in Hk. rewrite Hk.
      unfold dict_mem in Em.
      destruct (dict_get String.eqb tm (name tool)) eqn:Eg; [|discriminate].
      apply (dict_get_In_keys _ _ String.eqb String.eqb_eq _ _ _ Eg).
    + assert (Hc' : consistent (dict_set String.eqb tm (name tool) server_name,
                                ct ++ [tool])).
      { pose proof (register_tools_consistent server_name [tool] (tm, ct) Hc) as H.
        cbn [register_tools] in H. rewrite Em in H. exact H. }
      rewrite (IH _ _ n Hc'). unfold tool_named. rewrite find_app_first.
      destruct (find (fun t => String.eqb (name t) n) ct); [reflexivity|].
      simpl. destruct (String.eqb (name tool) n); reflexivity.
Qed.

Lemma lists_tool_named :
  forall n server_name listed,
    lists_tool n (server_name, listed) = false -> tool_named n listed = None.
Proof.
  intros n server_name listed. unfold lists_tool, tool_named. simpl.
  induction listed as [|t rest IH]; simpl; [reflexivity|].
  destruct (String.eqb (name t) n); simpl; [discriminate | exact IH].
Qed.

Lemma lists_tool_named_some :
  forall n server_name listed,
    lists_tool n (server_name, listed) = true -> tool_named n listed <> None.
Proof.
  intros n server_name listed. unfold lists_tool, tool_named. simpl.
  induction listed as [|t rest IH]; simpl; [discriminate|].
  destruct (String.eqb (name t) n); simpl; [discriminate | exact IH].
Qed.

Lemma register_all_named :
  forall ls acc n,
    consistent acc ->
    tool_named n (snd (register_all ls acc))
    = match tool_named n (snd acc) with
      | Some tool => Some tool
      | None => first_listed ls n
      end.
Proof.
  induction ls as [|[server_name listed] ls IH]; intros [tm ct] n Hc.
  - simpl. destruct (tool_named n ct); reflexivity.
  - change (register_all ((server_name, listed) :: ls) (tm, ct))
      with (register_all ls (register_tools server_name listed (tm, ct))).
    pose proof (register_tools_consistent server_name listed (tm, ct) Hc) as Hc'.
    rewrite (IH _ n Hc').
    destruct (register_tools server_name listed (tm, ct)) as [tm' ct'] eqn:Er.
    assert (Hn := register_tools_named server_name listed tm ct n Hc).
    rewrite Er in Hn. cbn [snd] in *. rewrite Hn.
    destruct (tool_named n ct) eqn:En; [reflexivity|].
    unfold first_listed. cbn [find].
    destruct (lists_tool n (server_name, listed)) eqn:El.
    + pose proof (lists_tool_named_some n server_name listed El) as Hs.
      fold (tool_named n listed).
      destruct (tool_named n listed) eqn:Et; [reflexivity | contradiction].
    + rewrite (lists_tool_named n server_name listed El).
      fold (first_listed ls n). reflexivity.
Qed.

Lemma consistent_empty : consistent ([], []).
Proof. split; [reflexivity | constructor]. Qed.
End RegistryMore.

(** X6: [initialize()] that returns has a session registered under the name
    of every backend configured, has left the sessions under other names
    as they were, and has made three calls for each backend (connect, open
    the session, initialize it); it touches neither the routing table nor
    the messages nor the output. *)
Theorem initialize_registers_every_backend :
  forall (env : Env) (l : list MCPServerModel) (s s' : St),
    initialize [] l s = (s', Ok tt) ->
    (forall mcp, In mcp l -> dict_mem String.eqb (sessions s') (mcp_name mcp) = true) /\
    (forall server_name,
        ~ In server_name (map mcp_name l) ->
        dict_get String.eqb (sessions s') server_name
        = dict_get String.eqb (sessions s) server_name) /\
    length (trace s') = length (trace s) + 3 * length l /\
    tool_map s' = tool_map s /\ tools s' = tools s /\
    chat_messages s' = chat_messages s /\ out s' = out s.
Proof.
  intros env l s s' H. rewrite initialize_sse_only in H.
  apply initialize_sse_registers. exact H.
Qed.

Lemma initialize_registers_every_backend_witness :
  @initialize searching_world [] [server_a; server_b] init_state
  = (fst (@initialize searching_world [] [server_a; server_b] init_state), Ok tt) /\
  dict_mem String.eqb
    (sessions (fst (@initialize searching_world [] [server_a; server_b] init_state)))
    (mcp_name server_b) = true.
Proof.
  split; [reflexivity|].
  apply (proj1 (initialize_registers_every_backend searching_world
                  [server_a; server_b] init_state _ eq_refl)).
  right. left. reflexivity.
Defined.

(** X7: Two backends configured under one name: the name ends up with the
    session of the one connected last, whatever was registered under it
    before, while the contexts of every backend connected, the replaced
    one among them, stay on the exit stack. *)
Theorem duplicate_backend_name_last_wins :
  forall (env : Env) (pre : list MCPServerModel) (mcp : MCPServerModel)
         (post : list MCPServerModel) (s s1 s' : St),
    initialize_sse pre s = (s1, Ok tt) ->
    initialize_sse (mcp :: post) s1 = (s', Ok tt) ->
    ~ In (mcp_name mcp) (map mcp_name post) ->
    exists t session,
      sse_client (trace s1) (sse_url mcp) = Ok t /\
      ClientSession (trace s1 ++ [EvSseClient (sse_url mcp)]) t = Ok session /\
      initialize [] (pre ++ mcp :: post) s = (s', Ok tt) /\
      dict_get String.eqb (sessions s') (mcp_name mcp) = Some session /\
      length (exit_stack s') = length (exit_stack s) + 2 * length (pre ++ mcp :: post).
Proof.
  intros env pre mcp post s s1 s' H1 H2 Hn.
  assert (Hall : initialize_sse (pre ++ mcp :: post) s = (s', Ok tt)).
  { rewrite initialize_sse_app. rewrite (bind_ok _ _ _ _ _ _ _ H1). exact H2. }
  destruct (initialize_sse_cons_ok mcp post s1 s' H2) as [t [session [Ht [Hs Hr]]]].
  exists t, session. split; [exact Ht|]. split; [exact Hs|].
  split; [rewrite initialize_sse_only; exact Hall|]. split.
  - destruct (initialize_sse_registers post _ _ Hr) as [_ [Hout _]].
    rewrite (Hout _ Hn). cbn [sessions]. apply sessions_get_set_same.
  - apply connected_backends_open. exact Hall.
Qed.

Lemma duplicate_backend_name_last_wins_witness :
  let s1 := fst (@initialize_sse searching_world [server_a] init_state) in
  let s' := fst (@initialize_sse searching_world [server_a_again] s1) in
  sessions s1 = [ ("a", 1) ] /\
  sessions s' = [ ("a", 4) ] /\
  exists t session,
    @initialize searching_world [] ([server_a] ++ server_a_again :: []) init_state
    = (s', Ok tt) /\
    dict_get String.eqb (sessions s') "a" = Some session /\
    length (exit_stack s') = 4 /\ t = 3 /\ session = 4.
Proof.
  intros s1 s'. split; [reflexivity|]. split; [reflexivity|].
  destruct (duplicate_backend_name_last_wins searching_world [server_a] server_a_again []
              init_state s1 s' eq_refl eq_refl (fun H => H))
    as [t [session [Ht [Hs [Hi [Hg Hl]]]]]].
  exists t, session. split; [exact Hi|]. split; [exact Hg|]. split; [exact Hl|].
  vm_compute in Ht, Hs. inversion Ht. subst t. inversion Hs. auto.
Defined.

(** X8: [list_tools()] asks the sessions in the order they were registered,
    one request each, and stops at the first session whose request
    raises: that exception is what it raises, and the sessions after it
    are not asked.  It changes nothing of the registry: the routing table
    it computes is returned, not kept. *)
Theorem list_tools_stops_at_first_failure :
  forall (env : Env) (s : St),
    same_fields s (fst (list_tools s)) /\
    exists asked rest,
      sessions s = asked ++ rest /\
      trace (fst (list_tools s))
      = trace s ++ map (fun ns => EvListTools (snd ns)) asked /\
      match snd (list_tools s) with
      | Ok _ => rest = []
      | Raise e =>
          exists pre server_name session,
            asked = pre ++ [(server_name, session)] /\
            session_list_tools (trace s ++ map (fun ns => EvListTools (snd ns)) pre) session
            = Raise e
      end.
Proof.
  intros env s. unfold list_tools. rewrite bind_gets.
  apply list_tools_from_asks.
Qed.

(** X9: The tool object [list_tools()] returns for a name is the first of
    that name in the listing of the first session that lists it: its
    description and schema come from that server, and a second tool of
    that name in the same listing is dropped as well. *)
Theorem list_tools_keeps_first_tool_object :
  forall (env : Env) (s s' : St) (ls : list (string * list Tool))
         (routing : list (string * string)) (consolidated : list Tool),
    listings_of (sessions s) (trace s) = Ok ls ->
    list_tools s = (s', Ok (routing, consolidated)) ->
    forall tool_name, tool_named tool_name consolidated = first_listed ls tool_name.
Proof.
  intros env s s' ls routing consolidated Hl H tool_name.
  unfold list_tools in H. rewrite bind_gets in H.
  destruct (list_tools_from_listings (sessions s) ([], []) s ls Hl) as [_ [s2 H2]].
  rewrite H2 in H.
  assert (Hr : register_all ls ([], []) = (routing, consolidated)) by congruence.
  pose proof (register_all_named ls ([], []) tool_name consistent_empty) as Hn.
  rewrite Hr in Hn. exact Hn.
Qed.

Lemma list_tools_keeps_first_tool_object_witness :
  @listings_of shadowing_world (sessions two_sessions) (trace two_sessions)
  = Ok [ ("a", [search_tool; search_shadow]); ("b", [search_tool; search_shadow]) ] /\
  tool_named "search" (snd (register_all
                              [ ("a", [search_tool; search_shadow]);
                                ("b", [search_tool; search_shadow]) ] ([], [])))
  = Some search_tool.
Proof.
  split; [reflexivity|].
  apply (list_tools_keeps_first_tool_object shadowing_world two_sessions
           (fst (@list_tools shadowing_world two_sessions)) _ _ _ eq_refl eq_refl "search").
Defined.

(** X10: [call_tool] returns [None] exactly when it called no session: a tool
    whose session was asked yields a text or an exception.  It makes at
    most one call, to the session registered for the server the routing
    table names, with the tool name and the arguments it was given, and
    changes nothing else. *)
Theorem call_tool_none_means_no_call :
  forall (env : Env) (tool_name : string) (arguments : JSON)
         (tm : list (string * string)) (s : St),
    same_fields s (fst (call_tool tool_name arguments tm s)) /\
    (snd (call_tool tool_name arguments tm s) = Ok None <->
     trace (fst (call_tool tool_name arguments tm s)) = trace s) /\
    (trace (fst (call_tool tool_name arguments tm s)) = trace s \/
     exists server_name session,
       dict_get String.eqb tm tool_name = Some server_name /\
       server_name <> "" /\
       dict_get String.eqb (sessions s) server_name = Some session /\
       trace (fst (call_tool tool_name arguments tm s))
       = trace s ++ [EvCallTool session tool_name arguments]).
Proof.
  intros env tool_name arguments tm s. unfold call_tool.
  destruct (dict_get String.eqb tm tool_name) as [server_name|] eqn:Er.
  2:{ simpl. split; [repeat split|]. split; [tauto | auto]. }
  destruct server_name as [|c server_name].
  { simpl. split; [repeat split|]. split; [tauto | auto]. }
  rewrite bind_gets.
  destruct (dict_get String.eqb (sessions s) (String c server_name)) as [session|] eqn:Es.
  2:{ simpl. split; [repeat split|]. split; [tauto | auto]. }
  rewrite bind_await.
  assert (Hne : trace s ++ [EvCallTool session tool_name arguments] <> trace s)
    by apply app_one_neq.
  assert (Hex : exists server_name0 session0,
             Some (String c server_name) = Some server_name0 /\
             server_name0 <> "" /\
             dict_get String.eqb (sessions s) server_name0 = Some session0 /\
             trace s ++ [EvCallTool session tool_name arguments]
             = trace s ++ [EvCallTool session0 tool_name arguments]).
  { exists (String c server_name), session. repeat split; auto. discriminate. }
  destruct (session_call_tool (trace s) session tool_name arguments)
    as [[|[text|] content]|e]; simpl;
    (split; [repeat split|]; split; [split; [discriminate | intros H; contradiction] | right; exact Hex]).
Qed.

Section CloseMore.
Context {env : Env}.

Lemma aclose_keeps_registry :
  forall cs pending s,
    sessions (fst (aclose cs pending s)) = sessions s /\
    tool_map (fst (aclose cs pending s)) = tool_map s.
Proof.
  induction cs as [|c rest IH]; intros pending s; simpl.
  - destruct pending; simpl; auto.
  - unfold bind at 1. unfold modify at 1. unfold bind at 1.
    unfold try_, bind, await, ret. simpl.
    destruct (ctx_exit (trace s) c) as [[]|e]; simpl.
    + destruct (IH pending (set_trace (trace s ++ [EvExit c]) (set_exit_stack rest s)))
        as [H1 H2].
      rewrite H1, H2. auto.
    + destruct (IH (Some e) (set_trace (trace s ++ [EvExit c]) (set_exit_stack rest s)))
        as [H1 H2].
      rewrite H1, H2. auto.
Qed.
End CloseMore.

(** X11: A second [close()] does nothing and returns: every context was
    exited by the first, once, whatever the exits raised.  [close()]
    leaves the sessions registered and the routing as it was, so a later
    [call_tool] still finds the closed session. *)
Theorem close_twice_exits_once :
  forall (env : Env) (s : St),
    close (fst (close s)) = (fst (close s), Ok tt) /\
    count_events is_exit (fst (close s))
    = count_events is_exit s + length (exit_stack s) /\
    sessions (fst (close s)) = sessions s /\
    tool_map (fst (close s)) = tool_map s.
Proof.
  intros env s. destruct (close_exits_all s) as [H1 H2]. split; [|split].
  - unfold close at 1. rewrite bind_gets. rewrite H1. reflexivity.
  - rewrite (count_events_app is_exit s _ _ H2). f_equal. clear H1 H2.
    induction (exit_stack s) as [|c cs IH]; simpl; [reflexivity | rewrite IH; reflexivity].
  - unfold close. rewrite bind_gets. apply aclose_keeps_registry.
Qed.

(** ** More about the reassembly of tool calls *)

Lemma zkeys_set_present :
  forall (d : list (Z * ToolCall)) k v entry,
    dict_get Z.eqb d k = Some entry ->
    dict_keys (dict_set Z.eqb d k v) = dict_keys d.
Proof.
  induction d as [|[k0 v0] d IH]; intros k v entry H; simpl in *; [discriminate|].
  destruct (Z.eqb k0 k) eqn:E; simpl.
  - reflexivity.
  - unfold dict_keys in *. simpl. f_equal. apply (IH k v entry H).
Qed.

Lemma zset_absent :
  forall (d : list (Z * ToolCall)) k v,
    dict_get Z.eqb d k = None -> dict_set Z.eqb d k v = d ++ [(k, v)].
Proof.
  induction d as [|[k0 v0] d IH]; intros k v H; simpl in *; [reflexivity|].
  destruct (Z.eqb k0 k) eqn:E; [discriminate|]. rewrite (IH k v H). reflexivity.
Qed.

Lemma zget_absent_keys :
  forall (d : list (Z * ToolCall)) k,
    dict_get Z.eqb d k = None -> ~ In k (dict_keys d).
Proof.
  induction d as [|[k0 v0] d IH]; intros k H; simpl in *; [tauto|].
  destruct (Z.eqb k0 k) eqn:E; [discriminate|].
  apply Z.eqb_neq in E. intros [H1|H1]; [contradiction | exact (IH k H H1)].
Qed.

Lemma zvalues_set_present :
  forall (P : ToolCall -> Prop) (d : list (Z * ToolCall)) k v entry,
    dict_get Z.eqb d k = Some entry ->
    Forall (fun kv => P (snd kv)) d ->
    P v ->
    Forall (fun kv => P (snd kv)) (dict_set Z.eqb d k v).
Proof.
  induction d as [|[k0 v0] d IH]; intros k v entry H Hd Hv; simpl in *; [discriminate|].
  inversion Hd; subst.
  destruct (Z.eqb k0 k) eqn:E; simpl.
  - constructor; auto.
  - constructor; auto. apply (IH k v entry H); auto.
Qed.

Lemma zget_Forall :
  forall (P : ToolCall -> Prop) (d : list (Z * ToolCall)) k entry,
    dict_get Z.eqb d k = Some entry ->
    Forall (fun kv => P (snd kv)) d -> P entry.
Proof.
  induction d as [|[k0 v0] d IH]; intros k entry H Hd; simpl in *; [discriminate|].
  inversion Hd; subst.
  destruct (Z.eqb k0 k); [inversion H; subst; auto | eauto].
Qed.

(** The two things a fragment does to the locals. *)
Lemma absorb_tool_call_shape :
  forall acc tool_call,
    fst (absorb_tool_call acc tool_call) = acc \/
    (exists entry entry',
        dict_get Z.eqb (final_tool_calls acc) (tcd_index tool_call) = Some entry /\
        tc_type entry' = tc_type entry /\ tc_id entry' = tc_id entry /\
        fst (absorb_tool_call acc tool_call)
        = mkAcc (dict_set Z.eqb (final_tool_calls acc) (tcd_index tool_call) entry')
                (tool_index acc) (current_tool_index acc) (content_buffer acc)) \/
    (exists entry',
        dict_get Z.eqb (final_tool_calls acc) (tcd_index tool_call) = None /\
        tc_type entry' = "function" /\
        tc_id entry' = or_else (tcd_id tool_call) ("call_" ++ str_of_nat (tool_index acc)) /\
        fst (absorb_tool_call acc tool_call)
        = mkAcc (final_tool_calls acc ++ [(tcd_index tool_call, entry')])
                (S (tool_index acc)) (current_tool_index acc) (content_buffer acc)).
Proof.
  intros acc tool_call. unfold absorb_tool_call.
  destruct (dict_get Z.eqb (final_tool_calls acc) (tcd_index tool_call)) as [entry|] eqn:Eg;
    destruct (tcd_function tool_call) as [fn|]; simpl; auto.
  - right. left. eexists. eexists. split; [reflexivity|].
    split; [|split; [|reflexivity]];
      destruct (truthy (fn_arguments fn)); destruct (truthy (fn_name fn)); reflexivity.
  - right. right. eexists. split; [reflexivity|]. split; [|split]; cycle 2.
    + rewrite (zset_absent _ _ _ Eg). reflexivity.
    + reflexivity.
    + reflexivity.
Qed.

Lemma absorb_tool_call_locals :
  forall acc tool_call,
    openai_locals_ok acc -> openai_locals_ok (fst (absorb_tool_call acc tool_call)).
Proof.
  intros acc tool_call Hok.
  destruct (absorb_tool_call_shape acc tool_call)
    as [H|[[entry [entry' [Hg [Ht [_ H]]]]]|[entry' [Hg [Ht [_ H]]]]]]; rewrite H.
  - exact Hok.
  - destruct Hok as [Hi [Hn [Hf Hc]]]. unfold openai_locals_ok. simpl.
    rewrite (zkeys_set_present _ _ entry' entry Hg).
    split; [|split; [|split]]; auto.
    + rewrite Hi. rewrite <- (length_map fst (dict_set _ _ _ _)).
      fold (dict_keys (dict_set Z.eqb (final_tool_calls acc) (tcd_index tool_call) entry')).
      rewrite (zkeys_set_present _ _ entry' entry Hg). unfold dict_keys.
      rewrite length_map. reflexivity.
    + apply (zvalues_set_present (fun c => tc_type c = "function") _ _ _ entry Hg Hf).
      rewrite Ht. apply (zget_Forall (fun c => tc_type c = "function") _ _ _ Hg Hf).
  - destruct Hok as [Hi [Hn [Hf Hc]]]. unfold openai_locals_ok. simpl.
    rewrite length_app. simpl. split; [lia|]. split; [|split]; auto.
    + unfold dict_keys. rewrite map_app. simpl.
      apply NoDup_app; [exact Hn | repeat constructor; auto | ].
      intros x Hx [Hy|[]]. subst x. exact (zget_absent_keys _ _ Hg Hx).
    + apply Forall_app. split; [exact Hf | repeat constructor; exact Ht].
Qed.

Lemma absorb_tool_calls_locals :
  forall tool_calls acc,
    openai_locals_ok acc -> openai_locals_ok (fst (absorb_tool_calls acc tool_calls)).
Proof.
  induction tool_calls as [|tc rest IH]; intros acc Hok; simpl; [exact Hok|].
  pose proof (absorb_tool_call_locals acc tc Hok) as H1.
  destruct (absorb_tool_call acc tc) as [acc' [e|]]; simpl in *; [exact H1|].
  apply IH. exact H1.
Qed.

Lemma absorb_openai_chunk_locals :
  forall chunk acc,
    openai_locals_ok acc -> openai_locals_ok (fst (absorb_openai_chunk acc chunk)).
Proof.
  intros chunk acc Hok. unfold absorb_openai_chunk.
  destruct (choices chunk) as [|delta rest]; simpl; [exact Hok|].
  assert (H1 : openai_locals_ok
                 (fst match delta_tool_calls delta with
                      | Some tool_calls => absorb_tool_calls acc tool_calls
                      | None => (acc, None)
                      end)).
  { destruct (delta_tool_calls delta); [apply absorb_tool_calls_locals; exact Hok | exact Hok]. }
  destruct (match delta_tool_calls delta with
            | Some tool_calls => absorb_tool_calls acc tool_calls
            | None => (acc, None)
            end) as [acc1 [e|]]; simpl in *; [exact H1|].
  destruct (truthy (delta_content delta)); [|exact H1].
  exact H1.
Qed.

(** X12: Whatever the chunks of a response are, the locals of the OpenAI loop
    stay in step: [tool_index] counts the entries, so the id made up for
    an entry without one is [call_n] for the number [n] of entries before
    it; no index has two entries; every entry has type [function]; and
    [current_tool_index] is never set. *)
Theorem openai_reassembly_invariant :
  forall chunks : list OpenAIChunk,
    tool_index (openai_acc chunks new_acc)
    = length (final_tool_calls (openai_acc chunks new_acc)) /\
    NoDup (dict_keys (final_tool_calls (openai_acc chunks new_acc))) /\
    Forall (fun kv => tc_type (snd kv) = "function")
           (final_tool_calls (openai_acc chunks new_acc)) /\
    current_tool_index (openai_acc chunks new_acc) = None.
Proof.
  intros chunks.
  assert (H : forall acc, openai_locals_ok acc -> openai_locals_ok (openai_acc chunks acc)).
  { induction chunks as [|chunk rest IH]; intros acc Hok; [exact Hok|].
    unfold openai_acc. simpl. apply IH. apply absorb_openai_chunk_locals. exact Hok. }
  apply (H new_acc). repeat split; try reflexivity; constructor.
Qed.

Lemma absorb_argument_fragment :
  forall acc index f entry,
    dict_get Z.eqb (final_tool_calls acc) index = Some entry ->
    absorb_openai_chunk acc (argument_fragment index f)
    = (mkAcc (dict_set Z.eqb (final_tool_calls acc) index
                (mkCall (tc_id entry) (tc_type entry) (tc_name entry)
                        (tc_arguments entry ++ snd f)))
             (tool_index acc) (current_tool_index acc) (content_buffer acc),
       None).
Proof.
  intros acc index [id a] entry Hg.
  unfold absorb_openai_chunk, argument_fragment. cbn [choices delta_tool_calls delta_content].
  cbn [absorb_tool_calls]. unfold absorb_tool_call.
  cbn [tcd_index tcd_function tcd_id fn_name fn_arguments fst snd]. rewrite Hg.
  cbn [truthy]. destruct a as [|c a]; cbn [truthy].
  - rewrite append_nil_r. destruct entry; reflexivity.
  - reflexivity.
Qed.

(** X13: The arguments of a tool call do not depend on how the model cut them
    into fragments: the fragments for an entry that exists are appended
    in the order they arrive, empty ones included, and its id, type and
    name stay, whatever id a fragment names.  Nothing else changes. *)
Theorem argument_fragments_concatenate :
  forall (fragments : list (option string * string)) (acc : Acc) (index : Z)
         (entry : ToolCall),
    dict_get Z.eqb (final_tool_calls acc) index = Some entry ->
    dict_get Z.eqb
      (final_tool_calls (openai_acc (map (argument_fragment index) fragments) acc)) index
    = Some (mkCall (tc_id entry) (tc_type entry) (tc_name entry)
              (tc_arguments entry ++ String.concat "" (map snd fragments))) /\
    (forall j, j <> index ->
        dict_get Z.eqb
          (final_tool_calls (openai_acc (map (argument_fragment index) fragments) acc)) j
        = dict_get Z.eqb (final_tool_calls acc) j) /\
    dict_keys (final_tool_calls (openai_acc (map (argument_fragment index) fragments) acc))
    = dict_keys (final_tool_calls acc) /\
    tool_index (openai_acc (map (argument_fragment index) fragments) acc) = tool_index acc /\
    content_buffer (openai_acc (map (argument_fragment index) fragments) acc)
    = content_buffer acc.
Proof.
  induction fragments as [|f rest IH]; intros acc index entry Hg.
  - simpl. rewrite append_nil_r. destruct entry; simpl in *. repeat split; auto.
  - change (openai_acc (map (argument_fragment index) (f :: rest)) acc)
      with (openai_acc (map (argument_fragment index) rest)
              (fst (absorb_openai_chunk acc (argument_fragment index f)))).
    rewrite (absorb_argument_fragment acc index f entry Hg). cbn [fst].
    set (acc1 := mkAcc _ _ _ _).
    assert (Hg1 : dict_get Z.eqb (final_tool_calls acc1) index
                  = Some (mkCall (tc_id entry) (tc_type entry) (tc_name entry)
                            (tc_arguments entry ++ snd f)))
      by apply zget_zset_same.
    destruct (IH acc1 index _ Hg1) as [H1 [H2 [H3 [H4 H5]]]].
    split; [|split; [|split; [|split]]].
    + rewrite H1. cbn [tc_id tc_type tc_name tc_arguments]. f_equal. f_equal.
      rewrite append_assoc. f_equal.
      destruct rest as [|f2 rest2]; cbn [map String.concat];
        [rewrite append_nil_r; reflexivity | reflexivity].
    + intros j Hj. rewrite (H2 j Hj). unfold acc1. cbn [final_tool_calls].
      apply zget_zset_other. auto.
    + rewrite H3. unfold acc1. cbn [final_tool_calls].
      apply (zkeys_set_present _ _ _ entry Hg).
    + rewrite H4. reflexivity.
    + rewrite H5. reflexivity.
Qed.

Lemma argument_fragments_concatenate_witness :
  dict_get Z.eqb
    (final_tool_calls
       (openai_acc (map (argument_fragment 0) [ (None, "x"); (Some "other", ""); (None, "}") ])
                   named_acc)) 0%Z
  = Some (mkCall "call_0" "function" "search" "{x}").
Proof.
  apply (proj1 (argument_fragments_concatenate
                  [ (None, "x"); (Some "other", ""); (None, "}") ]
                  named_acc 0%Z _ eq_refl)).
Defined.

Lemma absorb_anthropic_counts :
  forall acc chunk,
    tool_index (fst (absorb_anthropic_chunk acc chunk))
    = tool_index acc + (if opens_tool chunk then 1 else 0).
Proof.
  intros acc chunk. unfold absorb_anthropic_chunk, opens_tool.
  destruct (ev_type chunk) as [ty|]; [|simpl; lia].
  destruct (String.eqb ty "content_block_start") eqn:Es.
  - destruct (ev_content_block chunk) as [block|]; [|simpl; lia].
    destruct (String.eqb (cb_type block) "tool_use"); simpl; lia.
  - assert (Hz : (if match ev_content_block chunk with
                     | Some block => false && String.eqb (cb_type block) "tool_use"
                     | None => false
                     end then 1 else 0) = 0)
      by (destruct (ev_content_block chunk); reflexivity).
    rewrite Hz.
    destruct (String.eqb ty "content_block_delta"); [|simpl; lia].
    destruct (ev_delta chunk) as [d|]; [|simpl; lia].
    destruct (bd_type d) as [dty|]; [|simpl; lia].
    destruct (String.eqb dty "input_json_delta"); [|simpl; lia].
    destruct (current_tool_index acc) as [cur|]; [|simpl; lia].
    destruct (dict_get Z.eqb (final_tool_calls acc) (Z.of_nat cur)); [|simpl; lia].
    destruct (bd_partial_json d); simpl; lia.
Qed.

Lemma seq_keys_absent :
  forall (d : list (Z * ToolCall)) n,
    dict_keys d = map Z.of_nat (seq 0 n) -> dict_get Z.eqb d (Z.of_nat n) = None.
Proof.
  intros d n H. apply (dict_get_None_keys _ _ Z.eqb Z.eqb_eq). rewrite H.
  intros Hin. apply in_map_iff in Hin. destruct Hin as [m [Hm Hs]].
  apply in_seq in Hs. lia.
Qed.

Lemma seq_keys_present :
  forall (d : list (Z * ToolCall)) n m,
    dict_keys d = map Z.of_nat (seq 0 n) -> m < n ->
    exists entry, dict_get Z.eqb d (Z.of_nat m) = Some entry.
Proof.
  intros d n m H Hm.
  destruct (dict_get Z.eqb d (Z.of_nat m)) as [entry|] eqn:E; [eauto|].
  apply (dict_get_None_keys _ _ Z.eqb Z.eqb_eq) in E. exfalso. apply E. rewrite H.
  apply in_map. apply in_seq. lia.
Qed.

Lemma absorb_anthropic_locals :
  forall acc chunk,
    anthropic_locals_ok acc -> anthropic_locals_ok (fst (absorb_anthropic_chunk acc chunk)).
Proof.
  intros acc chunk Hok. pose proof Hok as [Hk Hc]. unfold absorb_anthropic_chunk.
  destruct (ev_type chunk) as [ty|]; [|exact Hok].
  destruct (String.eqb ty "content_block_start").
  - destruct (ev_content_block chunk) as [block|]; [|exact Hok].
    destruct (String.eqb (cb_type block) "tool_use"); [|exact Hok].
    unfold anthropic_locals_ok. cbn [fst final_tool_calls tool_index current_tool_index content_buffer].
    split; [|reflexivity].
    rewrite (zset_absent _ _ _ (seq_keys_absent _ _ Hk)).
    unfold dict_keys in *. rewrite map_app, Hk, seq_S, map_app. reflexivity.
  - destruct (String.eqb ty "content_block_delta"); [|exact Hok].
    destruct (ev_delta chunk) as [d|]; [|exact Hok].
    destruct (bd_type d) as [dty|]; [|exact Hok].
    destruct (String.eqb dty "input_json_delta"); [|exact Hok].
    destruct (current_tool_index acc) as [cur|] eqn:Ecur; [|exact Hok].
    destruct (dict_get Z.eqb (final_tool_calls acc) (Z.of_nat cur)) as [entry|] eqn:Eg;
      [|exact Hok].
    destruct (bd_partial_json d) as [fragment|]; [|exact Hok].
    unfold anthropic_locals_ok. cbn [fst final_tool_calls tool_index current_tool_index content_buffer].
    rewrite (zkeys_set_present _ _ _ entry Eg). rewrite <- Ecur. auto.
Qed.

Lemma anthropic_acc_cons :
  forall chunk rest acc,
    anthropic_acc (chunk :: rest) acc
    = anthropic_acc rest (fst (absorb_anthropic_chunk acc chunk)).
Proof. reflexivity. Qed.

Lemma anthropic_acc_locals :
  forall chunks acc,
    anthropic_locals_ok acc ->
    anthropic_locals_ok (anthropic_acc chunks acc) /\
    tool_index (anthropic_acc chunks acc)
    = tool_index acc + length (filter opens_tool chunks).
Proof.
  induction chunks as [|chunk rest IH]; intros acc Hok.
  - simpl. split; [exact Hok | lia].
  - rewrite anthropic_acc_cons.
    destruct (IH _ (absorb_anthropic_locals acc chunk Hok)) as [H1 H2].
    split; [exact H1|]. rewrite H2, absorb_anthropic_counts. simpl.
    destruct (opens_tool chunk); simpl; lia.
Qed.

Lemma new_acc_locals : anthropic_locals_ok new_acc.
Proof. repeat split. Qed.

(** X14: Whatever the events of a response are, the Anthropic loop numbers
    its entries 0, 1, 2, ... in the order their [tool_use] blocks start,
    one entry for each such block, and [current_tool_index] is the entry
    opened last. *)
Theorem anthropic_reassembly_invariant :
  forall chunks : list AnthropicEvent,
    tool_index (anthropic_acc chunks new_acc) = length (filter opens_tool chunks) /\
    dict_keys (final_tool_calls (anthropic_acc chunks new_acc))
    = map Z.of_nat (seq 0 (length (filter opens_tool chunks))) /\
    current_tool_index (anthropic_acc chunks new_acc)
    = match length (filter opens_tool chunks) with
      | 0 => None
      | S n => Some n
      end.
Proof.
  intros chunks.
  destruct (anthropic_acc_locals chunks new_acc new_acc_locals) as [[Hk Hc] Hn].
  simpl in Hn. rewrite <- Hn. auto.
Qed.

(** X15: An [input_json_delta] extends the arguments of the entry whose
    [tool_use] block started last, and of no other: a fragment that
    arrives after a later block has started is never added to an earlier
    entry. *)
Theorem json_delta_extends_last_opened_tool :
  forall (pre : list AnthropicEvent) (chunk : AnthropicEvent) (d : BlockDelta)
         (fragment : string) (n : nat),
    is_input_json_delta chunk = true ->
    ev_delta chunk = Some d ->
    bd_partial_json d = Some fragment ->
    length (filter opens_tool pre) = S n ->
    exists entry,
      dict_get Z.eqb (final_tool_calls (anthropic_acc pre new_acc)) (Z.of_nat n) = Some entry /\
      snd (absorb_anthropic_chunk (anthropic_acc pre new_acc) chunk) = None /\
      dict_get Z.eqb
        (final_tool_calls (fst (absorb_anthropic_chunk (anthropic_acc pre new_acc) chunk)))
        (Z.of_nat n)
      = Some (mkCall (tc_id entry) (tc_type entry) (tc_name entry)
                (tc_arguments entry ++ fragment)) /\
      forall j, j <> Z.of_nat n ->
        dict_get Z.eqb
          (final_tool_calls (fst (absorb_anthropic_chunk (anthropic_acc pre new_acc) chunk))) j
        = dict_get Z.eqb (final_tool_calls (anthropic_acc pre new_acc)) j.
Proof.
  intros pre chunk d fragment n Hd Hev Hpj Hn.
  destruct (anthropic_acc_locals pre new_acc new_acc_locals) as [[Hk Hc] Hi].
  simpl in Hi. rewrite Hn in Hi. rewrite Hi in Hk, Hc.
  destruct (seq_keys_present _ (S n) n Hk (Nat.lt_succ_diag_r n)) as [entry Hg].
  exists entry. split; [exact Hg|].
  unfold is_input_json_delta in Hd. rewrite Hev in Hd.
  destruct (ev_type chunk) as [ty|] eqn:Ety; [|discriminate].
  apply andb_prop in Hd. destruct Hd as [Hty Hdty].
  destruct (bd_type d) as [dty|] eqn:Edty; [|discriminate].
  apply String.eqb_eq in Hty. subst ty.
  unfold absorb_anthropic_chunk. rewrite Ety, Hev, Edty, Hdty, Hc, Hg, Hpj.
  cbn [String.eqb Ascii.eqb Bool.eqb fst snd final_tool_calls]. simpl.
  split; [reflexivity|]. split; [apply zget_zset_same|].
  intros j Hj. apply zget_zset_other. auto.
Qed.

Lemma json_delta_extends_last_opened_tool_witness :
  let pre := [ tool_start "t1" "search"; json_delta "{"; tool_start "t2" "lookup" ] in
  length (filter opens_tool pre) = 2 /\
  final_tool_calls (fst (absorb_anthropic_chunk (anthropic_acc pre new_acc) (json_delta "}")))
  = [ (0%Z, mkCall "t1" "function" "search" "{");
      (1%Z, mkCall "t2" "function" "lookup" "}") ] /\
  exists entry,
    dict_get Z.eqb (final_tool_calls (anthropic_acc pre new_acc)) 1%Z = Some entry /\
    dict_get Z.eqb
      (final_tool_calls (fst (absorb_anthropic_chunk (anthropic_acc pre new_acc) (json_delta "}"))))
      1%Z
    = Some (mkCall (tc_id entry) (tc_type entry) (tc_name entry) (tc_arguments entry ++ "}")).
Proof.
  intros pre. split; [reflexivity|]. split; [reflexivity|].
  destruct (json_delta_extends_last_opened_tool pre (json_delta "}") _ "}" 1
              eq_refl eq_refl eq_refl eq_refl) as [entry [H1 [_ [H2 _]]]].
  exists entry. split; [exact H1 | exact H2].
Defined.

(** ** More about the turn loops *)

Lemma steady_refl : forall (k : nat) s, steady s s.
Proof.
  intros k s. repeat split; auto; exists []; try (rewrite app_nil_r; reflexivity).
  rewrite app_nil_r. auto.
Qed.

Lemma steady_trans :
  forall (a b : nat) s1 s2 s3, steady s1 s2 -> steady s2 s3 -> steady s1 s3.
Proof.
  intros a b s1 s2 s3 [A1 [A2 [A3 [A4 [[m1 A5] [[o1 A6] [e1 [A7 A8]]]]]]]]
         [B1 [B2 [B3 [B4 [[m2 B5] [[o2 B6] [e2 [B7 B8]]]]]]]].
  unfold steady. rewrite B1, B2, B3, B4, A1, A2, A3, A4.
  repeat split; auto.
  - exists (m1 ++ m2). rewrite B5, A5. symmetry. apply app_assoc.
  - exists (o1 ++ o2). rewrite B6, A6. symmetry. apply app_assoc.
  - exists (e1 ++ e2). rewrite B7, A7, forallb_app, A8, B8.
    split; [symmetry; apply app_assoc | reflexivity].
Qed.

Lemma steady_no_exit :
  forall s s', steady s s' -> adds is_exit 0 s s'.
Proof.
  intros s s' [_ [_ [_ [_ [_ [_ [evs [H1 H2]]]]]]]]. exists evs. split; [exact H1|].
  clear H1. induction evs as [|ev evs IH]; simpl in *; [lia|].
  apply andb_prop in H2. destruct H2 as [H2 H3].
  destruct ev; simpl in *; try discriminate; auto.
Qed.

Create HintDb hold.

Section Steady.
Context {env : Env}.

Abbreviation holds m := (within (fun _ : nat => steady) 0 m).

Lemma holds_bind :
  forall (A B : Type) (m : M A) (f : A -> M B),
    holds m -> (forall x, holds (f x)) -> holds (bind m f).
Proof.
  intros A B m f Hm Hf.
  exact (@within_bind (fun _ : nat => steady) steady_refl steady_trans A B m f 0 0 Hm Hf).
Qed.

Lemma holds_ret : forall (A : Type) (a : A), holds (ret a).
Proof. intros A a s. apply steady_refl. exact 0. Qed.

Lemma holds_raise : forall (A : Type) e, holds (@raise A e).
Proof. intros A e s. apply steady_refl. exact 0. Qed.

Lemma holds_lift : forall (A : Type) (r : Result A), holds (lift r).
Proof. intros A r s. apply steady_refl. exact 0. Qed.

Lemma holds_gets : forall (A : Type) (g : St -> A), holds (gets g).
Proof. intros A g s. apply steady_refl. exact 0. Qed.

Lemma holds_yield : forall o, holds (yield o).
Proof.
  intros o s. simpl. repeat split; simpl; auto.
  - exists []. rewrite app_nil_r. reflexivity.
  - exists [o]. reflexivity.
  - exists []. rewrite app_nil_r. auto.
Qed.

Lemma holds_append_message : forall m, holds (append_message m).
Proof.
  intros m s. simpl. repeat split; simpl; auto.
  - exists [m]. reflexivity.
  - exists []. rewrite app_nil_r. reflexivity.
  - exists []. rewrite app_nil_r. auto.
Qed.

Lemma holds_await :
  forall (A : Type) ev (g : list Event -> Result A),
    is_registry_event ev = false -> holds (await ev g).
Proof.
  intros A ev g Hev s. simpl. repeat split; simpl; auto.
  - exists []. rewrite app_nil_r. reflexivity.
  - exists []. rewrite app_nil_r. reflexivity.
  - exists [ev]. simpl. rewrite Hev. auto.
Qed.

Ltac hold :=
  repeat first
    [ apply holds_ret | apply holds_raise | apply holds_lift | apply holds_gets
    | apply holds_yield | apply holds_append_message
    | solve [apply holds_await; reflexivity]
    | solve [auto with hold]
    | (apply holds_bind; [ | intro])
    | match goal with
      | |- within _ _ (match ?x with _ => _ end) => destruct x
      end ].

Lemma holds_call_tool :
  forall tool_name arguments tm, holds (call_tool tool_name arguments tm).
Proof. intros. unfold call_tool. hold. Qed.
Hint Resolve holds_call_tool : hold.

Lemma holds_execute_tools :
  forall calls provider, holds (execute_tools calls provider).
Proof. induction calls as [|call rest IH]; intros provider; simpl; hold. Qed.
Hint Resolve holds_execute_tools : hold.

Lemma holds_process_tool_calls :
  forall calls provider, holds (process_tool_calls calls provider).
Proof. intros. unfold process_tool_calls. hold. Qed.

Lemma holds_openai_chunks : forall chunks acc, holds (openai_chunks chunks acc).
Proof.
  induction chunks as [|chunk rest IH]; intros acc; simpl; [hold|].
  destruct (absorb_openai_chunk acc chunk) as [acc' e]. hold.
Qed.

Lemma holds_anthropic_chunks : forall chunks acc, holds (anthropic_chunks chunks acc).
Proof.
  induction chunks as [|chunk rest IH]; intros acc; simpl; [hold|].
  destruct (absorb_anthropic_chunk acc chunk) as [acc' e]. hold.
Qed.

Lemma holds_forward_openai : forall chunks, holds (forward_openai chunks).
Proof. induction chunks as [|chunk rest IH]; simpl; hold. Qed.

Lemma holds_forward_anthropic : forall chunks, holds (forward_anthropic chunks).
Proof. induction chunks as [|chunk rest IH]; simpl; hold. Qed.

Lemma holds_end_of_stream : forall (C : Type) (r : Stream C), holds (end_of_stream r).
Proof. intros. unfold end_of_stream. hold. Qed.
Hint Resolve holds_process_tool_calls holds_openai_chunks holds_anthropic_chunks
  holds_forward_openai holds_forward_anthropic holds_end_of_stream : hold.

Lemma holds_openai_model_call : forall p turn, holds (openai_model_call p turn).
Proof. intros. unfold openai_model_call. hold. Qed.

Lemma holds_resolve_openai : forall p acc, holds (resolve_openai p acc).
Proof. intros. unfold resolve_openai. hold. Qed.

Lemma holds_anthropic_model_call : forall p turn, holds (anthropic_model_call p turn).
Proof. intros. unfold anthropic_model_call. hold. Qed.

Lemma holds_resolve_anthropic : forall p acc, holds (resolve_anthropic p acc).
Proof. intros. unfold resolve_anthropic. hold. Qed.
Hint Resolve holds_openai_model_call holds_resolve_openai
  holds_anthropic_model_call holds_resolve_anthropic : hold.

Lemma holds_openai_turns : forall p n turn, holds (openai_turns p n turn).
Proof. induction n as [|n IH]; intros turn; simpl; hold. Qed.

Lemma holds_anthropic_turns : forall p n turn, holds (anthropic_turns p n turn).
Proof. induction n as [|n IH]; intros turn; simpl; hold. Qed.
End Steady.

(** X16: Once set up, a run only calls the model and the tools.  Whatever the
    model and the tools answer, and however many turns there are, the
    turn loops leave the sessions, the exit stack, the routing table and
    the tool list as setup left them (the tools are not listed again
    between turns), never take back a message or a chunk, and connect,
    list and close nothing. *)
Theorem turns_leave_registry_alone :
  forall (env : Env) (p : MCPChat) (n turn : nat) (s : St),
    steady s (fst (openai_turns p n turn s)) /\
    steady s (fst (anthropic_turns p n turn s)).
Proof.
  intros env p n turn s. split.
  - apply holds_openai_turns.
  - apply holds_anthropic_turns.
Qed.

Lemma bind_modify :
  forall (B : Type) (g : St -> St) (k : unit -> M B) s,
    bind (modify g) k s = k tt (g s).
Proof. reflexivity. Qed.

Section Runs.
Context {env : Env}.

Ltac calm :=
  repeat first
    [ apply adds_ret | apply adds_raise | apply adds_lift | apply adds_gets
    | apply adds_yield | apply adds_append_message
    | solve [apply adds_modify; reflexivity]
    | solve [exact (adds_await is_exit _ _ _)]
    | solve [auto]
    | (apply adds_bind with (a := 0) (b := 0); [ | intro | lia])
    | (apply adds_try with (a := 0) (b := 0); [ | intro | lia])
    | match goal with
      | |- within _ _ (match ?x with _ => _ end) => destruct x
      end ].

Lemma calm_initialize_sse : forall l, within (adds is_exit) 0 (initialize_sse l).
Proof.
  induction l as [|mcp rest IH]; simpl; [calm|].
  unfold enter_async_context, open_session, enter_async_context. calm.
Qed.

Lemma calm_initialize_stdio : forall l, within (adds is_exit) 0 (initialize_stdio l).
Proof.
  induction l as [|[server_name params] rest IH]; simpl; [calm|].
  unfold enter_async_context, open_session, enter_async_context. calm.
Qed.

Lemma calm_list_tools_from :
  forall ss acc, within (adds is_exit) 0 (list_tools_from ss acc).
Proof. induction ss as [|[server_name session] rest IH]; intros acc; simpl; calm. Qed.

Lemma calm_setup_client :
  forall p provider, within (adds is_exit) 0 (setup_client p provider).
Proof.
  intros. unfold setup_client, initialize, list_tools.
  pose proof calm_initialize_sse. pose proof calm_initialize_stdio.
  pose proof calm_list_tools_from. calm.
Qed.

Lemma calm_openai_turns :
  forall p n turn, within (adds is_exit) 0 (openai_turns p n turn).
Proof. intros p n turn s. apply steady_no_exit. apply holds_openai_turns. Qed.

Lemma calm_anthropic_turns :
  forall p n turn, within (adds is_exit) 0 (anthropic_turns p n turn).
Proof. intros p n turn s. apply steady_no_exit. apply holds_anthropic_turns. Qed.

Lemma calm_process_openai :
  forall p, within (adds is_exit) 0 (process_openai_stream_chat p).
Proof.
  intros. unfold process_openai_stream_chat, openai_body.
  pose proof calm_setup_client. pose proof calm_openai_turns. calm.
Qed.

Lemma calm_process_anthropic :
  forall p, within (adds is_exit) 0 (process_anthropic_stream_chat p).
Proof.
  intros. unfold process_anthropic_stream_chat, anthropic_body.
  pose proof calm_setup_client. pose proof calm_anthropic_turns. calm.
Qed.

Lemma setup_client_opens :
  forall p provider s s1,
    setup_client p provider s = (s1, Ok tt) ->
    length (exit_stack s1) = 2 * length (mcp_servers p).
Proof.
  intros p provider s s1 H. unfold setup_client in H.
  rewrite bind_modify in H.
  set (s0 := set_exit_stack [] (set_sessions [] s)) in H.
  destruct (initialize [] (mcp_servers p) s0) as [sa [[]|e]] eqn:Ei.
  2:{ rewrite (bind_raise _ _ _ _ _ _ _ Ei) in H. discriminate. }
  rewrite (bind_ok _ _ _ _ _ _ _ Ei) in H.
  destruct (list_tools sa) as [sb [listed|e]] eqn:El.
  2:{ rewrite (bind_raise _ _ _ _ _ _ _ El) in H. discriminate. }
  rewrite (bind_ok _ _ _ _ _ _ _ El) in H.
  rewrite bind_modify in H.
  destruct (snd (format_tools_object_for_llm_call (snd listed) provider))
    as [formatted|e] eqn:Ef.
  2:{ rewrite (bind_lift_raise _ _ _ _ _ e eq_refl) in H. discriminate. }
  rewrite (bind_lift_ok _ _ _ _ _ formatted eq_refl) in H.
  rewrite bind_modify in H. unfold modify in H. inversion H; subst s1.
  cbn [exit_stack set_chat_messages set_tools set_tool_map].
  assert (Hsb : exit_stack sb = exit_stack sa).
  { pose proof (list_tools_from_asks (sessions sa) ([], []) sa) as [[_ [Hx _]] _].
    unfold list_tools in El. rewrite bind_gets in El. rewrite El in Hx. exact Hx. }
  rewrite Hsb. rewrite initialize_sse_only in Ei.
  rewrite (connected_backends_open _ _ _ Ei). reflexivity.
Qed.
End Runs.

(** X17: A run never closes what it opens.  Neither stream processor exits a
    context, whether the run ends well or in an error chunk; a setup that
    succeeds leaves two contexts open for each server, and the turns
    leave them there. *)
Theorem stream_run_closes_nothing :
  forall (env : Env) (p : MCPChat) (s : St),
    count_events is_exit (fst (process_openai_stream_chat p s)) = count_events is_exit s /\
    count_events is_exit (fst (process_anthropic_stream_chat p s)) = count_events is_exit s /\
    forall provider s1,
      setup_client p provider s = (s1, Ok tt) ->
      length (exit_stack s1) = 2 * length (mcp_servers p) /\
      forall n turn,
        exit_stack (fst (openai_turns p n turn s1)) = exit_stack s1 /\
        exit_stack (fst (anthropic_turns p n turn s1)) = exit_stack s1.
Proof.
  intros env p s. split; [|split].
  - apply adds_none. apply calm_process_openai.
  - apply adds_none. apply calm_process_anthropic.
  - intros provider s1 H. split; [apply (setup_client_opens p provider s s1 H)|].
    intros n turn. split.
    + destruct (holds_openai_turns p n turn s1) as [_ [Hx _]]. exact Hx.
    + destruct (holds_anthropic_turns p n turn s1) as [_ [Hx _]]. exact Hx.
Qed.

Lemma stream_run_closes_nothing_witness :
  let p := demo_chat 1 [server_a] in
  let s1 := fst (@setup_client searching_world p OpenAI init_state) in
  @setup_client searching_world p OpenAI init_state = (s1, Ok tt) /\
  length (exit_stack s1) = 2 /\
  exit_stack (fst (@openai_turns searching_world p 1 0 s1)) = exit_stack s1.
Proof.
  intros p s1. split; [reflexivity|].
  destruct (proj2 (proj2 (stream_run_closes_nothing searching_world p init_state))
              OpenAI s1 eq_refl) as [H1 H2].
  split; [exact H1 | exact (proj1 (H2 1 0))].
Defined.

(** ** More about the execution of tool calls *)

Section Tools.
Context {env : Env}.

Lemma call_tool_effect :
  forall tool_name arguments tm s,
    same_fields s (fst (call_tool tool_name arguments tm s)) /\
    count_events is_tool_execution (fst (call_tool tool_name arguments tm s))
    <= count_events is_tool_execution s + 1.
Proof.
  intros tool_name arguments tm s. unfold call_tool.
  destruct (dict_get String.eqb tm tool_name) as [server_name|].
  2:{ simpl. split; [repeat split | lia]. }
  destruct server_name as [|c server_name].
  { simpl. split; [repeat split | lia]. }
  rewrite bind_gets.
  destruct (dict_get String.eqb (sessions s) (String c server_name)) as [session|].
  2:{ simpl. split; [repeat split | lia]. }
  rewrite bind_await.
  assert (Hc : count_events is_tool_execution
                 (set_trace (trace s ++ [EvCallTool session tool_name arguments]) s)
               <= count_events is_tool_execution s + 1).
  { unfold count_events. simpl. rewrite filter_app, length_app. simpl. lia. }
  destruct (session_call_tool (trace s) session tool_name arguments)
    as [[|[text|] content]|e]; simpl; (split; [repeat split | exact Hc]).
Qed.

Lemma execute_tools_results :
  forall calls provider s s',
    execute_tools calls provider s = (s', Ok tt) ->
    exists observations,
      length observations = length calls /\
      chat_messages s'
      = chat_messages s ++
        map (fun co => create_tool_result_message (tc_id (fst co)) (py_str (snd co)) provider)
            (combine calls observations) /\
      out s'
      = out s ++
        flat_map (fun call =>
                    [ create_llm_chunk PROGRESS
                        ("Executing tool: " ++ tc_name call ++ "...") provider;
                      create_llm_chunk PROGRESS
                        ("Tool " ++ tc_name call ++ " execution complete.") provider ])
                 calls /\
      count_events is_tool_execution s' <= count_events is_tool_execution s + length calls.
Proof.
  induction calls as [|call rest IH]; intros provider s s' H.
  - simpl in H. inversion H; subst s'. exists []. simpl. rewrite !app_nil_r.
    repeat split; auto. lia.
  - cbn [execute_tools] in H.
    destruct (json_loads (tc_arguments call)) as [a|e] eqn:Ej.
    2:{ rewrite (bind_lift_raise _ _ _ _ _ e eq_refl) in H. discriminate. }
    rewrite (bind_lift_ok _ _ _ _ _ a eq_refl) in H.
    rewrite bind_yield, bind_gets in H.
    set (s0 := yielded (create_llm_chunk PROGRESS
                          ("Executing tool: " ++ tc_name call ++ "...") provider) s) in H.
    pose proof (call_tool_effect (tc_name call) a (tool_map s0) s0) as [Hsame Hcount].
    destruct (call_tool (tc_name call) a (tool_map s0) s0) as [s1 [obs|e]] eqn:Ec.
    2:{ rewrite (bind_raise _ _ _ _ _ _ _ Ec) in H. discriminate. }
    rewrite (bind_ok _ _ _ _ _ _ _ Ec) in H.
    rewrite bind_append_message, bind_yield in H.
    destruct (IH provider _ s' H) as [observations [Hl [Hm [Ho Hn]]]].
    destruct Hsame as [_ [_ [_ [_ [Hcm Hou]]]]]. cbn [fst] in Hcm, Hou, Hcount.
    exists (obs :: observations). split; [simpl; lia|]. split; [|split].
    + rewrite Hm. unfold yielded, appended. simpl. rewrite Hcm.
      unfold s0, yielded. simpl. rewrite <- app_assoc. reflexivity.
    + rewrite Ho. unfold yielded, appended. simpl. rewrite Hou.
      unfold s0, yielded. simpl. rewrite <- !app_assoc. reflexivity.
    + unfold count_events in *. unfold yielded, appended in Hn. simpl in Hn.
      unfold s0, yielded in Hcount. simpl in Hcount. simpl. lia.
Qed.

Lemma anthropic_tool_uses_malformed :
  forall pre bad post e,
    Forall (fun call => exists a, json_loads (tc_arguments call) = Ok a) pre ->
    json_loads (tc_arguments bad) = Raise e ->
    anthropic_tool_uses (pre ++ bad :: post) = Raise e.
Proof.
  induction pre as [|call pre IH]; intros bad post e Hpre Hbad; simpl.
  - rewrite Hbad. reflexivity.
  - inversion Hpre as [|x l [a Ha] Hrest]; subst. rewrite Ha.
    rewrite (IH bad post e Hrest Hbad). reflexivity.
Qed.
End Tools.



(** X19: On the Anthropic path the arguments of every call are parsed before
    anything else is done with them: if those of one call do not parse,
    the turn raises with the state as the response left it.  No message
    is appended, no chunk is yielded and no tool is executed, not even
    the calls before the malformed one. *)
Theorem anthropic_malformed_arguments_run_no_tool :
  forall (env : Env) (p : MCPChat) (acc : Acc) (s : St)
         (pre : list ToolCall) (bad : ToolCall) (post : list ToolCall) (e : Exn),
    dict_values (final_tool_calls acc) = pre ++ bad :: post ->
    Forall (fun call => exists a, json_loads (tc_arguments call) = Ok a) pre ->
    json_loads (tc_arguments bad) = Raise e ->
    resolve_anthropic p acc s = (s, Raise e) /\
    forall n turn s0,
      anthropic_model_call p turn s0 = (s, Ok acc) ->
      anthropic_turns p (S n) turn s0 = (s, Raise e).
Proof.
  intros env p acc s pre bad post e Hv Hpre Hbad.
  assert (Hr : resolve_anthropic p acc s = (s, Raise e)).
  { unfold resolve_anthropic.
    destruct (final_tool_calls acc) as [|c calls] eqn:Ec.
    - simpl in Hv. destruct pre; discriminate.
    - apply bind_lift_raise. unfold convert_to_anthropic_tool_format. rewrite Hv.
      apply anthropic_tool_uses_malformed; assumption. }
  split; [exact Hr|].
  intros n turn s0 Hm. cbn [anthropic_turns].
  rewrite (bind_ok _ _ _ _ _ _ _ Hm). apply bind_raise. exact Hr.
Qed.

Lemma anthropic_malformed_arguments_run_no_tool_witness :
  let p := demo_chat 3 [server_a] in
  let s0 := fst (@setup_client anthropic_malformed_world p Anthropic init_state) in
  let s := fst (@anthropic_model_call anthropic_malformed_world p 0 s0) in
  let acc := anthropic_acc [ tool_start "t1" "search"; json_delta "{}";
                             tool_start "t2" "lookup"; json_delta "{" ] new_acc in
  let e := mkExn "JSONDecodeError" "Expecting value" in
  @anthropic_model_call anthropic_malformed_world p 0 s0 = (s, Ok acc) /\
  dict_values (final_tool_calls acc)
  = [ mkCall "t1" "function" "search" "{}" ] ++ mkCall "t2" "function" "lookup" "{" :: [] /\
  @anthropic_turns anthropic_malformed_world p 3 0 s0 = (s, Raise e) /\
  count_events is_tool_execution s = 0.
Proof.
  intros p s0 s acc e.
  assert (Hm : @anthropic_model_call anthropic_malformed_world p 0 s0 = (s, Ok acc))
    by reflexivity.
  split; [exact Hm|]. split; [reflexivity|]. split; [|reflexivity].
  refine (proj2 (anthropic_malformed_arguments_run_no_tool anthropic_malformed_world p acc s
                   [ mkCall "t1" "function" "search" "{}" ]
                   (mkCall "t2" "function" "lookup" "{") [] e eq_refl _ eq_refl) 2 0 s0 Hm).
  constructor; [exists (JObj []); reflexivity | constructor].
Defined.

(** ** A response that asks for no tool *)

Section TextOnly.
Context {env : Env}.

Lemma openai_model_call_ok :
  forall p turn s r,
    completions_create (trace s) (openai_completion_params p s) = Ok r ->
    fault r = None ->
    exists s1,
      openai_model_call p turn s = (s1, Ok (openai_acc (items r) new_acc)) /\
      trace s1 = trace s ++ [EvCompletionsCreate (openai_completion_params p s)] /\
      chat_messages s1 = chat_messages s.
Proof.
  intros p turn s r Hc Hf. unfold openai_model_call.
  destruct (Nat.eqb turn 0).
  - rewrite bind_yield, bind_gets, bind_await.
    set (s0 := yielded (create_llm_chunk PROGRESS
                 "Analyzing your question and determining next steps..." OpenAI) s).
    change (trace s0) with (trace s).
    change (openai_completion_params p s0) with (openai_completion_params p s).
    rewrite Hc.
    destruct (openai_chunks_run (items r) new_acc
                (set_trace (trace s ++ [EvCompletionsCreate (openai_completion_params p s)]) s0))
      as [outs Hrun].
    rewrite (bind_ok _ _ _ _ _ _ _ Hrun). unfold end_of_stream. rewrite Hf.
    rewrite bind_ret. eexists. split; [reflexivity|]. split; reflexivity.
  - rewrite bind_ret, bind_gets, bind_await. rewrite Hc.
    destruct (openai_chunks_run (items r) new_acc
                (set_trace (trace s ++ [EvCompletionsCreate (openai_completion_params p s)]) s))
      as [outs Hrun].
    rewrite (bind_ok _ _ _ _ _ _ _ Hrun). unfold end_of_stream. rewrite Hf.
    rewrite bind_ret. eexists. split; [reflexivity|]. split; reflexivity.
Qed.

Lemma anthropic_model_call_ok :
  forall p turn s r,
    messages_stream (trace s) (anthropic_completion_params p s) = Ok r ->
    fault r = None ->
    exists s1,
      anthropic_model_call p turn s = (s1, Ok (anthropic_acc (items r) new_acc)) /\
      trace s1 = trace s ++ [EvMessagesStream (anthropic_completion_params p s)] /\
      chat_messages s1 = chat_messages s.
Proof.
  intros p turn s r Hc Hf. unfold anthropic_model_call.
  destruct (Nat.eqb turn 0).
  - rewrite bind_yield, bind_gets, bind_await.
    set (s0 := yielded (create_llm_chunk PROGRESS
                 "Analyzing your question and determining next steps..." Anthropic) s).
    change (trace s0) with (trace s).
    change (anthropic_completion_params p s0) with (anthropic_completion_params p s).
    rewrite Hc.
    destruct (anthropic_chunks_run (items r) new_acc
                (set_trace (trace s ++ [EvMessagesStream (anthropic_completion_params p s)]) s0))
      as [outs Hrun].
    rewrite (bind_ok _ _ _ _ _ _ _ Hrun). unfold end_of_stream. rewrite Hf.
    rewrite bind_ret. eexists. split; [reflexivity|]. split; reflexivity.
  - rewrite bind_ret, bind_gets, bind_await. rewrite Hc.
    destruct (anthropic_chunks_run (items r) new_acc
                (set_trace (trace s ++ [EvMessagesStream (anthropic_completion_params p s)]) s))
      as [outs Hrun].
    rewrite (bind_ok _ _ _ _ _ _ _ Hrun). unfold end_of_stream. rewrite Hf.
    rewrite bind_ret. eexists. split; [reflexivity|]. split; reflexivity.
Qed.
End TextOnly.

(** X20: A response that asks for no tool ends the run, however many turns
    are left: the model is called once and the loop returns.  The OpenAI
    path records the text of the response, if there is any, as one
    assistant message; the Anthropic path records nothing. *)
Theorem text_response_ends_the_run :
  forall (env : Env) (p : MCPChat) (n turn : nat) (s : St),
    (forall r,
        completions_create (trace s) (openai_completion_params p s) = Ok r ->
        fault r = None ->
        final_tool_calls (openai_acc (items r) new_acc) = [] ->
        exists s',
          openai_turns p (S n) turn s = (s', Ok tt) /\
          trace s' = trace s ++ [EvCompletionsCreate (openai_completion_params p s)] /\
          chat_messages s'
          = chat_messages s ++ text_message (content_buffer (openai_acc (items r) new_acc))) /\
    (forall r,
        messages_stream (trace s) (anthropic_completion_params p s) = Ok r ->
        fault r = None ->
        forallb (fun chunk => negb (opens_tool chunk)) (items r) = true ->
        exists s',
          anthropic_turns p (S n) turn s = (s', Ok tt) /\
          trace s' = trace s ++ [EvMessagesStream (anthropic_completion_params p s)] /\
          chat_messages s' = chat_messages s).
Proof.
  intros env p n turn s. split.
  - intros r Hc Hf Hnone.
    destruct (openai_model_call_ok p turn s r Hc Hf) as [s1 [Hm [Ht Hcm]]].
    cbn [openai_turns]. rewrite (bind_ok _ _ _ _ _ _ _ Hm).
    unfold resolve_openai. rewrite Hnone.
    destruct (content_buffer (openai_acc (items r) new_acc)) as [|c buf] eqn:Eb.
    + rewrite bind_assoc, bind_ret, bind_ret. exists s1. simpl. rewrite app_nil_r. auto.
    + rewrite bind_assoc, bind_append_message, bind_ret.
      eexists. split; [reflexivity|]. split; [exact Ht|].
      unfold appended. simpl. rewrite Hcm. reflexivity.
  - intros r Hc Hf Hnone.
    destruct (anthropic_model_call_ok p turn s r Hc Hf) as [s1 [Hm [Ht Hcm]]].
    cbn [anthropic_turns]. rewrite (bind_ok _ _ _ _ _ _ _ Hm).
    unfold resolve_anthropic.
    destruct (anthropic_acc_closed (items r) new_acc Hnone eq_refl) as [_ Hcalls].
    rewrite Hcalls. change (final_tool_calls new_acc) with (@nil (Z * ToolCall)).
    cbn iota. rewrite bind_ret.
    exists s1. auto.
Qed.

Lemma text_response_ends_the_run_witness :
  let p := demo_chat 5 [server_a] in
  let s := fst (@setup_client answering_world p OpenAI init_state) in
  exists s',
    @openai_turns answering_world p 5 0 s = (s', Ok tt) /\
    count_events is_model_call s' = 1 /\
    chat_messages s'
    = chat_messages s ++ [ JObj [ ("role", JStr "assistant"); ("content", JStr "Hello") ] ].
Proof.
  intros p s.
  destruct (proj1 (text_response_ends_the_run answering_world p 4 0 s)
              (mkStream [ text_chunk "Hel"; text_chunk "lo" ] None)
              eq_refl eq_refl eq_refl) as [s' [H1 [H2 H3]]].
  exists s'. split; [exact H1|]. split; [|exact H3].
  unfold count_events. rewrite H2. reflexivity.
Defined.

(** ** The stream handed to the caller *)

Lemma async_for_run :
  forall (C : Type) (its : list C) (f : option Exn) (n : nat),
    length its < n ->
    async_for n (mkStream its f)
    = (its, mkStream [] None,
       match f with
       | None => Ok true
       | Some e => Raise (stream_exception e)
       end).
Proof.
  induction its as [|c rest IH]; intros f n Hn.
  - destruct n as [|n]; [simpl in Hn; lia|].
    cbn [async_for]. unfold CustomAsyncStream_anext, generator_anext. cbn [items fault].
    destruct f as [e|]; [|reflexivity].
    unfold stream_exception.
    destruct (String.eqb (exn_class e) "StopAsyncIteration") eqn:Es.
    + reflexivity.
    + rewrite Es. destruct (String.eqb (exn_class e) "IndexError") eqn:Ei.
      * reflexivity.
      * rewrite Es. reflexivity.
  - destruct n as [|n]; [simpl in Hn; lia|].
    cbn [async_for]. unfold CustomAsyncStream_anext, generator_anext. cbn [items fault].
    rewrite (IH f n) by (simpl in Hn; lia). reflexivity.
Qed.

Lemma stream_eta : forall (C : Type) (g : Stream C), g = mkStream (items g) (fault g).
Proof. intros C [its f]. reflexivity. Qed.



Section ChatStreams.
Context {env : Env}.

Lemma process_openai_returns :
  forall p s, snd (process_openai_stream_chat p s) = Ok tt.
Proof.
  intros p s. unfold process_openai_stream_chat, try_.
  destruct (openai_body p s) as [s' [[]|e]]; reflexivity.
Qed.

Lemma process_anthropic_returns :
  forall p s, snd (process_anthropic_stream_chat p s) = Ok tt.
Proof.
  intros p s. unfold process_anthropic_stream_chat, try_.
  destruct (anthropic_body p s) as [s' [[]|e]]; reflexivity.
Qed.

Lemma process_anthropic_raise :
  forall p s s' e,
    anthropic_body p s = (s', Raise e) ->
    process_anthropic_stream_chat p s
    = (yielded (create_llm_chunk ERROR ("Error: " ++ exn_str e) Anthropic) s', Ok tt).
Proof.
  intros p s s' e H. unfold process_anthropic_stream_chat, try_. rewrite H. reflexivity.
Qed.
End ChatStreams.



(** ** Providers given by name *)

Lemma lower_char_idem : forall c, lower_char (lower_char c) = lower_char c.
Proof.
  intros [[] [] [] [] [] [] [] []]; reflexivity.
Qed.

Lemma py_lower_idem : forall s, py_lower (py_lower s) = py_lower s.
Proof.
  induction s as [|c s IH]; simpl; [reflexivity|].
  rewrite lower_char_idem, IH. reflexivity.
Qed.


(** ** The path without streaming *)

Section NonStreamFacts.
Context {env : Env} {client : NonStreamClient}.

Ltac still f :=
  repeat first
    [ apply adds_ret | apply adds_raise | apply adds_lift | apply adds_gets
    | apply adds_yield | apply adds_append_message
    | solve [apply adds_modify; reflexivity]
    | solve [exact (adds_await f _ _ _)]
    | solve [auto]
    | (apply adds_bind with (a := 0) (b := 0); [ | intro | lia])
    | (apply adds_try with (a := 0) (b := 0); [ | intro | lia])
    | match goal with
      | |- within _ _ (match ?x with _ => _ end) => destruct x
      end ].

Lemma untooled_initialize_sse :
  forall l, within (adds is_tool_execution) 0 (initialize_sse l).
Proof.
  induction l as [|mcp rest IH]; simpl; [still is_tool_execution|].
  unfold enter_async_context, open_session, enter_async_context. still is_tool_execution.
Qed.

Lemma untooled_initialize_stdio :
  forall l, within (adds is_tool_execution) 0 (initialize_stdio l).
Proof.
  induction l as [|[server_name params] rest IH]; simpl; [still is_tool_execution|].
  unfold enter_async_context, open_session, enter_async_context. still is_tool_execution.
Qed.

Lemma untooled_list_tools_from :
  forall ss acc, within (adds is_tool_execution) 0 (list_tools_from ss acc).
Proof.
  induction ss as [|[server_name session] rest IH]; intros acc; simpl;
    still is_tool_execution.
Qed.

Lemma untooled_setup_client :
  forall p provider, within (adds is_tool_execution) 0 (setup_client p provider).
Proof.
  intros. unfold setup_client, initialize, list_tools.
  pose proof untooled_initialize_sse. pose proof untooled_initialize_stdio.
  pose proof untooled_list_tools_from. still is_tool_execution.
Qed.

Lemma non_stream_tools_silent :
  forall f calls, within (adds f) 0 (non_stream_tools calls).
Proof.
  intros f. induction calls as [|call rest IH]; simpl; still f.
Qed.

Lemma silent_await :
  forall f (A : Type) ev (g : list Event -> Result A),
    f ev = false -> within (adds f) 0 (await ev g).
Proof.
  intros f A ev g Hev. generalize (adds_await f A ev g). rewrite Hev. auto.
Qed.

Lemma await_at_most_one :
  forall f (A : Type) ev (g : list Event -> Result A), within (adds f) 1 (await ev g).
Proof.
  intros. apply adds_weaken with (a := if f ev then 1 else 0);
    [destruct (f ev); lia | apply adds_await].
Qed.

Lemma non_stream_turn_model_calls :
  forall f p, within (adds f) 2 (non_stream_turn p).
Proof.
  intros f p. unfold non_stream_turn. apply adds_gets_bind. intros s.
  apply adds_bind with (a := 1) (b := 1); [apply await_at_most_one | intro response | lia].
  destruct (completion_choices response) as [|choice rest]; [still f|].
  destruct (message_tool_calls choice) as [[|call calls]|];
    [ apply adds_weaken with (a := 0); [lia | still f]
    |
    | apply adds_weaken with (a := 0); [lia | still f] ].
  apply adds_bind with (a := 0) (b := 1); [still f | intro | lia].
  apply adds_bind with (a := 0) (b := 1); [apply non_stream_tools_silent | intro | lia].
  apply adds_gets_bind. intros s1. apply await_at_most_one.
Qed.

Lemma non_stream_turn_silent :
  forall f p,
    (forall params, f (EvCompletionsCreate params) = false) ->
    within (adds f) 0 (non_stream_turn p).
Proof.
  intros f p Hf. unfold non_stream_turn. apply adds_gets_bind. intros s.
  apply adds_bind with (a := 0) (b := 0); [apply silent_await; apply Hf | intro response | lia].
  destruct (completion_choices response) as [|choice rest]; [still f|].
  destruct (message_tool_calls choice) as [[|call calls]|];
    [ still f | | still f ].
  apply adds_bind with (a := 0) (b := 0); [still f | intro | lia].
  apply adds_bind with (a := 0) (b := 0); [apply non_stream_tools_silent | intro | lia].
  apply adds_gets_bind. intros s1. apply silent_await. apply Hf.
Qed.

Lemma non_stream_process_adds :
  forall f k p,
    within (adds f) 0 (setup_client p OpenAI) ->
    within (adds f) k (non_stream_turn p) ->
    within (adds f) k (process_openai_non_stream_chat p).
Proof.
  intros f k p Hs Ht. unfold process_openai_non_stream_chat.
  apply adds_try with (a := k) (b := 0); [ | intro; apply adds_raise | lia].
  apply adds_bind with (a := 0) (b := k); [exact Hs | intro | lia].
  unfold non_stream_turns. destruct (Z.to_nat (max_turns p)); [apply adds_raise | exact Ht].
Qed.
End NonStreamFacts.

(** X24: Whatever [max_turns] is, the path without streaming calls the model
    at most twice: the body of its loop returns in the first turn.  It
    never asks a session of the registry to run a tool (its tool calls go
    to [self.client.manager]), and like the stream processors it closes
    nothing of what setup opened. *)
Theorem non_stream_run_budget :
  forall (env : Env) (client : NonStreamClient) (p : MCPChat) (s : St),
    count_events is_model_call (fst (process_openai_non_stream_chat p s))
    <= count_events is_model_call s + 2 /\
    count_events is_tool_execution (fst (process_openai_non_stream_chat p s))
    = count_events is_tool_execution s /\
    count_events is_exit (fst (process_openai_non_stream_chat p s))
    = count_events is_exit s.
Proof.
  intros env client p s. split; [|split].
  - apply adds_count. apply non_stream_process_adds.
    + exact (@quiet_setup_client env is_model_call (fun ev H => H) p OpenAI).
    + apply non_stream_turn_model_calls.
  - apply adds_none. apply non_stream_process_adds.
    + apply untooled_setup_client.
    + apply non_stream_turn_silent. reflexivity.
  - apply adds_none. apply non_stream_process_adds.
    + exact (@calm_setup_client env p OpenAI).
    + apply non_stream_turn_silent. reflexivity.
Qed.

(** X25: With [max_turns] zero or negative the path without streaming sets
    up, makes no model call and raises an [UnboundLocalError]: the
    [return response] after the loop reads a name no turn has bound.  The
    stream processors end such a run without an error. *)
Theorem non_stream_without_turns_raises :
  forall (env : Env) (client : NonStreamClient) (p : MCPChat) (s s1 : St),
    (max_turns p <= 0)%Z ->
    setup_client p OpenAI s = (s1, Ok tt) ->
    (exists e,
        process_openai_non_stream_chat p s = (s1, Raise e) /\
        exn_class e = "UnboundLocalError") /\
    count_events is_model_call s1 = count_events is_model_call s /\
    openai_turns p (Z.to_nat (max_turns p)) 0 s1 = (s1, Ok tt).
Proof.
  intros env client p s s1 Hm Hs.
  assert (Hz : Z.to_nat (max_turns p) = 0) by (destruct (max_turns p); simpl in *; try reflexivity; exfalso; apply Hm; reflexivity).
  split; [|split].
  - eexists. split.
    + unfold process_openai_non_stream_chat, try_.
      rewrite (bind_ok _ _ _ _ _ _ _ Hs). rewrite Hz. reflexivity.
    + reflexivity.
  - pose proof (@quiet_setup_client env is_model_call (fun ev H => H) p OpenAI s) as Hq.
    rewrite Hs in Hq. apply adds_none. exact Hq.
  - rewrite Hz. reflexivity.
Qed.

Lemma non_stream_without_turns_raises_witness :
  let p := demo_chat 0 [server_a] in
  let s1 := fst (@setup_client searching_world p OpenAI init_state) in
  (max_turns p <= 0)%Z /\
  exists e,
    @process_openai_non_stream_chat searching_world asking_client p init_state
    = (s1, Raise e) /\
    exn_class e = "UnboundLocalError".
Proof.
  intros p s1. split; [vm_compute; discriminate|].
  apply (proj1 (non_stream_without_turns_raises searching_world asking_client p init_state s1
                  ltac:(vm_compute; discriminate) eq_refl)).
Defined.

(** X26: A response with tool calls makes the path without streaming reach
    for [self.client.manager]; with a client that has no such attribute
    the run raises an [AttributeError] at the first call, after the
    assistant message has been appended and before any tool has run or
    a second model call is made. *)
Theorem non_stream_tool_calls_need_a_manager :
  forall (env : Env) (client : NonStreamClient) (p : MCPChat) (n : nat) (s : St)
         (response : ChatCompletion) (choice : ChatCompletionMessage)
         (rest : list ChatCompletionMessage)
         (call : MessageToolCall) (calls : list MessageToolCall) (a : JSON),
    @client_manager client = None ->
    create_completion (trace s) (non_stream_completion_params p s) = Ok response ->
    completion_choices response = choice :: rest ->
    message_tool_calls choice = Some (call :: calls) ->
    json_loads (mtc_arguments call) = Ok a ->
    exists s' e,
      non_stream_turns p (S n) s = (s', Raise e) /\
      exn_class e = "AttributeError" /\
      trace s' = trace s ++ [EvCompletionsCreate (non_stream_completion_params p s)] /\
      chat_messages s'
      = chat_messages s ++ [ non_stream_assistant_message (call :: calls) ].
Proof.
  intros env client p n s response choice rest call calls a Hm Hc Hch Htc Hj.
  cbn [non_stream_turns]. unfold non_stream_turn.
  rewrite bind_gets, bind_await, Hc, Hch, Htc.
  rewrite bind_append_message.
  cbn [enumerate_tool_calls dict_values map snd non_stream_tools tc_arguments].
  unfold dict_values. cbn [map snd non_stream_tools tc_arguments].
  rewrite bind_assoc. rewrite (bind_lift_ok _ _ _ _ _ a Hj).
  rewrite Hm. eexists. eexists. split; [reflexivity|].
  split; [reflexivity|]. split; reflexivity.
Qed.

Lemma non_stream_tool_calls_need_a_manager_witness :
  let p := demo_chat 3 [server_a] in
  let s := fst (@setup_client searching_world p OpenAI init_state) in
  exists s' e,
    @non_stream_turns searching_world asking_client p 3 s = (s', Raise e) /\
    exn_class e = "AttributeError" /\
    count_events is_model_call s' = 1.
Proof.
  intros p s.
  destruct (non_stream_tool_calls_need_a_manager searching_world asking_client p 2 s
              _ _ [] (mkMsgCall "c1" "search" "{}") [] (JObj [])
              eq_refl eq_refl eq_refl eq_refl eq_refl) as [s' [e [H1 [H2 [H3 _]]]]].
  exists s', e. split; [exact H1|]. split; [exact H2|].
  unfold count_events. rewrite H3. reflexivity.
Defined.

(** ** The client for a single server *)

(** X27: [MCPClient(...)] raises a [ValueError] exactly when it is given
    neither a URL nor stdio parameters, an empty string and an empty
    dict counting as not given.  A client it returns has no session:
    until [initialize()] is called, [list_tools] and [call_tool] raise a
    [RuntimeError] without calling anything, and [close()] has nothing to
    exit. *)
Theorem client_needs_initialize :
  forall (env : Env) (sse_url : option string) (stdio_params : option dict),
    (truthy sse_url = None /\ truthy_dict stdio_params = None <->
     MCPClient_init sse_url stdio_params
     = Raise (ValueError "Either sse_url or stdio_params must be provided")) /\
    forall c,
      MCPClient_init sse_url stdio_params = Ok c ->
      MCPClient_list_tools c = (c, Raise not_initialized) /\
      (forall tool_name arguments,
          MCPClient_call_tool tool_name arguments c = (c, Raise not_initialized)) /\
      MCPClient_close c = (c, Ok tt).
Proof.
  intros env sse_url stdio_params. unfold MCPClient_init. split.
  - destruct (truthy sse_url); destruct (truthy_dict stdio_params); split;
      try (intros [H1 H2]; discriminate); try discriminate; auto.
  - intros c H.
    assert (Hc : c = mkClient sse_url stdio_params None [] []).
    { destruct (truthy sse_url); destruct (truthy_dict stdio_params);
        try discriminate; inversion H; reflexivity. }
    subst c. repeat split.
Qed.

Lemma client_needs_initialize_witness :
  exists c,
    MCPClient_init (Some "https://a.example/sse") None = Ok c /\
    @MCPClient_call_tool searching_world "search" (JObj []) c = (c, Raise not_initialized).
Proof.
  exists (mkClient (Some "https://a.example/sse") None None [] []).
  split; [reflexivity|].
  apply (proj2 (client_needs_initialize searching_world (Some "https://a.example/sse") None)
           _ eq_refl).
Defined.

(** X28: [initialize()] connects over SSE whenever a URL is given, whatever
    the stdio parameters are, and over stdio otherwise: its first call is
    the one and no call of the other kind is made.  When it returns, it
    returns the session it has stored, with the session's context on top
    of the transport's on the exit stack. *)
Theorem client_initialize_prefers_sse :
  forall (env : Env) (c : MCPClient),
    (exists rest,
        client_trace (fst (MCPClient_initialize c))
        = client_trace c ++
          match truthy (client_sse_url c) with
          | Some url => EvSseClient url
          | None => EvStdioClient (match client_stdio_params c with
                                   | Some d => JObj d
                                   | None => JNull
                                   end)
          end :: rest /\
        forallb (fun ev => match ev with
                           | EvClientSession _ | EvSessionInitialize _ => true
                           | _ => false
                           end) rest = true) /\
    forall session,
      snd (MCPClient_initialize c) = Ok session ->
      client_session (fst (MCPClient_initialize c)) = Some session /\
      exists t,
        client_exit_stack (fst (MCPClient_initialize c))
        = CtxSession session :: CtxTransport t :: client_exit_stack c.
Proof.
  intros env c. unfold MCPClient_initialize, MCPClient_transport.
  destruct (truthy (client_sse_url c)) as [url|].
  - destruct (sse_client (client_trace c) url) as [t|e].
    + cbn [client_trace client_entered client_called].
      destruct (ClientSession (client_trace c ++ [EvSseClient url]) t) as [session|e].
      * cbn [client_trace client_entered client_called client_with_session].
        destruct (session_initialize _ session) as [[]|e]; cbn [fst snd].
        -- split.
           ++ exists [EvClientSession t; EvSessionInitialize session].
              simpl. rewrite <- ?app_assoc. simpl. auto.
           ++ intros s0 H. inversion H; subst s0. split; [reflexivity|].
              exists t. reflexivity.
        -- split; [|discriminate].
           exists [EvClientSession t; EvSessionInitialize session].
           simpl. rewrite <- ?app_assoc. simpl. auto.
      * cbn [fst snd]. split; [|discriminate].
        exists [EvClientSession t]. simpl. rewrite <- ?app_assoc. simpl. auto.
    + cbn [fst snd]. split; [|discriminate]. exists []. auto.
  - set (params := match client_stdio_params c with Some d => JObj d | None => JNull end).
    destruct (stdio_client (client_trace c) params) as [t|e].
    + cbn [client_trace client_entered client_called].
      destruct (ClientSession (client_trace c ++ [EvStdioClient params]) t) as [session|e].
      * cbn [client_trace client_entered client_called client_with_session].
        destruct (session_initialize _ session) as [[]|e]; cbn [fst snd].
        -- split.
           ++ exists [EvClientSession t; EvSessionInitialize session].
              simpl. rewrite <- ?app_assoc. simpl. auto.
           ++ intros s0 H. inversion H; subst s0. split; [reflexivity|].
              exists t. reflexivity.
        -- split; [|discriminate].
           exists [EvClientSession t; EvSessionInitialize session].
           simpl. rewrite <- ?app_assoc. simpl. auto.
      * cbn [fst snd]. split; [|discriminate].
        exists [EvClientSession t]. simpl. rewrite <- ?app_assoc. simpl. auto.
    + cbn [fst snd]. split; [|discriminate]. exists []. auto.
Qed.

Lemma client_initialize_prefers_sse_witness :
  let c := mkClient (Some "https://a.example/sse") (Some [ ("command", JStr "run") ])
                    None [] [] in
  snd (@MCPClient_initialize searching_world c) = Ok 1 /\
  client_session (fst (@MCPClient_initialize searching_world c)) = Some 1 /\
  client_trace (fst (@MCPClient_initialize searching_world c))
  = [ EvSseClient "https://a.example/sse"; EvClientSession 0; EvSessionInitialize 1 ].
Proof.
  intros c. split; [reflexivity|]. split; [|reflexivity].
  apply (proj1 (proj2 (client_initialize_prefers_sse searching_world c) 1 eq_refl)).
Defined.

Lemma MCPClient_aclose_grows :
  forall (env : Env) cs pending c0,
    exists rest, client_trace (fst (MCPClient_aclose cs pending c0))
                 = client_trace c0 ++ rest.
Proof.
  intros env. induction cs as [|ctx cs IH]; intros pending c0; cbn [MCPClient_aclose].
  - exists []. rewrite app_nil_r. reflexivity.
  - destruct (ctx_exit (client_trace c0) ctx) as [u|e].
    + destruct (IH pending (client_called (EvExit ctx) (client_with_stack cs c0)))
        as [rest Hr].
      exists (EvExit ctx :: rest). rewrite Hr.
      cbn [client_trace client_called client_with_stack].
      rewrite <- app_assoc. reflexivity.
    + destruct (IH (Some e) (client_called (EvExit ctx) (client_with_stack cs c0)))
        as [rest Hr].
      exists (EvExit ctx :: rest). rewrite Hr.
      cbn [client_trace client_called client_with_stack].
      rewrite <- app_assoc. reflexivity.
Qed.

(** X29: [initialize()] stores the session before it initializes it.  When
    the initialization of the session raises, [initialize()] raises, and
    yet the client then counts as initialized: [list_tools] and
    [call_tool] no longer raise their [RuntimeError] but send their
    request to the session that failed to initialize.  Both contexts are
    on the exit stack, and [close()] exits them, the session first. *)
Theorem failed_handshake_leaves_session :
  forall (env : Env) (c c' : MCPClient) (t : Transport) (session : Session) (e : Exn),
    MCPClient_transport c = (c', Ok t) ->
    ClientSession (client_trace c') t = Ok session ->
    session_initialize (client_trace c' ++ [EvClientSession t]) session = Raise e ->
    let failed := fst (MCPClient_initialize c) in
    snd (MCPClient_initialize c) = Raise e /\
    client_session failed = Some session /\
    fst (MCPClient_list_tools failed) = client_called (EvListTools session) failed /\
    (forall tool_name arguments,
        fst (MCPClient_call_tool tool_name arguments failed)
        = client_called (EvCallTool session tool_name arguments) failed) /\
    client_exit_stack failed = CtxSession session :: client_exit_stack c' /\
    exists rest,
      client_trace (fst (MCPClient_close failed))
      = client_trace failed ++ EvExit (CtxSession session) :: rest.
Proof.
  intros env c c' t session e Ht Hs Hi failed.
  assert (Hf : MCPClient_initialize c
               = (client_called (EvSessionInitialize session)
                    (client_with_session session
                       (client_entered (CtxSession session)
                          (client_called (EvClientSession t) c'))),
                  Raise e)).
  { unfold MCPClient_initialize. rewrite Ht, Hs.
    cbn [client_trace client_called client_entered client_with_session]. rewrite Hi.
    reflexivity. }
  unfold failed. rewrite Hf. cbn [fst snd].
  split; [reflexivity|]. split; [reflexivity|]. split; [reflexivity|].
  split; [reflexivity|]. split; [reflexivity|].
  unfold MCPClient_close.
  cbn [client_exit_stack client_called client_with_session client_entered].
  match goal with
  | |- exists rest, client_trace (fst (MCPClient_aclose (?ctx :: ?cs) ?pending ?c0)) = _ =>
      destruct (MCPClient_aclose_grows env (ctx :: cs) pending c0) as [rest Hr];
      cbn [MCPClient_aclose] in Hr |- *;
      destruct (ctx_exit (client_trace c0) ctx) as [u|e0];
      [ destruct (MCPClient_aclose_grows env cs pending
                    (client_called (EvExit ctx) (client_with_stack cs c0))) as [rest' Hr']
      | destruct (MCPClient_aclose_grows env cs (Some e0)
                    (client_called (EvExit ctx) (client_with_stack cs c0))) as [rest' Hr'] ];
      exists rest'; rewrite Hr';
      cbn [client_trace client_called client_with_stack];
      rewrite <- ?app_assoc; reflexivity
  end.
Qed.

Lemma failed_handshake_leaves_session_witness :
  let c := mkClient (Some "https://a.example/sse") None None [] [] in
  let failed := fst (@MCPClient_initialize handshake_down_world c) in
  snd (@MCPClient_initialize handshake_down_world c)
  = Raise (mkExn "McpError" "Connection closed") /\
  client_session failed = Some 1 /\
  fst (@MCPClient_list_tools handshake_down_world failed)
  = client_called (EvListTools 1) failed.
Proof.
  intros c failed.
  destruct (failed_handshake_leaves_session handshake_down_world c
              (fst (@MCPClient_transport handshake_down_world c)) 0 1
              (mkExn "McpError" "Connection closed") eq_refl eq_refl eq_refl)
    as [H1 [H2 [H3 _]]].
  split; [exact H1|]. split; [exact H2 | exact H3].
Defined.
